(** * OpenAdServer (liteads): the ad decision pipeline, embedded in Rocq

    Shallow embedding of
      - [liteads/ad_server/services/event_service.py]  (event / cost ledger)
      - [liteads/ad_server/routers/event.py]           (pixel tracking endpoint)
      - [liteads/rec_engine/retrieval/targeting.py]    (rule matcher, campaign
        cache, candidate retriever)
      - [liteads/ad_server/routers/media.py]           (URL encoding of the
        media proxy)
      - [liteads/ad_server/routers/ad.py]              (referer, proxied image
        URLs, click-through)
      - [liteads/common/config.py]                     (merging of
        configurations)
    followed by the properties of the specification that concern them.

    Conventions.  Python [int] is [Z]; [str] is [string], read as ASCII text
    (bytes above 127 are left alone by [lower], [upper] and [strip]);
    [Decimal] is an exact rational [Q] (Python's context precision of 28
    digits is not modelled); [None]-able values are [option]; exceptions are
    the [Raise] case of [result]. *)

From Stdlib Require Import ZArith QArith Ascii String Lia.
From Stdlib Require Import DecimalString DecimalPos DecimalN DecimalZ.
From stdpp Require Import base option list gmap strings.

Local Open Scope string_scope.

(* ===================================================================== *)
(** * Python primitives used by the services                              *)
(* ===================================================================== *)

Module Py.

(** Exceptions that the modelled code can raise. *)
Inductive exn : Type :=
  | ValueError | IndexError | TypeError | AttributeError | KeyError
  | StoreError.

Inductive result (A : Type) : Type :=
  | Ok (a : A)
  | Raise (e : exn).
Arguments Ok {A} a.
Arguments Raise {A} e.

#[export] Instance result_ret : MRet result := fun A a => Ok a.
#[export] Instance result_bind : MBind result := fun A B f r =>
  match r with Ok a => f a | Raise e => Raise e end.

(** ** Characters *)

Definition is_space (c : ascii) : bool :=
  let n := nat_of_ascii c in
  (((9 <=? n) && (n <=? 13)) || ((28 <=? n) && (n <=? 32)))%nat.

Definition is_digit (c : ascii) : bool :=
  let n := nat_of_ascii c in ((48 <=? n) && (n <=? 57))%nat.

Definition lower_char (c : ascii) : ascii :=
  let n := nat_of_ascii c in
  if ((65 <=? n) && (n <=? 90))%nat then ascii_of_nat (n + 32) else c.

Definition upper_char (c : ascii) : ascii :=
  let n := nat_of_ascii c in
  if ((97 <=? n) && (n <=? 122))%nat then ascii_of_nat (n - 32) else c.

(** ** Strings *)

Fixpoint smap (f : ascii -> ascii) (s : string) : string :=
  match s with
  | EmptyString => EmptyString
  | String c r => String (f c) (smap f r)
  end.

(** [s.lower()], [s.upper()] *)
Definition lower (s : string) : string := smap lower_char s.
Definition upper (s : string) : string := smap upper_char s.

(** [s.lstrip()], [s.rstrip()], [s.strip()] *)
Fixpoint lstrip (s : string) : string :=
  match s with
  | String c r => if is_space c then lstrip r else s
  | EmptyString => EmptyString
  end.

Fixpoint rstrip (s : string) : string :=
  match s with
  | EmptyString => EmptyString
  | String c r =>
      match rstrip r with
      | EmptyString => if is_space c then EmptyString else String c EmptyString
      | r' => String c r'
      end
  end.

Definition strip (s : string) : string := rstrip (lstrip s).

(** [s.startswith(p)] *)
Definition startswith (s p : string) : bool := String.prefix p s.

Fixpoint drop_chars (n : nat) (s : string) : string :=
  match n, s with
  | O, _ => s
  | S n', String _ r => drop_chars n' r
  | S _, EmptyString => EmptyString
  end.

(** [s.endswith(p)] *)
Definition endswith (s p : string) : bool :=
  (String.length p <=? String.length s)%nat &&
  String.eqb (drop_chars (String.length s - String.length p) s) p.

(** [p in s] on strings *)
Fixpoint contains (s p : string) : bool :=
  String.prefix p s ||
  match s with
  | EmptyString => false
  | String _ r => contains r p
  end.

(** [s.split(sep)] for a one-character separator: never the empty list. *)
Fixpoint split (sep : ascii) (s : string) : list string :=
  match s with
  | EmptyString => [EmptyString]
  | String c r =>
      if Ascii.eqb c sep then EmptyString :: split sep r
      else match split sep r with
           | p :: ps => String c p :: ps
           | [] => [String c EmptyString]
           end
  end.

(** [sep.join(parts)] *)
Fixpoint join (sep : string) (parts : list string) : string :=
  match parts with
  | [] => EmptyString
  | [p] => p
  | p :: ps => p ++ sep ++ join sep ps
  end.

(** ** Integers and text *)

(** [int(s)] in base 10: surrounding white space is dropped, one sign is
    allowed, then at least one digit.  The digit-group separator [_] is not
    modelled: every argument in this development is a piece of a split on
    ["_"] or a run of digits. *)
Definition int (s : string) : result Z :=
  let t := strip s in
  let '(neg, body) :=
    match t with
    | String "-" r => (true, r)
    | String "+" r => (false, r)
    | _ => (false, t)
    end in
  match NilZero.uint_of_string body with
  | Some u => let n := Z.of_N (N.of_uint u) in Ok (if neg then (- n)%Z else n)
  | None => Raise ValueError
  end.

(** [str(n)], also what an f-string prints for an [int]. *)
Definition str (n : Z) : string := NilZero.string_of_int (Z.to_int n).

(** ** Sequences *)

(** [l[i]] for a non-negative literal index. *)
Definition index {A} (l : list A) (i : nat) : result A :=
  match l !! i with
  | Some a => Ok a
  | None => Raise IndexError
  end.

(** [l[:n]]: a negative bound counts from the end. *)
Definition slice_to {A} (l : list A) (n : Z) : list A :=
  if (0 <=? n)%Z then take (Z.to_nat n) l
  else take (length l - Z.to_nat (- n)) l.

(** [l[-n:]] for a literal [n > 0]. *)
Definition last_n {A} (n : nat) (l : list A) : list A :=
  drop (length l - n) l.

(** Truth value of an optional string: [None] and [""] are false. *)
Definition truthy_str (o : option string) : bool :=
  match o with
  | Some s => negb (String.eqb s "")
  | None => false
  end.

End Py.

Import Py.

(* ===================================================================== *)
(** * Data model                                                          *)
(* ===================================================================== *)

Module Model.

(** Loosely typed stored values (JSON columns and decoded JSON text).
    Numbers are exact rationals; [nan] and the infinities are left out.
    A dict lists its items in insertion order, with distinct keys. *)
#[warnings="-register-all"]
Inductive pyval : Type :=
  | PNone
  | PBool (b : bool)
  | PNum (q : Q)
  | PStr (s : string)
  | PList (l : list pyval)
  | PDict (d : list (string * pyval)).

(** Modelled from the spec: [liteads.models.base.Status] is not among the
    sources; the data model names the states draft/active/paused/ended. *)
Inductive Status : Type := DRAFT | ACTIVE | PAUSED | ENDED.

#[export] Instance Status_eq_dec : EqDecision Status.
Proof. solve_decision. Defined.

(** [liteads.models.base.EventType]: the three members that
    [_get_event_type] can return. *)
Inductive EventType : Type := IMPRESSION | CLICK | CONVERSION.

#[export] Instance EventType_eq_dec : EqDecision EventType.
Proof. solve_decision. Defined.

(** [liteads.models.base.BidType], with the integer codes that the
    docstring of [_calculate_cost] gives. *)
Module BidType.
Definition CPM : Z := 1.
Definition CPC : Z := 2.
Definition CPA : Z := 3.
Definition OCPM : Z := 4.
End BidType.

Record Creative : Type := {
  creative_id : Z;
  title : option string;
  description : option string;
  image_url : option string;
  video_url : option string;
  landing_url : option string;
  creative_type : Z;
  width : option Z;
  height : option Z;
  creative_status : Status;
}.

Record TargetingRule : Type := {
  rule_type : string;
  rule_value : pyval;
  is_include : bool;
}.

(** One row of the campaigns table; the primary key [id] is the key of
    the table ([campaigns] below).  [is_house_ad], [page_targeting] and
    [target_domains] are read with [getattr(..., default)]. *)
Record Campaign : Type := {
  advertiser_id : Z;
  name : string;
  status : Status;
  bid_type : Z;
  bid_amount : Q;
  priority_boost : option Q;
  budget_daily : option Q;
  budget_total : option Q;
  spent_today : option Q;
  spent_total : option Q;
  freq_cap_daily : option Z;
  freq_cap_hourly : option Z;
  is_house_ad : option bool;
  page_targeting : pyval;
  target_domains : pyval;
  creatives : list Creative;
  targeting_rules : list TargetingRule;
}.

Record AdEvent : Type := {
  request_id : string;
  ev_campaign_id : option Z;
  ev_creative_id : option Z;
  event_type : EventType;
  event_time : Z;
  user_id : option string;
  cost : Q;
}.

(** The snapshot entries that [_get_active_campaigns] builds. *)
Record CreativeData : Type := {
  cr_id : Z;
  cr_title : option string;
  cr_description : option string;
  cr_image_url : option string;
  cr_video_url : option string;
  cr_landing_url : option string;
  cr_creative_type : Z;
  cr_width : option Z;
  cr_height : option Z;
}.

Record CampaignData : Type := {
  cd_id : Z;
  cd_advertiser_id : Z;
  cd_name : string;
  cd_bid_type : Z;
  cd_bid_amount : Q;
  cd_priority_boost : Q;
  cd_budget_daily : option Q;
  cd_budget_total : option Q;
  cd_spent_today : Q;
  cd_spent_total : Q;
  cd_freq_cap_daily : option Z;
  cd_freq_cap_hourly : option Z;
  cd_is_house_ad : option bool;
  cd_page_targeting : pyval;
  cd_target_domains : pyval;
  cd_creatives : list CreativeData;
  cd_targeting_rules : list TargetingRule;
}.

(** What the cache holds under the active-ads key: the JSON text of a
    snapshot, or text that [json_loads] rejects. *)
Inductive CacheEntry : Type :=
  | CachedSnapshot (l : list CampaignData)
  | CachedCorrupt.

(** Modelled from the spec: [liteads.common.cache] ([CacheKeys],
    [redis_client]) is not among the sources.  The key-value store has
    TTL-bearing set/get, hash-field increment and plain increment, and
    its keys are namespaced by purpose: one map per purpose, each with
    the expiry last set on the key. *)
Record Redis : Type := {
  active_ads : option (CacheEntry * option Z);
  stat_hourly : gmap (Z * string) (gmap string Z);
  stat_hourly_ttl : gmap (Z * string) Z;
  freq_daily : gmap (string * Z * string) Z;
  freq_daily_ttl : gmap (string * Z * string) Z;
  freq_hourly : gmap (string * Z * string) Z;
  freq_hourly_ttl : gmap (string * Z * string) Z;
}.

(** The session (campaign rows and the event log) and the counter store. *)
Record State : Type := {
  campaigns : gmap Z Campaign;
  events : list AdEvent;
  redis : Redis;
}.

(** What the services read from their surroundings:
    the clock ([liteads.common.utils]), whether the store accepts the
    flush of a new event, the [is_active] property of the campaign model,
    the two library functions [json_loads] and [fnmatch.fnmatch], and
    the check that [urlparse] applies to a bracketed host (an IPv6 or
    IPvFuture literal, decided by the [ipaddress] module). *)
Record Env : Type := {
  current_timestamp : Z;
  current_date : string;
  current_hour : string;
  db_accepts : AdEvent -> bool;
  campaign_is_active : Campaign -> bool;
  json_loads : string -> result pyval;
  fnmatch : string -> string -> bool;
  bracketed_host_ok : string -> bool;
}.

End Model.

Import Model.

(* ===================================================================== *)
(** * [EventService] (event_service.py) and the pixel endpoint (event.py) *)
(* ===================================================================== *)

Module EventService.

(** [try: ... except (ValueError, IndexError): return None, None] *)
Definition _parse_ad_id (ad_id : string) : result (option Z * option Z) :=
  let body : result (option Z * option Z) :=
    let parts := split "_" ad_id in
    if (3 <=? length parts)%nat && bool_decide (parts !! 0%nat = Some "ad") then
      p1 ← index parts 1; a ← int p1;
      p2 ← index parts 2; b ← int p2;
      mret (Some a, Some b)
    else if (2 <=? length parts)%nat then
      p0 ← index parts 0; a ← int p0;
      p1 ← index parts 1; b ← int p1;
      mret (Some a, Some b)
    else
      a ← int ad_id;
      mret (Some a, None)
  in
  match body with
  | Raise ValueError | Raise IndexError => Ok (None, None)
  | r => r
  end.

(** The [mapping] dictionary of [_get_event_type]. *)
Definition mapping : list (string * EventType) :=
  [ ("impression", IMPRESSION); ("click", CLICK); ("conversion", CONVERSION);
    ("imp", IMPRESSION); ("clk", CLICK); ("conv", CONVERSION);
    ("v", IMPRESSION); ("c", CLICK); ("x", CONVERSION) ].

Definition _get_event_type (event_type : string) : option EventType :=
  snd <$> List.find (fun kv => String.eqb (fst kv) (lower event_type)) mapping.

(** [x or Decimal("0")] *)
Definition or_zero (x : option Q) : Q :=
  match x with
  | Some q => if Qeq_bool q 0 then 0%Q else q
  | None => 0%Q
  end.

(** [cost > 0] *)
Definition positive (q : Q) : bool := negb (Qle_bool q 0).

(** [getattr(campaign, 'is_house_ad', False)] used as a condition. *)
Definition house (c : Campaign) : bool := default false (is_house_ad c).

Definition _calculate_cost (st : State) (event_type : EventType)
    (campaign_id : option Z) : Q * State :=
  match campaign_id with
  | None => (0%Q, st)
  | Some cid =>
    match campaigns st !! cid with
    | None => (0%Q, st)
    | Some campaign =>
      if house campaign then (0%Q, st)
      else
        let cost : Q :=
          if (bid_type campaign =? BidType.CPM)%Z || (bid_type campaign =? BidType.OCPM)%Z then
            if bool_decide (event_type = IMPRESSION)
            then (bid_amount campaign / 1000)%Q else 0%Q
          else if (bid_type campaign =? BidType.CPC)%Z then
            if bool_decide (event_type = CLICK) then bid_amount campaign else 0%Q
          else if (bid_type campaign =? BidType.CPA)%Z then
            if bool_decide (event_type = CONVERSION) then bid_amount campaign else 0%Q
          else 0%Q in
        if positive cost then
          let campaign' :=
            {| advertiser_id := advertiser_id campaign;
               name := name campaign;
               status := status campaign;
               bid_type := bid_type campaign;
               bid_amount := bid_amount campaign;
               priority_boost := priority_boost campaign;
               budget_daily := budget_daily campaign;
               budget_total := budget_total campaign;
               spent_today := Some (or_zero (spent_today campaign) + cost)%Q;
               spent_total := Some (or_zero (spent_total campaign) + cost)%Q;
               freq_cap_daily := freq_cap_daily campaign;
               freq_cap_hourly := freq_cap_hourly campaign;
               is_house_ad := is_house_ad campaign;
               page_targeting := page_targeting campaign;
               target_domains := target_domains campaign;
               creatives := creatives campaign;
               targeting_rules := targeting_rules campaign |} in
          (cost, {| campaigns := <[cid := campaign']> (campaigns st);
                    events := events st;
                    redis := redis st |})
        else (cost, st)
    end
  end.

Definition with_redis (st : State) (r : Redis) : State :=
  {| campaigns := campaigns st; events := events st; redis := r |}.

(** [redis_client.hincrby(key, field, 1)] then [expire(key, 48 * 3600)] *)
Definition _update_stats (env : Env) (st : State) (campaign_id : option Z)
    (event_type : EventType) : State :=
  match campaign_id with
  | None => st
  | Some cid =>
    let hour := current_hour env in
    let key := (cid, hour) in
    let field :=
      match event_type with
      | IMPRESSION => "impressions"
      | CLICK => "clicks"
      | CONVERSION => "conversions"
      end in
    let r := redis st in
    let h := default ∅ (stat_hourly r !! key) in
    let h' := <[field := (default 0 (h !! field) + 1)%Z]> h in
    with_redis st
      {| active_ads := active_ads r;
         stat_hourly := <[key := h']> (stat_hourly r);
         stat_hourly_ttl := <[key := (48 * 3600)%Z]> (stat_hourly_ttl r);
         freq_daily := freq_daily r;
         freq_daily_ttl := freq_daily_ttl r;
         freq_hourly := freq_hourly r;
         freq_hourly_ttl := freq_hourly_ttl r |}
  end.

(** [incr] and [expire] on the daily and on the hourly key *)
Definition _update_frequency (env : Env) (st : State) (user_id : string)
    (campaign_id : option Z) : State :=
  match campaign_id with
  | None => st
  | Some cid =>
    let today := current_date env in
    let hour := current_hour env in
    let daily_key := (user_id, cid, today) in
    let hourly_key := (user_id, cid, hour) in
    let r := redis st in
    with_redis st
      {| active_ads := active_ads r;
         stat_hourly := stat_hourly r;
         stat_hourly_ttl := stat_hourly_ttl r;
         freq_daily :=
           <[daily_key := (default 0 (freq_daily r !! daily_key) + 1)%Z]> (freq_daily r);
         freq_daily_ttl := <[daily_key := (24 * 3600)%Z]> (freq_daily_ttl r);
         freq_hourly :=
           <[hourly_key := (default 0 (freq_hourly r !! hourly_key) + 1)%Z]> (freq_hourly r);
         freq_hourly_ttl := <[hourly_key := 3600%Z]> (freq_hourly_ttl r) |}
  end.

(** [datetime.fromtimestamp(t, tz=timezone.utc)]: years 1 to 9999 only. *)
Definition fromtimestamp (t : Z) : result Z :=
  if ((-62135596800 <=? t) && (t <=? 253402300799))%Z then Ok t
  else Raise ValueError.

(** [datetime.fromtimestamp(timestamp, tz=timezone.utc) if timestamp else
    datetime.now(timezone.utc)] *)
Definition event_time_of (env : Env) (timestamp : option Z) : result Z :=
  match timestamp with
  | Some t => if (t =? 0)%Z then Ok (current_timestamp env) else fromtimestamp t
  | None => Ok (current_timestamp env)
  end.

(** [session.add(event); await session.flush()].  A flush that the store
    refuses raises, and the session's transaction is rolled back. *)
Definition add_flush (env : Env) (st : State) (event : AdEvent) : result State :=
  if db_accepts env event then
    Ok {| campaigns := campaigns st;
          events := events st ++ [event];
          redis := redis st |}
  else Raise StoreError.

(** The body of the [try] block.  [Ok false] is the [return False] for an
    unknown event type; the counter store is taken to be available. *)
Definition track_event_body (env : Env) (st : State)
    (request_id ad_id event_type : string) (user_id : option string)
    (timestamp : option Z) : result (bool * State) :=
  ids ← _parse_ad_id ad_id;
  let '(campaign_id, creative_id) := ids in
  match _get_event_type event_type with
  | None => Ok (false, st)
  | Some event_type_enum =>
    event_time ← event_time_of env timestamp;
    let '(cost, st1) := _calculate_cost st event_type_enum campaign_id in
    let event :=
      {| request_id := request_id;
         ev_campaign_id := campaign_id;
         ev_creative_id := creative_id;
         event_type := event_type_enum;
         event_time := event_time;
         user_id := user_id;
         cost := cost |} in
    st2 ← add_flush env st1 event;
    let st3 := _update_stats env st2 campaign_id event_type_enum in
    let st4 :=
      if bool_decide (event_type_enum = IMPRESSION) && truthy_str user_id
      then _update_frequency env st3 (default "" user_id) campaign_id
      else st3 in
    Ok (true, st4)
  end.

(** [try: ... except Exception: return False].  Every exception of the
    body comes before the flush or from it, so nothing of a failed call
    stays in the session. *)
Definition track_event (env : Env) (st : State)
    (request_id ad_id event_type : string) (user_id : option string)
    (timestamp : option Z) : bool * State :=
  match track_event_body env st request_id ad_id event_type user_id timestamp with
  | Ok r => r
  | Raise _ => (false, st)
  end.

Record EventResponse : Type := {
  success : bool;
  message : string;
}.

(** [GET /]: [track_event_get(t, r, i)] of routers/event.py *)
Definition track_event_get (env : Env) (st : State) (t r i : string)
    : EventResponse * State :=
  let '(ok, st') :=
    track_event env st r i t None (Some (current_timestamp env)) in
  ({| success := ok;
      message := if ok then "Event recorded" else "Failed to record event" |},
   st').

End EventService.

Import EventService.

(* ===================================================================== *)
(** * [TargetingRetrieval] (targeting.py)                                 *)
(* ===================================================================== *)

Module Targeting.

(** [liteads.schemas.internal.UserContext]: the attributes that the
    retrieval reads.  An absent list of interests is the empty list. *)
Record UserContext : Type := {
  age : option Z;
  gender : option string;
  country : option string;
  city : option string;
  device_model : option string;
  os : option string;
  interests : list string;
  app_categories : list string;
  uc_page_url : option string;
}.

Record AdCandidate : Type := {
  campaign_id : Z;
  ac_creative_id : Z;
  ac_advertiser_id : Z;
  bid : Q;
  ac_bid_type : Z;
  ac_priority_boost : Q;
  ac_title : option string;
  ac_description : option string;
  ac_image_url : option string;
  ac_video_url : option string;
  ac_landing_url : option string;
  ac_creative_type : Z;
  ac_width : option Z;
  ac_height : option Z;
  ac_is_house_ad : bool;
}.

(** ** Operations on loosely typed values *)

(** [bool(v)] *)
Definition truthy (v : pyval) : bool :=
  match v with
  | PNone => false
  | PBool b => b
  | PNum q => negb (Qeq_bool q 0)
  | PStr s => negb (String.eqb s "")
  | PList l => match l with [] => false | _ => true end
  | PDict d => match d with [] => false | _ => true end
  end.

Fixpoint assoc (k : string) (d : list (string * pyval)) : option pyval :=
  match d with
  | [] => None
  | (k', v) :: d' => if String.eqb k' k then Some v else assoc k d'
  end.

(** [v.get(k, dflt)]: only a dict has [get]. *)
Definition get (v : pyval) (k : string) (dflt : pyval) : result pyval :=
  match v with
  | PDict d => Ok (default dflt (assoc k d))
  | _ => Raise AttributeError
  end.

Fixpoint chars (s : string) : list pyval :=
  match s with
  | EmptyString => []
  | String c r => PStr (String c EmptyString) :: chars r
  end.

(** [for x in v]: lists give their items, strings their characters,
    dicts their keys. *)
Definition iter (v : pyval) : result (list pyval) :=
  match v with
  | PList l => Ok l
  | PStr s => Ok (chars s)
  | PDict d => Ok (PStr <$> d.*1)
  | _ => Raise TypeError
  end.

(** [x.lower()] and [x.upper()] on an item of unknown type *)
Definition lower_of (v : pyval) : result string :=
  match v with PStr s => Ok (lower s) | _ => Raise AttributeError end.
Definition upper_of (v : pyval) : result string :=
  match v with PStr s => Ok (upper s) | _ => Raise AttributeError end.

(** [[f(x) for x in v]] *)
Definition comprehension (f : pyval -> result string) (v : pyval)
    : result (list string) :=
  l ← iter v; mapM f l.

(** [s in l] for a list of strings *)
Definition mem (s : string) (l : list string) : bool :=
  existsb (String.eqb s) l.

Definition is_str (s : string) (v : pyval) : bool :=
  match v with PStr s' => String.eqb s s' | _ => false end.

(** [s in v] for a string [s] and a value of unknown type *)
Definition str_in (s : string) (v : pyval) : result bool :=
  match v with
  | PList l => Ok (existsb (is_str s) l)
  | PStr t => Ok (contains t s)
  | PDict d => Ok (mem s d.*1)
  | _ => Raise TypeError
  end.

(** [v <= n] and [n <= v] for an [int] [n]: [bool] counts as 0 or 1. *)
Definition as_number (v : pyval) : result Q :=
  match v with
  | PNum q => Ok q
  | PBool b => Ok (if b then 1%Q else 0%Q)
  | _ => Raise TypeError
  end.
Definition le_int (v : pyval) (n : Z) : result bool :=
  q ← as_number v; mret (Qle_bool q (inject_Z n)).
Definition int_le (n : Z) (v : pyval) : result bool :=
  q ← as_number v; mret (Qle_bool (inject_Z n) q).

(** ** Slot dimensions *)

(** The longest run of digits at the head of [s], and what follows. *)
Fixpoint span_digits (s : string) : string * string :=
  match s with
  | String c r =>
      if is_digit c then let '(d, rest) := span_digits r in (String c d, rest)
      else (EmptyString, s)
  | EmptyString => (EmptyString, EmptyString)
  end.

(** [_DIMENSION_PATTERN.search(s)] for the pattern [(\d+)x(\d+)]: the two
    groups of the leftmost match.  Both groups are greedy, and giving
    back digits of the first never uncovers an [x]. *)
Fixpoint dimension_search (s : string) : option (string * string) :=
  match s with
  | EmptyString => None
  | String _ r =>
      match span_digits s with
      | (String c1 d1, String "x" rest) =>
          match span_digits rest with
          | (String c2 d2, _) => Some (String c1 d1, String c2 d2)
          | _ => dimension_search r
          end
      | _ => dimension_search r
      end
  end.

Definition _parse_slot_dimensions (slot_id : string) : result (option (Z * Z)) :=
  match dimension_search slot_id with
  | Some (g1, g2) => w ← int g1; h ← int g2; mret (Some (w, h))
  | None => mret None
  end.

Definition _creative_matches_slot (creative_data : CreativeData)
    (slot_dimensions : option (Z * Z)) : bool :=
  match slot_dimensions with
  | None => true
  | Some (slot_width, slot_height) =>
    match cr_width creative_data, cr_height creative_data with
    | Some creative_width, Some creative_height =>
        (creative_width =? slot_width)%Z && (creative_height =? slot_height)%Z
    | _, _ => true
    end
  end.

(** ** Domain targeting *)

Definition is_alpha (c : ascii) : bool :=
  let n := nat_of_ascii c in
  (((65 <=? n) && (n <=? 90)) || ((97 <=? n) && (n <=? 122)))%nat.

(** The characters allowed in a URL scheme. *)
Definition is_scheme_char (c : ascii) : bool :=
  is_alpha c || is_digit c ||
  Ascii.eqb c "+" || Ascii.eqb c "-" || Ascii.eqb c ".".

Fixpoint sall (p : ascii -> bool) (s : string) : bool :=
  match s with
  | EmptyString => true
  | String c r => p c && sall p r
  end.

Fixpoint sfilter (p : ascii -> bool) (s : string) : string :=
  match s with
  | EmptyString => EmptyString
  | String c r => if p c then String c (sfilter p r) else sfilter p r
  end.

(** [s.partition(c)]: the text before the first [c], and the text after
    it when there is one. *)
Fixpoint partition (p : ascii -> bool) (s : string) : string * option string :=
  match s with
  | EmptyString => (EmptyString, None)
  | String c r =>
      if p c then (EmptyString, Some r)
      else let '(a, b) := partition p r in (String c a, b)
  end.

Fixpoint lstrip_c0 (s : string) : string :=
  match s with
  | String c r => if (nat_of_ascii c <=? 32)%nat then lstrip_c0 r else s
  | EmptyString => EmptyString
  end.

(** [urlparse(url).netloc], after [urllib.parse.urlsplit]: leading C0
    controls and spaces are dropped, tabs and line breaks removed, a
    scheme is split off at the first [:], and after [//] the network
    location runs up to the first of [/], [?] and [#]. *)
Definition urlparse_netloc (env : Env) (url : string) : result string :=
  let url := lstrip_c0 url in
  let url :=
    sfilter (fun c => negb (Ascii.eqb c "009" || Ascii.eqb c "013" || Ascii.eqb c "010")) url in
  let url :=
    match partition (Ascii.eqb ":") url with
    | (String c0 pre, Some rest) =>
        if is_alpha c0 && sall is_scheme_char (String c0 pre) then rest else url
    | _ => url
    end in
  match url with
  | String "/" (String "/" r) =>
      let netloc :=
        (partition (fun c => Ascii.eqb c "/" || Ascii.eqb c "?" || Ascii.eqb c "#") r).1 in
      let lb := contains netloc "[" in
      let rb := contains netloc "]" in
      if xorb lb rb then Raise ValueError
      else if lb && rb then
        let after := default EmptyString (partition (Ascii.eqb "[") netloc).2 in
        let bracketed_host := (partition (Ascii.eqb "]") after).1 in
        if bracketed_host_ok env bracketed_host then Ok netloc else Raise ValueError
      else Ok netloc
  | _ => Ok EmptyString
  end.

Definition strip_www (host : string) : string :=
  if startswith host "www." then drop_chars 4 host else host.

Definition _extract_domain (env : Env) (url : string) : option string :=
  if String.eqb url "" then None
  else
    match urlparse_netloc env url with
    | Ok netloc =>
        let host := lower netloc in
        let host := strip_www host in
        let parts := split "." host in
        if (2 <=? length parts)%nat then Some (join "." (last_n 2 parts))
        else Some host
    | Raise _ => None
    end.

(** The [for target in target_domains] loop. *)
Fixpoint domain_loop (page_domain : string) (targets : list pyval) : result bool :=
  match targets with
  | [] => Ok false
  | target :: rest =>
      lowered ← lower_of target;
      let target_clean := strip_www (strip lowered) in
      if String.eqb page_domain target_clean then Ok true
      else if endswith page_domain ("." ++ target_clean) then Ok true
      else domain_loop page_domain rest
  end.

Definition _match_domain_targeting (env : Env) (target_domains : pyval)
    (page_url : option string) : result bool :=
  if negb (truthy target_domains) then Ok true
  else if negb (truthy_str page_url) then Ok true
  else
    let after_parse (target_domains : pyval) : result bool :=
      match target_domains with
      | PList (t :: ts) =>
          match _extract_domain env (default "" page_url) with
          | None => Ok true
          | Some page_domain =>
              if String.eqb page_domain "" then Ok true
              else domain_loop page_domain (t :: ts)
          end
      | _ => Ok true
      end in
    match target_domains with
    | PStr s =>
        match json_loads env s with
        | Ok v => after_parse v
        | Raise ValueError | Raise TypeError => Ok true
        | Raise e => Raise e
        end
    | v => after_parse v
    end.

(** ** The rule matcher *)

Definition _match_rule (rule_type : string) (rule_value : pyval)
    (user_context : UserContext) : result bool :=
  if String.eqb rule_type "age" then
    match age user_context with
    | None => Ok true
    | Some user_age =>
        min_age ← get rule_value "min" (PNum 0);
        max_age ← get rule_value "max" (PNum 999);
        lo ← le_int min_age user_age;
        if (lo : bool) then int_le user_age max_age else Ok false
    end
  else if String.eqb rule_type "gender" then
    match gender user_context with
    | None => Ok true
    | Some g =>
        values ← get rule_value "values" (PList []);
        allowed ← comprehension lower_of values;
        Ok (mem (lower g) allowed)
    end
  else if String.eqb rule_type "geo" then
    countries ← get rule_value "countries" (PList []);
    cities ← get rule_value "cities" (PList []);
    country_ok ←
      (if truthy countries && truthy_str (country user_context) then
         allowed ← comprehension upper_of countries;
         Ok (mem (upper (default "" (country user_context))) allowed)
       else Ok true);
    if negb country_ok then Ok false
    else if truthy cities && truthy_str (city user_context) then
      allowed ← comprehension lower_of cities;
      Ok (mem (lower (default "" (city user_context))) allowed)
    else Ok true
  else if String.eqb rule_type "device" then
    device_types ← get rule_value "types" (PList []);
    if truthy_str (device_model user_context) then
      let model_lower := lower (default "" (device_model user_context)) in
      let device_type :=
        if contains model_lower "tablet" || contains model_lower "pad"
        then "tablet" else "phone" in
      if truthy device_types then str_in device_type device_types
      else Ok true
    else Ok true
  else if String.eqb rule_type "os" then
    os_values ← get rule_value "values" (PList []);
    if truthy os_values && truthy_str (os user_context) then
      allowed ← comprehension lower_of os_values;
      Ok (mem (lower (default "" (os user_context))) allowed)
    else Ok true
  else if String.eqb rule_type "interest" then
    targets ← get rule_value "values" (PList []);
    if truthy targets && negb (bool_decide (interests user_context = [])) then
      let user_interests_lower := lower <$> interests user_context in
      target_interests_lower ← comprehension lower_of targets;
      Ok (existsb (fun i => mem i user_interests_lower) target_interests_lower)
    else Ok true
  else if String.eqb rule_type "app_category" then
    categories ← get rule_value "values" (PList []);
    if truthy categories && negb (bool_decide (app_categories user_context = [])) then
      let user_cats_lower := lower <$> app_categories user_context in
      target_cats_lower ← comprehension lower_of categories;
      Ok (existsb (fun c => mem c user_cats_lower) target_cats_lower)
    else Ok true
  else Ok true.

(** The [for rule in targeting_rules] loop of [_match_targeting]. *)
Fixpoint rules_loop (rules : list TargetingRule) (user_context : UserContext)
    : result bool :=
  match rules with
  | [] => Ok true
  | rule :: rest =>
      matched ← _match_rule (rule_type rule) (rule_value rule) user_context;
      if is_include rule && negb matched then Ok false
      else if negb (is_include rule) && matched then Ok false
      else rules_loop rest user_context
  end.

Definition _match_targeting (campaign_data : CampaignData)
    (user_context : UserContext) : result bool :=
  rules_loop (cd_targeting_rules campaign_data) user_context.

(** ** Page targeting *)

(** [for pattern in patterns: if fnmatch.fnmatch(page_url, pattern)] *)
Fixpoint any_fnmatch (env : Env) (page_url : string) (patterns : list pyval)
    : result bool :=
  match patterns with
  | [] => Ok false
  | PStr pattern :: rest =>
      if fnmatch env page_url pattern then Ok true
      else any_fnmatch env page_url rest
  | _ :: _ => Raise TypeError
  end.

Definition _match_page_targeting (env : Env) (campaign_data : CampaignData)
    (page_url : option string) : result bool :=
  let page_targeting := cd_page_targeting campaign_data in
  if negb (truthy page_targeting) then Ok true
  else if negb (truthy_str page_url) then Ok true
  else
    let url := default "" page_url in
    let after_parse (page_targeting : pyval) : result bool :=
      match page_targeting with
      | PDict (kv :: kvs) =>
          include_patterns ← get page_targeting "include" (PList []);
          exclude_patterns ← get page_targeting "exclude" (PList []);
          excludes ← iter exclude_patterns;
          excluded ← any_fnmatch env url excludes;
          if (excluded : bool) then Ok false
          else if truthy include_patterns then
            includes ← iter include_patterns;
            any_fnmatch env url includes
          else Ok true
      | _ => Ok true
      end in
    match page_targeting with
    | PStr s =>
        match json_loads env s with
        | Ok v => after_parse v
        | Raise ValueError | Raise TypeError => Ok true
        | Raise e => Raise e
        end
    | v => after_parse v
    end.

(** ** The campaign cache *)

Definition creative_data (creative : Creative) : CreativeData :=
  {| cr_id := creative_id creative;
     cr_title := title creative;
     cr_description := description creative;
     cr_image_url := image_url creative;
     cr_video_url := video_url creative;
     cr_landing_url := landing_url creative;
     cr_creative_type := creative_type creative;
     cr_width := width creative;
     cr_height := height creative |}.

Definition rule_data (rule : TargetingRule) : TargetingRule :=
  {| rule_type := rule_type rule;
     rule_value := rule_value rule;
     is_include := is_include rule |}.

(** [float(x)]: the value is kept exact; [float(None)] is a [TypeError]. *)
Definition float (x : option Q) : result Q :=
  match x with
  | Some q => Ok q
  | None => Raise TypeError
  end.

(** [x if x else None] and [x if x else 1.0] for a nullable amount *)
Definition nonzero (x : option Q) : option Q :=
  match x with
  | Some q => if Qeq_bool q 0 then None else Some q
  | None => None
  end.

(** The [campaign_data] dictionary with its creatives and rules filled in. *)
Definition build_campaign_data (id : Z) (campaign : Campaign) : result CampaignData :=
  today ← float (spent_today campaign);
  total ← float (spent_total campaign);
  mret
    {| cd_id := id;
       cd_advertiser_id := advertiser_id campaign;
       cd_name := name campaign;
       cd_bid_type := bid_type campaign;
       cd_bid_amount := bid_amount campaign;
       cd_priority_boost := default 1%Q (nonzero (priority_boost campaign));
       cd_budget_daily := nonzero (budget_daily campaign);
       cd_budget_total := nonzero (budget_total campaign);
       cd_spent_today := today;
       cd_spent_total := total;
       cd_freq_cap_daily := freq_cap_daily campaign;
       cd_freq_cap_hourly := freq_cap_hourly campaign;
       cd_is_house_ad := is_house_ad campaign;
       cd_page_targeting := page_targeting campaign;
       cd_target_domains := target_domains campaign;
       cd_creatives :=
         creative_data <$>
           filter (fun creative => creative_status creative = ACTIVE) (creatives campaign);
       cd_targeting_rules := rule_data <$> targeting_rules campaign |}.

(** The [for campaign in campaigns] loop of [_get_active_campaigns]. *)
Fixpoint snapshot_loop (env : Env) (rows : list (Z * Campaign))
    : result (list CampaignData) :=
  match rows with
  | [] => Ok []
  | (id, campaign) :: rest =>
      if negb (campaign_is_active env campaign) then snapshot_loop env rest
      else
        campaign_data ← build_campaign_data id campaign;
        campaign_list ← snapshot_loop env rest;
        mret (match cd_creatives campaign_data with
              | [] => campaign_list
              | _ => campaign_data :: campaign_list
              end)
  end.

(** [select(Campaign).where(Campaign.status == Status.ACTIVE).limit(1000)],
    the rows taken in the order in which the table lists them. *)
Definition query_active (st : State) : list (Z * Campaign) :=
  take 1000 (filter (fun row => status row.2 = ACTIVE) (map_to_list (campaigns st))).

Definition _cache_ttl : Z := 300.

Definition set_active_ads (st : State) (campaign_list : list CampaignData)
    (ttl : Z) : State :=
  let r := redis st in
  with_redis st
    {| active_ads := Some (CachedSnapshot campaign_list, Some ttl);
       stat_hourly := stat_hourly r;
       stat_hourly_ttl := stat_hourly_ttl r;
       freq_daily := freq_daily r;
       freq_daily_ttl := freq_daily_ttl r;
       freq_hourly := freq_hourly r;
       freq_hourly_ttl := freq_hourly_ttl r |}.

Definition _get_active_campaigns (env : Env) (st : State)
    : result (list CampaignData * State) :=
  match active_ads (redis st) with
  | Some (CachedSnapshot cached, _) => Ok (cached, st)
  | _ =>
      campaign_list ← snapshot_loop env (query_active st);
      match campaign_list with
      | [] => Ok (campaign_list, st)
      | _ => Ok (campaign_list, set_active_ads st campaign_list _cache_ttl)
      end
  end.

(** [refresh]: delete the cache key. *)
Definition refresh (st : State) : State :=
  let r := redis st in
  with_redis st
    {| active_ads := None;
       stat_hourly := stat_hourly r;
       stat_hourly_ttl := stat_hourly_ttl r;
       freq_daily := freq_daily r;
       freq_daily_ttl := freq_daily_ttl r;
       freq_hourly := freq_hourly r;
       freq_hourly_ttl := freq_hourly_ttl r |}.

(** ** Retrieval *)

Definition candidate (campaign_data : CampaignData) (creative_data : CreativeData)
    (is_house_ad : bool) : AdCandidate :=
  {| campaign_id := cd_id campaign_data;
     ac_creative_id := cr_id creative_data;
     ac_advertiser_id := cd_advertiser_id campaign_data;
     bid := cd_bid_amount campaign_data;
     ac_bid_type := cd_bid_type campaign_data;
     ac_priority_boost := cd_priority_boost campaign_data;
     ac_title := cr_title creative_data;
     ac_description := cr_description creative_data;
     ac_image_url := cr_image_url creative_data;
     ac_video_url := cr_video_url creative_data;
     ac_landing_url := cr_landing_url creative_data;
     ac_creative_type := cr_creative_type creative_data;
     ac_width := cr_width creative_data;
     ac_height := cr_height creative_data;
     ac_is_house_ad := is_house_ad |}.

(** The two buckets [(paid_candidates, house_candidates)]. *)
Definition buckets : Type := list AdCandidate * list AdCandidate.

(** [len(paid_candidates) >= limit and len(house_candidates) >= limit] *)
Definition both_full (limit : Z) (b : buckets) : bool :=
  (limit <=? Z.of_nat (length b.1))%Z && (limit <=? Z.of_nat (length b.2))%Z.

(** The inner loop over the creatives of one campaign; it stops at the
    first candidate after which both buckets are full. *)
Fixpoint creatives_loop (campaign_data : CampaignData) (is_house_ad : bool)
    (slot_dimensions : option (Z * Z)) (limit : Z)
    (creatives : list CreativeData) (b : buckets) : buckets :=
  match creatives with
  | [] => b
  | creative_data :: rest =>
      if negb (_creative_matches_slot creative_data slot_dimensions) then
        creatives_loop campaign_data is_house_ad slot_dimensions limit rest b
      else
        let c := candidate campaign_data creative_data is_house_ad in
        let b' : buckets :=
          if is_house_ad then (b.1, (b.2 ++ [c])%list) else ((b.1 ++ [c])%list, b.2) in
        if both_full limit b' then b'
        else creatives_loop campaign_data is_house_ad slot_dimensions limit rest b'
  end.

(** The three checks that a campaign passes before its creatives are
    looked at; each [continue] is a [false]. *)
Definition campaign_matches (env : Env) (user_context : UserContext)
    (page_url : option string) (campaign_data : CampaignData) : result bool :=
  targeted ← _match_targeting campaign_data user_context;
  if negb targeted then Ok false
  else
    paged ← _match_page_targeting env campaign_data page_url;
    if negb paged then Ok false
    else _match_domain_targeting env (cd_target_domains campaign_data) page_url.

(** The outer loop over the campaigns. *)
Fixpoint campaigns_loop (env : Env) (user_context : UserContext)
    (page_url : option string) (slot_dimensions : option (Z * Z)) (limit : Z)
    (campaigns : list CampaignData) (b : buckets) : result buckets :=
  match campaigns with
  | [] => Ok b
  | campaign_data :: rest =>
      ok ← campaign_matches env user_context page_url campaign_data;
      if negb ok then
        campaigns_loop env user_context page_url slot_dimensions limit rest b
      else
        let is_house_ad := default false (cd_is_house_ad campaign_data) in
        let b' := creatives_loop campaign_data is_house_ad slot_dimensions limit
                    (cd_creatives campaign_data) b in
        if both_full limit b' then Ok b'
        else campaigns_loop env user_context page_url slot_dimensions limit rest b'
  end.

(** [retrieve(user_context, slot_id, limit, page_url=...)] *)
Definition retrieve (env : Env) (st : State) (user_context : UserContext)
    (slot_id : string) (limit : Z) (kw_page_url : option string)
    : result (list AdCandidate * State) :=
  got ← _get_active_campaigns env st;
  let '(campaigns, st') := got in
  match campaigns with
  | [] => Ok ([], st')
  | _ =>
      slot_dimensions ← _parse_slot_dimensions slot_id;
      let page_url :=
        if truthy_str kw_page_url then kw_page_url else uc_page_url user_context in
      b ← campaigns_loop env user_context page_url slot_dimensions limit campaigns ([], []);
      let '(paid_candidates, house_candidates) := b in
      match paid_candidates, house_candidates with
      | _ :: _, _ => Ok (slice_to paid_candidates limit, st')
      | [], _ :: _ => Ok (slice_to house_candidates limit, st')
      | [], [] => Ok ([], st')
      end
  end.

End Targeting.

Import Targeting.

(* ===================================================================== *)
(** * The media proxy (routers/media.py)                                  *)
(* ===================================================================== *)

Module Media.

(** In this module a [str] is held as its UTF-8 bytes, so that
    [s.encode()] is the identity, [b.decode()] succeeds exactly on the
    well-formed byte sequences, and [len(s)] counts the bytes that start
    a code point. *)

(** ** Base 64 (base64.py over binascii) *)

(** Six bits, the most significant first. *)
Inductive sextet : Type :=
  | Sextet (b5 b4 b3 b2 b1 b0 : bool).

Definition sextet_value (s : sextet) : nat :=
  let 'Sextet b5 b4 b3 b2 b1 b0 := s in
  (32 * Nat.b2n b5 + 16 * Nat.b2n b4 + 8 * Nat.b2n b3
   + 4 * Nat.b2n b2 + 2 * Nat.b2n b1 + Nat.b2n b0)%nat.

Definition sextet_of_nat (n : nat) : sextet :=
  Sextet (Nat.testbit n 5) (Nat.testbit n 4) (Nat.testbit n 3)
         (Nat.testbit n 2) (Nat.testbit n 1) (Nat.testbit n 0).

(** [binascii]'s [table_b2a_base64] *)
Definition table_b2a_base64 : string :=
  "ABCDEFGHIJKLMNOPQRSTUVWXYZabcdefghijklmnopqrstuvwxyz0123456789+/".

(** [_urlsafe_encode_translation]: [+] becomes [-] and [/] becomes [_];
    [_urlsafe_decode_translation] is the reverse. *)
Definition urlsafe_encode_translation (c : ascii) : ascii :=
  if Ascii.eqb c "+" then "-"%char
  else if Ascii.eqb c "/" then "_"%char else c.
Definition urlsafe_decode_translation (c : ascii) : ascii :=
  if Ascii.eqb c "-" then "+"%char
  else if Ascii.eqb c "_" then "/"%char else c.

Definition b2a (s : sextet) : ascii :=
  default "A"%char (String.get (sextet_value s) table_b2a_base64).

Fixpoint find_char (c : ascii) (table : string) (i : nat) : option nat :=
  match table with
  | EmptyString => None
  | String c' rest => if Ascii.eqb c c' then Some i else find_char c rest (S i)
  end.

(** [table_a2b_base64]: the value of a character of the alphabet. *)
Definition a2b (c : ascii) : option sextet :=
  sextet_of_nat <$> find_char c table_b2a_base64 0.

(** [binascii.b2a_base64(data, newline=False)]: three bytes give four
    characters; a last group of one or two bytes is filled with zero bits
    and padded with [=]. *)
Fixpoint b2a_base64 (data : string) : string :=
  match data with
  | EmptyString => EmptyString
  | String (Ascii a0 a1 a2 a3 a4 a5 a6 a7) EmptyString =>
      String (b2a (Sextet a7 a6 a5 a4 a3 a2))
        (String (b2a (Sextet a1 a0 false false false false)) "==")
  | String (Ascii a0 a1 a2 a3 a4 a5 a6 a7)
      (String (Ascii b0 b1 b2 b3 b4 b5 b6 b7) EmptyString) =>
      String (b2a (Sextet a7 a6 a5 a4 a3 a2))
        (String (b2a (Sextet a1 a0 b7 b6 b5 b4))
           (String (b2a (Sextet b3 b2 b1 b0 false false)) "="))
  | String (Ascii a0 a1 a2 a3 a4 a5 a6 a7)
      (String (Ascii b0 b1 b2 b3 b4 b5 b6 b7)
         (String (Ascii c0 c1 c2 c3 c4 c5 c6 c7) rest)) =>
      String (b2a (Sextet a7 a6 a5 a4 a3 a2))
        (String (b2a (Sextet a1 a0 b7 b6 b5 b4))
           (String (b2a (Sextet b3 b2 b1 b0 c7 c6))
              (String (b2a (Sextet c5 c4 c3 c2 c1 c0)) (b2a_base64 rest))))
  end.

(** [base64.urlsafe_b64encode(s)] *)
Definition urlsafe_b64encode (s : string) : string :=
  smap urlsafe_encode_translation (b2a_base64 s).

(** The loop of [binascii.a2b_base64] in its default, non-strict mode.
    [quad_pos] counts the characters of the current group of four,
    [leftchar] is the previous character's value, of which the loop keeps
    the bits not yet written, and [pads] counts the [=] seen since the
    last character of the alphabet.  Characters outside the alphabet are
    skipped; enough padding after two or three characters ends the
    input; input that ends inside a group is an error. *)
Fixpoint a2b_loop (ascii_data : string) (quad_pos : nat) (leftchar : sextet)
    (pads : nat) (bin_data : string) : result string :=
  match ascii_data with
  | EmptyString =>
      if (quad_pos =? 0)%nat then Ok bin_data else Raise ValueError
  | String this_ch rest =>
      if Ascii.eqb this_ch "=" then
        if (2 <=? quad_pos)%nat then
          if (4 <=? quad_pos + S pads)%nat then Ok bin_data
          else a2b_loop rest quad_pos leftchar (S pads) bin_data
        else a2b_loop rest quad_pos leftchar pads bin_data
      else
        match a2b this_ch with
        | None => a2b_loop rest quad_pos leftchar pads bin_data
        | Some (Sextet t5 t4 t3 t2 t1 t0 as this) =>
            let 'Sextet l5 l4 l3 l2 l1 l0 := leftchar in
            match quad_pos with
            | 0%nat => a2b_loop rest 1 this 0 bin_data
            | 1%nat =>
                a2b_loop rest 2 this 0
                  (bin_data ++ String (Ascii t4 t5 l0 l1 l2 l3 l4 l5) "")
            | 2%nat =>
                a2b_loop rest 3 this 0
                  (bin_data ++ String (Ascii t2 t3 t4 t5 l0 l1 l2 l3) "")
            | _ =>
                a2b_loop rest 0 (Sextet false false false false false false) 0
                  (bin_data ++ String (Ascii t0 t1 t2 t3 t4 t5 l0 l1) "")
            end
        end
  end.

Definition a2b_base64 (data : string) : result string :=
  a2b_loop data 0 (Sextet false false false false false false) 0 "".

(** [base64.urlsafe_b64decode(s)] of a [bytes] argument *)
Definition urlsafe_b64decode (s : string) : result string :=
  a2b_base64 (smap urlsafe_decode_translation s).

(** ** UTF-8 *)

Definition in_range (lo hi : nat) (c : ascii) : bool :=
  ((lo <=? nat_of_ascii c) && (nat_of_ascii c <=? hi))%nat.

(** A continuation byte, 80 to BF. *)
Definition is_continuation (c : ascii) : bool := in_range 128 191 c.

(** The well-formed byte sequences of the strict UTF-8 codec: no overlong
    form, no surrogate, nothing above U+10FFFF. *)
Fixpoint utf8_valid (b : string) : bool :=
  match b with
  | EmptyString => true
  | String c0 r0 =>
      if in_range 0 127 c0 then utf8_valid r0
      else
        match r0 with
        | EmptyString => false
        | String c1 r1 =>
            if in_range 194 223 c0 then is_continuation c1 && utf8_valid r1
            else
              match r1 with
              | EmptyString => false
              | String c2 r2 =>
                  if in_range 224 239 c0 then
                    (if in_range 224 224 c0 then in_range 160 191 c1
                     else if in_range 237 237 c0 then in_range 128 159 c1
                     else is_continuation c1)
                    && is_continuation c2 && utf8_valid r2
                  else
                    match r2 with
                    | EmptyString => false
                    | String c3 r3 =>
                        in_range 240 244 c0
                        && (if in_range 240 240 c0 then in_range 144 191 c1
                            else if in_range 244 244 c0 then in_range 128 143 c1
                            else is_continuation c1)
                        && is_continuation c2 && is_continuation c3
                        && utf8_valid r3
                    end
              end
        end
  end.

(** [b.decode()] *)
Definition decode (b : string) : result string :=
  if utf8_valid b then Ok b else Raise ValueError.

(** [len(s)]: the number of code points. *)
Fixpoint len (s : string) : nat :=
  match s with
  | EmptyString => 0
  | String c r => if is_continuation c then len r else S (len r)
  end.

(** [s.rstrip(chars)] for a one-character [chars] *)
Fixpoint rstrip_char (c : ascii) (s : string) : string :=
  match s with
  | EmptyString => EmptyString
  | String c' r =>
      match rstrip_char c r with
      | EmptyString => if Ascii.eqb c' c then EmptyString else String c' EmptyString
      | r' => String c' r'
      end
  end.

(** [c * n] *)
Definition times (c : ascii) (n : Z) : string :=
  string_of_list_ascii (replicate (Z.to_nat n) c).

(** ** The functions of the module *)

(** What a handler gives: a value, or [raise HTTPException(...)]. *)
Inductive response (A : Type) : Type :=
  | Return (a : A)
  | HTTPException (status_code : Z) (detail : string).
Arguments Return {A} a.
Arguments HTTPException {A} status_code detail.

Definition encode_url (url : string) : string :=
  rstrip_char "=" (urlsafe_b64encode url).

Definition decode_url (encoded : string) : response string :=
  let padding := (4 - Z.of_nat (len encoded) mod 4)%Z in
  let encoded :=
    if bool_decide (padding <> 4%Z) then encoded ++ times "=" padding else encoded in
  match urlsafe_b64decode encoded ≫= decode with
  | Ok url => Return url
  | Raise _ => HTTPException 400 "Invalid encoded URL"
  end.

(** [bool(n)] for an optional [int] *)
Definition truthy_int (n : option Z) : bool :=
  match n with Some z => negb (z =? 0)%Z | None => false end.

Definition get_cache_key (encoded_url : string) (width height : option Z) : string :=
  let size_suffix :=
    if truthy_int width && truthy_int height
    then "_" ++ str (default 0%Z width) ++ "x" ++ str (default 0%Z height)
    else "" in
  "media:img:" ++ encoded_url ++ size_suffix.

End Media.

(* ===================================================================== *)
(** * The ad endpoints (routers/ad.py)                                    *)
(* ===================================================================== *)

Module AdRouter.

(** Standard ad dimensions that blockers target. *)
Definition STANDARD_AD_SIZES : list (Z * Z) :=
  [ (300, 250); (728, 90); (160, 600); (300, 600);
    (320, 50); (320, 100); (468, 60); (336, 280);
    (970, 90); (970, 250); (300, 50); (320, 480) ]%Z.

Definition PROXY_CACHE_VERSION : Z := 2.

(** [urlparse(url).scheme]: the text before the first [:], lower-cased,
    when it starts with a letter and is made of scheme characters; this
    is the scheme that [urlparse_netloc] splits off. *)
Definition urlparse_scheme (url : string) : string :=
  let url := lstrip_c0 url in
  let url :=
    sfilter (fun c => negb (Ascii.eqb c "009" || Ascii.eqb c "013" || Ascii.eqb c "010")) url in
  match partition (Ascii.eqb ":") url with
  | (String c0 pre, Some rest) =>
      if is_alpha c0 && sall is_scheme_char (String c0 pre) then lower (String c0 pre)
      else ""
  | _ => ""
  end.

(** [_get_page_url_from_referer(request)], given the setting
    [ad_serving.use_referer_for_targeting] and the two headers that the
    function reads. *)
Definition _get_page_url_from_referer (env : Env) (use_referer_for_targeting : bool)
    (referer_header referrer_header : option string) : option string :=
  if negb use_referer_for_targeting then None
  else
    let referer := if truthy_str referer_header then referer_header else referrer_header in
    if negb (truthy_str referer) then None
    else
      match urlparse_netloc env (default "" referer) with
      | Ok netloc =>
          let scheme := urlparse_scheme (default "" referer) in
          if (String.eqb scheme "http" || String.eqb scheme "https")
             && negb (String.eqb netloc "")
          then referer else None
      | Raise _ => None
      end.

(** [(width, height) in STANDARD_AD_SIZES] *)
Definition is_standard (width height : Z) : bool :=
  bool_decide ((width, height) ∈ STANDARD_AD_SIZES).

Definition _get_proxied_image_url (base_url : string) (image_url : option string)
    (width height : option Z) : option string :=
  if negb (truthy_str image_url) then None
  else
    let encoded := Media.encode_url (default "" image_url) in
    if Media.truthy_int width && Media.truthy_int height
       && is_standard (default 0%Z width) (default 0%Z height)
    then
      let new_width := (default 0 width - 1)%Z in
      let new_height := (default 0 height - 1)%Z in
      Some (base_url ++ "/res/" ++ encoded ++ "?w=" ++ str new_width
              ++ "&h=" ++ str new_height ++ "&v=" ++ str PROXY_CACHE_VERSION)
    else
      Some (base_url ++ "/res/" ++ encoded ++ "?v=" ++ str PROXY_CACHE_VERSION).

(** [types.get(creative_type, "banner")] *)
Definition _get_creative_type_name (creative_type : Z) : string :=
  if (creative_type =? 1)%Z then "banner"
  else if (creative_type =? 2)%Z then "native"
  else if (creative_type =? 3)%Z then "video"
  else if (creative_type =? 4)%Z then "interstitial"
  else "banner".

Record RedirectResponse : Type := {
  url : string;
  status_code : Z;
}.

(** The rows of [select(Creative).where(Creative.id == id)]: every
    creative belongs to one campaign. *)
Definition creative_rows (st : State) (id : Z) : list Creative :=
  filter (fun creative => creative_id creative = id)
    ((map_to_list (campaigns st)).*2 ≫= creatives).

(** [result.scalar_one_or_none()]: more than one row is an error. *)
Definition scalar_one_or_none {A} (rows : list A) : result (option A) :=
  match rows with
  | [] => Ok None
  | [row] => Ok (Some row)
  | _ => Raise StoreError
  end.

(** The [try] block of [click_through]: the landing URL of the creative
    named by the second of exactly two pieces of the ad identifier, when
    there is one. *)
Definition landing_of (st : State) (i : string) : result (option string) :=
  match split "_" i with
  | [campaign_id; creative_id] =>
      id ← int creative_id;
      creative ← scalar_one_or_none (creative_rows st id);
      match creative with
      | Some creative =>
          if truthy_str (landing_url creative) then Ok (landing_url creative)
          else Ok None
      | None => Ok None
      end
  | _ => Raise ValueError
  end.

(** [GET /go]: [click_through(request, r, i)].  [db_commits] tells whether
    [session.commit()] succeeds; its exception is not caught. *)
Definition click_through (db_commits : State -> bool) (env : Env) (st : State)
    (r i : string) : result (RedirectResponse * State) :=
  let '(_, st) := track_event env st r i "click" None None in
  if negb (db_commits st) then Raise StoreError
  else
    match landing_of st i with
    | Ok (Some landing) => Ok ({| url := landing; status_code := 302 |}, st)
    | Ok None | Raise _ => Ok ({| url := "/"; status_code := 302 |}, st)
    end.

End AdRouter.

(* ===================================================================== *)
(** * Configuration (common/config.py)                                    *)
(* ===================================================================== *)

Module Config.

(** [d[k] = v] on a dict held as the list of its items: an existing key
    keeps its place, a new key goes to the end. *)
Fixpoint setitem (k : string) (v : pyval) (d : list (string * pyval))
    : list (string * pyval) :=
  match d with
  | [] => [(k, v)]
  | (k', v') :: rest =>
      if String.eqb k' k then (k', v) :: rest else (k', v') :: setitem k v rest
  end.

(** What [merge_configs] stores under a key: the merge of the two values
    when the key is present and both are dicts, the overriding value
    otherwise. *)
Fixpoint merged_value (current : option pyval) (value : pyval) {struct value} : pyval :=
  match current, value with
  | Some (PDict base), PDict override =>
      PDict
        ((fix loop (items result : list (string * pyval)) {struct items} :=
            match items with
            | [] => result
            | item :: rest =>
                loop rest
                  (setitem item.1 (merged_value (assoc item.1 result) item.2) result)
            end) override base)
  | _, _ => value
  end.

(** [merge_configs(base, override)] on the items of the two dicts *)
Definition merge_configs (base override : list (string * pyval))
    : list (string * pyval) :=
  fold_left
    (fun result item =>
       setitem item.1 (merged_value (assoc item.1 result) item.2) result)
    override base.

End Config.

(* ===================================================================== *)
(** * The specification's wording, for comparison with the code           *)
(* ===================================================================== *)

Module Spec.

(** "recognized aliases: impression/imp/v, click/clk/c, conversion/conv/x
    -- case-insensitive" *)
Definition impression_aliases : list string := ["impression"; "imp"; "v"].
Definition click_aliases : list string := ["click"; "clk"; "c"].
Definition conversion_aliases : list string := ["conversion"; "conv"; "x"].

Definition recognize (event_type : string) : option EventType :=
  let s := lower event_type in
  if mem s impression_aliases then Some IMPRESSION
  else if mem s click_aliases then Some CLICK
  else if mem s conversion_aliases then Some CONVERSION
  else None.

(** "ad_id parsing accepts two encodings -- "{campaign}_{creative}" and
    legacy "ad_{campaign}_{creative}"", the identifiers printed as
    integers. *)
Definition new_encoding (ad_id : string) : Prop :=
  exists campaign creative : Z, ad_id = str campaign ++ "_" ++ str creative.
Definition legacy_encoding (ad_id : string) : Prop :=
  exists campaign creative : Z,
    ad_id = "ad_" ++ str campaign ++ "_" ++ str creative.

(** "CPM/OCPM on impression = bid_amount/1000; CPC on click = bid_amount;
    CPA on conversion = bid_amount; all other combinations cost zero" *)
Definition cost_of (bid_type : Z) (event_type : EventType) (bid_amount : Q) : Q :=
  if bool_decide (bid_type = BidType.CPM \/ bid_type = BidType.OCPM) then
    match event_type with IMPRESSION => (bid_amount / 1000)%Q | _ => 0%Q end
  else if bool_decide (bid_type = BidType.CPC) then
    match event_type with CLICK => bid_amount | _ => 0%Q end
  else if bool_decide (bid_type = BidType.CPA) then
    match event_type with CONVERSION => bid_amount | _ => 0%Q end
  else 0%Q.

(** "rule_type (age/gender/geo/device/os/interest/app_category)" *)
Definition rule_types : list string :=
  ["age"; "gender"; "geo"; "device"; "os"; "interest"; "app_category"].

(** "requiring exact or subdomain match against the campaign's allowed
    domain set" *)
Definition domain_matches (page_domain entry : string) : bool :=
  String.eqb page_domain entry || endswith page_domain ("." ++ entry).

(** An entry of the allowed set as it is compared: lower-cased, trimmed,
    without a leading www. *)
Definition clean_entry (entry : string) : string :=
  strip_www (strip (lower entry)).

(** The text after the last character that satisfies [p], the whole
    text when there is none: [s.rpartition(c)[2]]. *)
Fixpoint after_last (p : ascii -> bool) (s : string) : string :=
  match s with
  | EmptyString => EmptyString
  | String c r =>
      if negb (sall (fun d => negb (p d)) r) then after_last p r
      else if p c then r
      else s
  end.

(** The host of a network location [user:password@host:port]: what
    follows the last [@], up to the first [:]; for a bracketed address
    literal, the text between the brackets. *)
Definition host (netloc : string) : string :=
  let hostinfo := after_last (Ascii.eqb "@") netloc in
  match partition (Ascii.eqb "[") hostinfo with
  | (_, Some bracketed) => (partition (Ascii.eqb "]") bracketed).1
  | (_, None) => (partition (Ascii.eqb ":") hostinfo).1
  end.

(** "lowercase host, strip a leading www., keep the last two label
    components" *)
Definition registrable_domain (host : string) : string :=
  join "." (last_n 2 (split "." (strip_www (lower host)))).

(** Retrieval, step 3: "emit one candidate per active creative whose
    dimensions either match the slot's parsed dimensions exactly or whose
    slot has no dimension constraint or whose creative has no dimensions
    recorded". *)
Definition candidates_of (slot_dimensions : option (Z * Z))
    (campaign_data : CampaignData) : list AdCandidate :=
  (fun creative_data =>
     candidate campaign_data creative_data
       (default false (cd_is_house_ad campaign_data)))
  <$> filter (fun creative_data =>
                _creative_matches_slot creative_data slot_dimensions = true)
        (cd_creatives campaign_data).

(** Step 2: the campaign survives rule, page and domain targeting. *)
Definition passes (env : Env) (user_context : UserContext)
    (page_url : option string) (campaign_data : CampaignData) : bool :=
  match campaign_matches env user_context page_url campaign_data with
  | Ok b => b
  | Raise _ => false
  end.

(** Steps 2 and 3 over the cached campaigns: the candidates of every
    campaign that passes the targeting checks, in order. *)
Definition all_candidates (env : Env) (user_context : UserContext)
    (page_url : option string) (slot_dimensions : option (Z * Z))
    (campaigns : list CampaignData) : list AdCandidate :=
  campaign_data ← filter (fun campaign_data =>
                            passes env user_context page_url campaign_data = true)
                    campaigns;
  candidates_of slot_dimensions campaign_data.

(** Step 4: "partition candidates into paid vs. house-ad buckets;
    truncate each bucket at limit". *)
Definition paid_bucket (limit : Z) (candidates : list AdCandidate) : list AdCandidate :=
  take (Z.to_nat limit) (filter (fun c => ac_is_house_ad c = false) candidates).
Definition house_bucket (limit : Z) (candidates : list AdCandidate) : list AdCandidate :=
  take (Z.to_nat limit) (filter (fun c => ac_is_house_ad c = true) candidates).

(** The buckets once the candidates [seen] have been distributed. *)
Definition extend (b : buckets) (seen : list AdCandidate) : buckets :=
  ((b.1 ++ filter (fun c => ac_is_house_ad c = false) seen)%list,
   (b.2 ++ filter (fun c => ac_is_house_ad c = true) seen)%list).

(** Step 5: "return paid candidates if any exist; otherwise return house
    candidates; otherwise empty". *)
Definition fallback (paid house : list AdCandidate) : list AdCandidate :=
  match paid with
  | [] => house
  | _ :: _ => paid
  end.

(** The amount that a nullable spend column stands for. *)
Definition amount (x : option Q) : Q := default 0%Q x.

(** The four frequency maps of the counter store. *)
Definition frequency_counters (st : State) :=
  (freq_daily (redis st), freq_daily_ttl (redis st),
   freq_hourly (redis st), freq_hourly_ttl (redis st)).

End Spec.

(* ===================================================================== *)
(** * Concrete surroundings used by the examples                          *)
(* ===================================================================== *)

Module Sample.

(** A store that accepts every event, a clock, and library functions
    that decode nothing and match nothing. *)
Definition env : Env :=
  {| current_timestamp := 1700000000;
     current_date := "2023-11-14";
     current_hour := "2023-11-14-22";
     db_accepts := fun _ => true;
     campaign_is_active := fun c => bool_decide (status c = ACTIVE);
     json_loads := fun _ => Raise ValueError;
     fnmatch := fun _ _ => false;
     bracketed_host_ok := fun _ => true |}.

Definition banner : Creative :=
  {| creative_id := 3; title := Some "Banner"; description := None;
     image_url := Some "https://cdn.example.com/b.png"; video_url := None;
     landing_url := Some "https://shop.example.com/"; creative_type := 1;
     width := Some 300%Z; height := Some 250%Z; creative_status := ACTIVE |}.

(** Campaign 5 of the end-to-end example: CPM, bid 2.00, no targeting. *)
Definition cpm_campaign : Campaign :=
  {| advertiser_id := 1; name := "spring"; status := ACTIVE;
     bid_type := BidType.CPM; bid_amount := 2%Q; priority_boost := None;
     budget_daily := None; budget_total := None;
     spent_today := Some 0%Q; spent_total := Some 0%Q;
     freq_cap_daily := None; freq_cap_hourly := None;
     is_house_ad := Some false; page_targeting := PNone; target_domains := PNone;
     creatives := [banner]; targeting_rules := [] |}.

Definition empty_redis : Redis :=
  {| active_ads := None;
     stat_hourly := ∅; stat_hourly_ttl := ∅;
     freq_daily := ∅; freq_daily_ttl := ∅;
     freq_hourly := ∅; freq_hourly_ttl := ∅ |}.

Definition st : State :=
  {| campaigns := {[ 5%Z := cpm_campaign ]}; events := []; redis := empty_redis |}.

(** No campaign at all. *)
Definition empty_st : State :=
  {| campaigns := ∅; events := []; redis := empty_redis |}.

(** A request that says nothing about the user. *)
Definition anyone : UserContext :=
  {| age := None; gender := None; country := None; city := None;
     device_model := None; os := None; interests := [];
     app_categories := []; uc_page_url := None |}.

(** The snapshot that the first lookup builds from [st]. *)
Definition snapshot : list CampaignData :=
  match _get_active_campaigns env st with
  | Ok (campaign_list, _) => campaign_list
  | Raise _ => []
  end.

(** The state after an impression of ad ["5_3"] by an anonymous user. *)
Definition tracked : State :=
  (track_event env st "req-1" "5_3" "v" None None).2.

End Sample.

(* ===================================================================== *)
(** * Observations on states and values, used to state properties         *)
(* ===================================================================== *)

Module Observed.

(** [HGET] of one field of the hourly stat hash, 0 when absent. *)
Definition stat_count (st : State) (campaign : Z) (hour field : string) : Z :=
  default 0%Z (stat_hourly (redis st) !! (campaign, hour) ≫= fun h => h !! field).

(** The hash field that [_update_stats] increments for an event type. *)
Definition stat_field (ty : EventType) : string :=
  match ty with
  | IMPRESSION => "impressions"
  | CLICK => "clicks"
  | CONVERSION => "conversions"
  end.

(** A campaign row with its two spend columns blanked. *)
Definition clear_spend (c : Campaign) : Campaign :=
  {| advertiser_id := advertiser_id c; name := name c; status := status c;
     bid_type := bid_type c; bid_amount := bid_amount c;
     priority_boost := priority_boost c; budget_daily := budget_daily c;
     budget_total := budget_total c; spent_today := None; spent_total := None;
     freq_cap_daily := freq_cap_daily c; freq_cap_hourly := freq_cap_hourly c;
     is_house_ad := is_house_ad c; page_targeting := page_targeting c;
     target_domains := target_domains c; creatives := creatives c;
     targeting_rules := targeting_rules c |}.

(** A candidate that the campaign list can give rise to: a creative that
    fits the slot, of a campaign that passed the three targeting checks. *)
Definition eligible (env : Env) (user_context : UserContext)
    (page_url : option string) (slot_dimensions : option (Z * Z))
    (campaigns : list CampaignData) (c : AdCandidate) : Prop :=
  exists campaign_data creative_data,
    campaign_data ∈ campaigns
    /\ campaign_matches env user_context page_url campaign_data = Ok true
    /\ creative_data ∈ cd_creatives campaign_data
    /\ _creative_matches_slot creative_data slot_dimensions = true
    /\ c = candidate campaign_data creative_data
             (default false (cd_is_house_ad campaign_data)).

(** A request that carries no usable user attribute: absent age and
    gender, absent or empty country, city, device model and operating
    system, no interests and no app categories. *)
Definition anonymous (user_context : UserContext) : Prop :=
  age user_context = None
  /\ gender user_context = None
  /\ truthy_str (country user_context) = false
  /\ truthy_str (city user_context) = false
  /\ truthy_str (device_model user_context) = false
  /\ truthy_str (os user_context) = false
  /\ interests user_context = []
  /\ app_categories user_context = [].

(** An ASCII character that is not a digit. *)
Definition is_plain (c : ascii) : bool :=
  (nat_of_ascii c <? 128)%nat && negb (is_digit c).

(** The number of dot-separated labels of a host name. *)
Definition labels (host : string) : nat := length (split "." host).

(** The characters that [encode_url] writes: letters, digits, [-], [_]. *)
Definition is_urlsafe (c : ascii) : bool :=
  is_alpha c || is_digit c || Ascii.eqb c "-" || Ascii.eqb c "_".

End Observed.

(* ===================================================================== *)
(** * More concrete surroundings                                          *)
(* ===================================================================== *)

Module Fixture.

(** A campaign that targets women, excludes tablets, and is restricted to
    two sites and to article pages outside the archive. *)
Definition targeted : CampaignData :=
  {| cd_id := 7; cd_advertiser_id := 1; cd_name := "autumn";
     cd_bid_type := BidType.CPC; cd_bid_amount := 1%Q; cd_priority_boost := 1%Q;
     cd_budget_daily := None; cd_budget_total := None;
     cd_spent_today := 0%Q; cd_spent_total := 0%Q;
     cd_freq_cap_daily := None; cd_freq_cap_hourly := None;
     cd_is_house_ad := Some false;
     cd_page_targeting :=
       PDict [("include", PList [PStr "*/articles/*"]);
              ("exclude", PList [PStr "*/archive/*"])];
     cd_target_domains := PList [PStr "news.example.co.uk"; PStr "www.blog.example.com"];
     cd_creatives := [];
     cd_targeting_rules :=
       [ {| rule_type := "gender"; rule_value := PDict [("values", PList [PStr "F"])];
            is_include := true |};
         {| rule_type := "device"; rule_value := PDict [("types", PList [PStr "tablet"])];
            is_include := false |} ] |}.

(** A campaign that has never been billed: both spend columns are null. *)
Definition unbilled : Campaign :=
  {| advertiser_id := 1; name := "winter"; status := ACTIVE;
     bid_type := BidType.CPM; bid_amount := 2%Q; priority_boost := None;
     budget_daily := None; budget_total := None;
     spent_today := None; spent_total := None;
     freq_cap_daily := None; freq_cap_hourly := None;
     is_house_ad := Some false; page_targeting := PNone; target_domains := PNone;
     creatives := [Sample.banner]; targeting_rules := [] |}.

Definition unbilled_st : State :=
  {| campaigns := {[ 9%Z := unbilled ]}; events := []; redis := Sample.empty_redis |}.

(** [fnmatch.fnmatch(name, pat)] for patterns made of literal characters,
    [*] (any run of characters) and [?] (any one character), where
    [os.path.normcase] changes nothing; bracket expressions are left
    out. *)
Fixpoint glob (pat : string) : string -> bool :=
  match pat with
  | EmptyString => fun name => String.eqb name ""
  | String c rest =>
      if Ascii.eqb c "*" then
        fix star (name : string) : bool :=
          glob rest name
          || match name with
             | EmptyString => false
             | String _ r => star r
             end
      else
        fun name =>
          match name with
          | EmptyString => false
          | String d r => (Ascii.eqb c "?" || Ascii.eqb c d) && glob rest r
          end
  end.

(** The surroundings of [Sample.env], with patterns that match. *)
Definition matching_env : Env :=
  {| current_timestamp := current_timestamp Sample.env;
     current_date := current_date Sample.env;
     current_hour := current_hour Sample.env;
     db_accepts := db_accepts Sample.env;
     campaign_is_active := campaign_is_active Sample.env;
     json_loads := json_loads Sample.env;
     fnmatch := fun name pat => glob pat name;
     bracketed_host_ok := bracketed_host_ok Sample.env |}.

(** A 300x250 creative of a cached snapshot. *)
Definition sized (id : Z) : CreativeData :=
  {| cr_id := id; cr_title := Some "Banner"; cr_description := None;
     cr_image_url := Some "https://cdn.example.com/b.png"; cr_video_url := None;
     cr_landing_url := Some "https://shop.example.com/"; cr_creative_type := 1;
     cr_width := Some 300%Z; cr_height := Some 250%Z |}.

(** A cached campaign without targeting, with the given creatives. *)
Definition untargeted (id : Z) (is_house_ad : bool) (creatives : list CreativeData)
    : CampaignData :=
  {| cd_id := id; cd_advertiser_id := 1; cd_name := "summer";
     cd_bid_type := BidType.CPM; cd_bid_amount := 2%Q; cd_priority_boost := 1%Q;
     cd_budget_daily := None; cd_budget_total := None;
     cd_spent_today := 0%Q; cd_spent_total := 0%Q;
     cd_freq_cap_daily := None; cd_freq_cap_hourly := None;
     cd_is_house_ad := Some is_house_ad;
     cd_page_targeting := PNone; cd_target_domains := PNone;
     cd_creatives := creatives; cd_targeting_rules := [] |}.

(** A paying campaign with three creatives and a house campaign with
    two. *)
Definition paid_data : CampaignData := untargeted 5 false [sized 3; sized 4; sized 6].
Definition house_data : CampaignData := untargeted 8 true [sized 1; sized 2].

(** A store whose cache lists the given campaigns. *)
Definition cached_st (campaign_list : list CampaignData) : State :=
  set_active_ads Sample.empty_st campaign_list _cache_ttl.

End Fixture.

(* ===================================================================== *)
(** * Facts about the Python primitives                                   *)
(* ===================================================================== *)

(** Case analysis on the eight bits of a character. *)
Ltac ascii_cases c := destruct c as [[|] [|] [|] [|] [|] [|] [|] [|]].

Example split_demo :
  split "_" "ad_5_3" = ["ad"; "5"; "3"] /\ split "." "" = [""]
  /\ split "_" "5_" = ["5"; ""].
Proof. repeat split; reflexivity. Qed.

Example int_demo :
  int " -007 " = Ok (-7)%Z /\ int "5x" = Raise ValueError
  /\ int "" = Raise ValueError /\ int "+-5" = Raise ValueError.
Proof. repeat split; reflexivity. Qed.

Example str_demo : str 0 = "0" /\ str (-12) = "-12" /\ str 305 = "305".
Proof. repeat split; reflexivity. Qed.

(** A slice bound below zero drops elements from the end. *)
Example slice_to_demo :
  slice_to [1; 2; 3]%Z 2 = [1; 2]%Z /\ slice_to [1; 2; 3]%Z 0 = []
  /\ slice_to [1; 2; 3]%Z 7 = [1; 2; 3]%Z /\ slice_to [1; 2; 3]%Z (-1) = [1; 2]%Z.
Proof. repeat split; reflexivity. Qed.

Lemma is_digit_not_space c : is_digit c = true -> is_space c = false.
Proof.
  ascii_cases c; vm_compute; congruence.
Qed.

(** The digits that [str] prints. *)
Lemma string_of_uint_digits d : sall is_digit (NilEmpty.string_of_uint d) = true.
Proof. induction d; simpl; auto. Qed.

Lemma string_of_uint_nonempty d :
  d <> Decimal.Nil -> NilEmpty.string_of_uint d <> EmptyString.
Proof. destruct d; simpl; congruence. Qed.

Lemma lstrip_id c r : is_space c = false -> lstrip (String c r) = String c r.
Proof. intros H. simpl. by rewrite H. Qed.

(** [rstrip] keeps a text whose characters are all non-blank. *)
Lemma rstrip_id s : sall (fun c => negb (is_space c)) s = true -> rstrip s = s.
Proof.
  induction s as [|c r IH]; simpl; [done|].
  intros [Hc Hr]%andb_prop. rewrite (IH Hr).
  destruct r; [|done].
  by destruct (is_space c).
Qed.

Lemma strip_id s : sall (fun c => negb (is_space c)) s = true -> strip s = s.
Proof.
  intros H. unfold strip.
  destruct s as [|c r]; [done|].
  simpl in H. apply andb_prop in H as [Hc Hr].
  rewrite lstrip_id by (by destruct (is_space c)).
  apply rstrip_id. simpl. by rewrite Hc, Hr.
Qed.

Lemma sall_impl (p q : ascii -> bool) s :
  (forall c, p c = true -> q c = true) -> sall p s = true -> sall q s = true.
Proof.
  intros Hpq. induction s as [|c r IH]; simpl; [done|].
  intros [Hc Hr]%andb_prop. by rewrite (Hpq _ Hc), (IH Hr).
Qed.

Lemma digits_not_blank s :
  sall is_digit s = true -> sall (fun c => negb (is_space c)) s = true.
Proof.
  apply sall_impl. intros c Hc. by rewrite (is_digit_not_space _ Hc).
Qed.

(** [int] reads a non-empty run of digits as the number it spells. *)
Lemma int_digits d :
  d <> Decimal.Nil ->
  int (NilEmpty.string_of_uint d) = Ok (Z.of_N (N.of_uint d)).
Proof.
  intros Hd. unfold int.
  rewrite strip_id by (apply digits_not_blank, string_of_uint_digits).
  pose proof (string_of_uint_digits d) as Hall.
  pose proof (NilEmpty.usu d) as Husu.
  destruct (NilEmpty.string_of_uint d) as [|c r] eqn:E.
  { by apply string_of_uint_nonempty in E. }
  simpl in Hall. apply andb_prop in Hall as [Hc _].
  assert (NilZero.uint_of_string (String c r) = Some d) as Hparse by exact Husu.
  ascii_cases c; try discriminate Hc;
    by rewrite Hparse.
Qed.

Lemma int_str_pos p : int (str (Z.pos p)) = Ok (Z.pos p).
Proof.
  unfold str. simpl.
  assert (Pos.to_uint p <> Decimal.Nil) as Hn by apply Unsigned.to_uint_nonnil.
  replace (NilZero.string_of_uint (Pos.to_uint p))
    with (NilEmpty.string_of_uint (Pos.to_uint p))
    by (by destruct (Pos.to_uint p)).
  rewrite int_digits by done.
  by rewrite DecimalPos.Unsigned.of_to.
Qed.

Lemma int_str_neg p : int (str (Z.neg p)) = Ok (Z.neg p).
Proof.
  unfold str. simpl.
  assert (Pos.to_uint p <> Decimal.Nil) as Hn by apply Unsigned.to_uint_nonnil.
  replace (NilZero.string_of_uint (Pos.to_uint p))
    with (NilEmpty.string_of_uint (Pos.to_uint p))
    by (by destruct (Pos.to_uint p)).
  unfold int.
  rewrite strip_id.
  - assert (NilZero.uint_of_string (NilEmpty.string_of_uint (Pos.to_uint p))
            = Some (Pos.to_uint p)) as ->.
    { pose proof (NilEmpty.usu (Pos.to_uint p)) as Husu.
      destruct (NilEmpty.string_of_uint (Pos.to_uint p)) eqn:E; [|exact Husu].
      by apply string_of_uint_nonempty in E. }
    by rewrite DecimalPos.Unsigned.of_to.
  - simpl. apply digits_not_blank, string_of_uint_digits.
Qed.

(** [int(str(n)) == n] *)
Lemma int_str z : int (str z) = Ok z.
Proof.
  destruct z as [|p|p]; [reflexivity | apply int_str_pos | apply int_str_neg].
Qed.

(** The characters of [str n] are digits, after an optional minus sign. *)
Lemma str_chars z :
  sall (fun c => is_digit c || Ascii.eqb c "-") (str z) = true.
Proof.
  assert (forall d, sall (fun c => is_digit c || Ascii.eqb c "-")
                      (NilZero.string_of_uint d) = true) as Hu.
  { intros d. apply sall_impl with (p := is_digit).
    - intros c ->. done.
    - destruct d; try apply string_of_uint_digits. reflexivity. }
  destruct z as [|p|p]; unfold str; simpl; [reflexivity | apply Hu |].
  apply Hu.
Qed.

(** A text without the separator is a single piece. *)
Lemma split_single sep s :
  sall (fun c => negb (Ascii.eqb c sep)) s = true -> split sep s = [s].
Proof.
  induction s as [|c r IH]; simpl; [done|].
  intros [Hc Hr]%andb_prop. apply negb_true_iff in Hc.
  by rewrite Hc, (IH Hr).
Qed.

(** Splitting cuts at the first separator. *)
Lemma split_app sep a b :
  sall (fun c => negb (Ascii.eqb c sep)) a = true ->
  split sep (a ++ String sep b) = a :: split sep b.
Proof.
  induction a as [|c r IH]; simpl.
  - intros _. by rewrite Ascii.eqb_refl.
  - intros [Hc Hr]%andb_prop. apply negb_true_iff in Hc.
    by rewrite Hc, (IH Hr).
Qed.

Lemma str_no_underscore z :
  sall (fun c => negb (Ascii.eqb c "_")) (str z) = true.
Proof.
  eapply sall_impl; [|apply str_chars].
  intros c Hc.
  ascii_cases c; try discriminate Hc; reflexivity.
Qed.

Lemma str_not_ad z : str z <> "ad".
Proof.
  intros E. pose proof (str_chars z) as H. rewrite E in H. discriminate H.
Qed.


(* ===================================================================== *)
(** * Properties of the event ledger                                      *)
(* ===================================================================== *)

Lemma split_new_encoding (campaign creative : Z) :
  split "_" (str campaign ++ "_" ++ str creative) = [str campaign; str creative].
Proof.
  change (str campaign ++ "_" ++ str creative)
    with (str campaign ++ String "_" (str creative)).
  rewrite split_app by apply str_no_underscore.
  by rewrite split_single by apply str_no_underscore.
Qed.

Lemma split_legacy_encoding (campaign creative : Z) :
  split "_" ("ad_" ++ str campaign ++ "_" ++ str creative)
  = ["ad"; str campaign; str creative].
Proof.
  change ("ad_" ++ str campaign ++ "_" ++ str creative)
    with ("ad" ++ String "_" (str campaign ++ "_" ++ str creative)).
  rewrite split_app by reflexivity.
  by rewrite split_new_encoding.
Qed.

(** C4.  Both encodings of an ad identifier parse to the same pair: for
    all integers [campaign] and [creative], the text
    ["{campaign}_{creative}"] and the legacy text
    ["ad_{campaign}_{creative}"] both give
    [(campaign, creative)]; the legacy form is recognised by its first
    piece being the literal ["ad"], which no printed integer is.  In
    particular ["5_3"] and ["ad_5_3"] both give campaign 5, creative 3. *)
Theorem parse_ad_id_both_encodings (campaign creative : Z) :
  _parse_ad_id (str campaign ++ "_" ++ str creative)
    = Ok (Some campaign, Some creative)
  /\ _parse_ad_id ("ad_" ++ str campaign ++ "_" ++ str creative)
    = Ok (Some campaign, Some creative)
  /\ split "_" (str campaign ++ "_" ++ str creative) !! 0%nat <> Some "ad"
  /\ _parse_ad_id "5_3" = Ok (Some 5%Z, Some 3%Z)
  /\ _parse_ad_id "ad_5_3" = Ok (Some 5%Z, Some 3%Z).
Proof.
  split; [|split; [|split; [|split; reflexivity]]].
  - unfold _parse_ad_id. rewrite split_new_encoding.
    cbn -[int str]. by rewrite !int_str.
  - unfold _parse_ad_id. rewrite split_legacy_encoding.
    cbn -[int str]. by rewrite !int_str.
  - rewrite split_new_encoding. cbn. intros [= E]. by apply str_not_ad in E.
Qed.

(** ** The parser never raises *)

Lemma int_raises s e : int s = Raise e -> e = ValueError.
Proof.
  unfold int.
  destruct (strip s) as [|c r]; simpl.
  - by intros [= <-].
  - ascii_cases c;
      repeat match goal with
        | |- context [match ?x with Some _ => _ | None => _ end] => destruct x
        end; by intros [= <-].
Qed.

Lemma index_raises {A} (l : list A) i e : index l i = Raise e -> e = IndexError.
Proof. unfold index. destruct (l !! i); by intros [= <-]. Qed.

Lemma parse_ad_id_total ad_id : exists ids, _parse_ad_id ad_id = Ok ids.
Proof.
  unfold _parse_ad_id.
  set (parts := split "_" ad_id).
  repeat match goal with
    | |- context [if ?b then _ else _] => destruct b
    | |- context [index ?l ?i] =>
        let E := fresh in
        destruct (index l i) eqn:E; [|apply index_raises in E; subst]; cbn
    | |- context [int ?s] =>
        let E := fresh in
        destruct (int s) eqn:E; [|apply int_raises in E; subst]; cbn
    end; eauto.
Qed.

(** ** Event types *)

Lemma get_event_type_recognize event_type :
  _get_event_type event_type = Spec.recognize event_type.
Proof.
  unfold _get_event_type, Spec.recognize, mapping,
    Spec.impression_aliases, Spec.click_aliases, Spec.conversion_aliases, mem.
  generalize (lower event_type). intros s. cbn [List.find existsb fst snd fmap].
  repeat match goal with
    | |- context [String.eqb ?a ?b] =>
        lazymatch a with
        | s => destruct (String.eqb_spec a b) as [->|]
        | _ => lazymatch b with
               | s => destruct (String.eqb_spec a b) as [<-|]
               end
        end; try reflexivity; try congruence
    end.
Qed.

(** C5.  The event types that [_get_event_type] recognises are exactly
    the case-insensitive aliases impression/imp/v, click/clk/c and
    conversion/conv/x, each mapped to its event type; for every other
    event-type text [track_event] returns false and leaves the whole
    state (events, campaign spend, stats and frequency counters) as it
    was. *)
Theorem unknown_event_type_rejected (env : Env) (st : State)
    (request_id ad_id event_type : string) (user_id : option string)
    (timestamp : option Z) :
  _get_event_type event_type = Spec.recognize event_type
  /\ (Spec.recognize event_type = None ->
      track_event env st request_id ad_id event_type user_id timestamp = (false, st)).
Proof.
  split; [apply get_event_type_recognize|].
  intros Hnone. rewrite <- get_event_type_recognize in Hnone.
  unfold track_event, track_event_body.
  destruct (parse_ad_id_total ad_id) as [[campaign creative] ->].
  cbn [mbind result_bind]. by rewrite Hnone.
Qed.

Lemma unknown_event_type_rejected_witness :
  Spec.recognize "IMP" = Some IMPRESSION
  /\ Spec.recognize "Clk" = Some CLICK
  /\ Spec.recognize "x" = Some CONVERSION
  /\ _get_event_type "view" = None
  /\ track_event Sample.env Sample.st "req-1" "5_3" "view" (Some "u1") None
     = (false, Sample.st).
Proof.
  do 3 (split; [reflexivity|]). split.
  - destruct (unknown_event_type_rejected Sample.env Sample.st
                "req-1" "5_3" "view" (Some "u1") None) as [-> _]. reflexivity.
  - apply (unknown_event_type_rejected Sample.env Sample.st
             "req-1" "5_3" "view" (Some "u1") None). reflexivity.
Defined.

(** ** Cost *)

(** C1.  The cost that [_calculate_cost] returns depends on the campaign
    only through (bid_type, bid_amount, house flag) and on the event only
    through its type: for a campaign that exists and is not a house ad it
    is the specification's table [Spec.cost_of] (CPM or OCPM on an
    impression: bid_amount/1000; CPC on a click: bid_amount; CPA on a
    conversion: bid_amount; every other pair: 0); for a house ad, for an
    unknown campaign and for an event without campaign it is 0. *)
Theorem cost_is_table_of_bid_and_event (st : State) (event_type : EventType)
    (campaign_id : option Z) :
  (_calculate_cost st event_type campaign_id).1 =
    match campaign_id ≫= (fun cid => campaigns st !! cid) with
    | Some campaign =>
        if house campaign then 0%Q
        else Spec.cost_of (bid_type campaign) event_type (bid_amount campaign)
    | None => 0%Q
    end.
Proof.
  unfold _calculate_cost.
  destruct campaign_id as [cid|]; [cbn|reflexivity].
  destruct (campaigns st !! cid) as [campaign|]; [|reflexivity].
  destruct (house campaign); [reflexivity|].
  match goal with
  | |- (if positive ?c then _ else _).1 = _ => destruct (positive c)
  end; cbn [fst]; unfold Spec.cost_of, BidType.CPM, BidType.OCPM, BidType.CPC, BidType.CPA;
    repeat case_bool_decide;
    repeat match goal with
      | |- context [(?a =? ?b)%Z] => destruct (Z.eqb_spec a b)
      end; cbn [orb];
    try (destruct event_type; reflexivity || congruence || lia); try lia;
    try (exfalso; intuition lia).
Qed.

(** The table on a bid of 2.00, and a bid type outside it. *)
Example cost_table :
  Spec.cost_of BidType.CPM IMPRESSION 2 = (2 / 1000)%Q
  /\ Spec.cost_of BidType.OCPM IMPRESSION 2 = (2 / 1000)%Q
  /\ Spec.cost_of BidType.CPC CLICK 2 = 2%Q
  /\ Spec.cost_of BidType.CPA CONVERSION 2 = 2%Q
  /\ Spec.cost_of BidType.CPM CLICK 2 = 0%Q
  /\ Spec.cost_of BidType.CPC IMPRESSION 2 = 0%Q
  /\ Spec.cost_of 9 IMPRESSION 2 = 0%Q.
Proof. repeat split; reflexivity. Qed.

Lemma positive_iff q : positive q = true <-> (0 < q)%Q.
Proof.
  unfold positive. rewrite negb_true_iff.
  split.
  - intros H. apply Qnot_le_lt. intros Hle.
    apply Qle_bool_iff in Hle. congruence.
  - intros H. destruct (Qle_bool q 0) eqn:E; [|done].
    apply Qle_bool_iff in E. exfalso. eapply Qlt_not_le; eauto.
Qed.

Lemma or_zero_amount x : (or_zero x == Spec.amount x)%Q.
Proof.
  destruct x as [q|]; cbn; [|reflexivity].
  destruct (Qeq_bool q 0) eqn:E; [|reflexivity].
  apply Qeq_bool_iff in E. by rewrite E.
Qed.

(** What [_calculate_cost] does to the session. *)
Lemma calculate_cost_effect st event_type campaign_id :
  let out := _calculate_cost st event_type campaign_id in
  events out.2 = events st /\ redis out.2 = redis st /\
  ((0 < out.1)%Q ->
     exists cid campaign campaign',
       campaign_id = Some cid /\ campaigns st !! cid = Some campaign /\
       campaigns out.2 = <[cid := campaign']> (campaigns st) /\
       (Spec.amount (spent_today campaign')
          == Spec.amount (spent_today campaign) + out.1)%Q /\
       (Spec.amount (spent_total campaign')
          == Spec.amount (spent_total campaign) + out.1)%Q) /\
  (~ (0 < out.1)%Q -> out.2 = st).
Proof.
  unfold _calculate_cost.
  destruct campaign_id as [cid|]; cbn;
    [|repeat split; try done; intros []%Qlt_irrefl].
  destruct (campaigns st !! cid) as [campaign|] eqn:Hc;
    [|repeat split; try done; intros []%Qlt_irrefl].
  destruct (house campaign);
    [repeat split; try done; intros []%Qlt_irrefl|].
  match goal with
  | |- context [positive ?c] => generalize c; intros cost
  end.
  destruct (positive cost) eqn:Hpos; cbn.
  - repeat split; try done.
    + intros _. eexists cid, campaign, _.
      repeat split; try reflexivity; try exact Hc.
      all: cbn [spent_today spent_total]; unfold Spec.amount at 1.
      all: cbn [default from_option id].
      all: apply Qplus_comp; [apply or_zero_amount | reflexivity].
    + intros Hn. apply positive_iff in Hpos. contradiction.
  - repeat split; try done.
    intros Hlt. apply positive_iff in Hlt. congruence.
Qed.

(** ** One call of [track_event], case by case *)

Lemma track_event_unfold env st request_id ad_id event_type user_id timestamp :
  exists campaign creative,
    _parse_ad_id ad_id = Ok (campaign, creative) /\
    track_event env st request_id ad_id event_type user_id timestamp =
      match _get_event_type event_type, event_time_of env timestamp with
      | Some ty, Ok t =>
          let out := _calculate_cost st ty campaign in
          let e := {| request_id := request_id; ev_campaign_id := campaign;
                      ev_creative_id := creative; event_type := ty;
                      event_time := t; user_id := user_id; cost := out.1 |} in
          if db_accepts env e then
            let st2 := {| campaigns := campaigns out.2;
                          events := events out.2 ++ [e];
                          redis := redis out.2 |} in
            let st3 := _update_stats env st2 campaign ty in
            (true,
             if bool_decide (ty = IMPRESSION) && truthy_str user_id
             then _update_frequency env st3 (default "" user_id) campaign
             else st3)
          else (false, st)
      | _, _ => (false, st)
      end.
Proof.
  destruct (parse_ad_id_total ad_id) as [[campaign creative] Hparse].
  exists campaign, creative. split; [done|].
  unfold track_event, track_event_body. rewrite Hparse. cbn [mbind result_bind].
  destruct (_get_event_type event_type) as [ty|]; [|done].
  destruct (event_time_of env timestamp) as [t|]; [|done].
  cbn [mbind result_bind].
  destruct (_calculate_cost st ty campaign) as [c st1]. cbn [fst snd].
  unfold add_flush.
  by destruct (db_accepts env _).
Qed.

Lemma update_stats_frame env st campaign ty :
  campaigns (_update_stats env st campaign ty) = campaigns st
  /\ events (_update_stats env st campaign ty) = events st
  /\ Spec.frequency_counters (_update_stats env st campaign ty)
     = Spec.frequency_counters st.
Proof. unfold _update_stats. by destruct campaign. Qed.

Lemma update_frequency_frame env st user campaign :
  campaigns (_update_frequency env st user campaign) = campaigns st
  /\ events (_update_frequency env st user campaign) = events st.
Proof. unfold _update_frequency. by destruct campaign. Qed.

(** C2.  For every tracked event (a call of [track_event] that returns
    true) the same call appends the event and, when the computed cost is
    greater than 0, replaces the owning campaign by one whose spent_today
    and spent_total are each exactly the cost higher; when the computed
    cost is 0 the campaign table is unchanged. *)
Theorem spend_increases_by_cost (env : Env) (st st' : State)
    (request_id ad_id event_type : string) (user_id : option string)
    (timestamp : option Z) :
  track_event env st request_id ad_id event_type user_id timestamp = (true, st') ->
  exists e,
    events st' = (events st ++ [e])%list
    /\ ((0 < cost e)%Q ->
        exists cid campaign campaign',
          ev_campaign_id e = Some cid
          /\ campaigns st !! cid = Some campaign
          /\ campaigns st' = <[cid := campaign']> (campaigns st)
          /\ (Spec.amount (spent_today campaign')
                == Spec.amount (spent_today campaign) + cost e)%Q
          /\ (Spec.amount (spent_total campaign')
                == Spec.amount (spent_total campaign) + cost e)%Q)
    /\ ((cost e == 0)%Q -> campaigns st' = campaigns st).
Proof.
  intros Htrack.
  destruct (track_event_unfold env st request_id ad_id event_type user_id timestamp)
    as (campaign & creative & _ & Heq).
  rewrite Heq in Htrack. clear Heq.
  destruct (_get_event_type event_type) as [ty|]; [|discriminate].
  destruct (event_time_of env timestamp) as [t|]; [|discriminate].
  cbn zeta in Htrack.
  destruct (db_accepts env _); [|discriminate].
  injection Htrack as <-.
  pose proof (calculate_cost_effect st ty campaign) as (Hev & _ & Hpos & Hzero).
  cbn zeta in Hpos, Hzero.
  set (out := _calculate_cost st ty campaign) in *.
  eexists. split; [|split].
  - destruct (bool_decide (ty = IMPRESSION) && truthy_str user_id).
    + rewrite (proj2 (update_frequency_frame _ _ _ _)).
      rewrite (proj1 (proj2 (update_stats_frame _ _ _ _))). cbn.
      rewrite Hev. reflexivity.
    + rewrite (proj1 (proj2 (update_stats_frame _ _ _ _))). cbn.
      rewrite Hev. reflexivity.
  - cbn [cost ev_campaign_id]. intros Hlt.
    destruct (Hpos Hlt) as (cid & c & c' & -> & Hc & Hins & Ht & Htot).
    exists cid, c, c'. repeat split; try done.
    destruct (bool_decide (ty = IMPRESSION) && truthy_str user_id).
    + rewrite (proj1 (update_frequency_frame _ _ _ _)).
      by rewrite (proj1 (update_stats_frame _ _ _ _)).
    + by rewrite (proj1 (update_stats_frame _ _ _ _)).
  - cbn [cost]. intros Hz.
    assert (out.2 = st) as Hst.
    { apply Hzero. rewrite Hz. apply Qlt_irrefl. }
    destruct (bool_decide (ty = IMPRESSION) && truthy_str user_id).
    + rewrite (proj1 (update_frequency_frame _ _ _ _)).
      rewrite (proj1 (update_stats_frame _ _ _ _)). cbn. by rewrite Hst.
    + rewrite (proj1 (update_stats_frame _ _ _ _)). cbn. by rewrite Hst.
Qed.

Lemma spend_increases_by_cost_witness :
  exists e,
    events Sample.tracked = (events Sample.st ++ [e])%list
    /\ ((0 < cost e)%Q ->
        exists cid campaign campaign',
          ev_campaign_id e = Some cid
          /\ campaigns Sample.st !! cid = Some campaign
          /\ campaigns Sample.tracked = <[cid := campaign']> (campaigns Sample.st)
          /\ (Spec.amount (spent_today campaign')
                == Spec.amount (spent_today campaign) + cost e)%Q
          /\ (Spec.amount (spent_total campaign')
                == Spec.amount (spent_total campaign) + cost e)%Q)
    /\ ((cost e == 0)%Q -> campaigns Sample.tracked = campaigns Sample.st).
Proof.
  apply (spend_increases_by_cost Sample.env Sample.st Sample.tracked
           "req-1" "5_3" "v" None None).
  vm_compute. reflexivity.
Defined.

(** The end-to-end example: an impression of the CPM campaign with bid
    2.00 costs 0.002 and raises spent_today from 0 to 0.002. *)
Example impression_costs_two_thousandths :
  cost <$> events Sample.tracked = [(2 / 1000)%Q]
  /\ exists campaign,
       campaigns Sample.tracked !! 5%Z = Some campaign
       /\ (Spec.amount (spent_today campaign) == 2 / 1000)%Q
       /\ (Spec.amount (spent_total campaign) == 2 / 1000)%Q.
Proof.
  split; [reflexivity|].
  eexists. split; [vm_compute; reflexivity|]. split; reflexivity.
Qed.

(** ** Unparseable ad identifiers *)

Lemma encodings_split ad_id :
  Spec.new_encoding ad_id \/ Spec.legacy_encoding ad_id ->
  (length (split "_" ad_id) = 2 /\ split "_" ad_id !! 0%nat <> Some "ad")
  \/ (length (split "_" ad_id) = 3 /\ split "_" ad_id !! 0%nat = Some "ad").
Proof.
  intros [(c & k & ->) | (c & k & ->)].
  - left. rewrite split_new_encoding. split; [done|].
    cbn. intros [= E]. by apply str_not_ad in E.
  - right. by rewrite split_legacy_encoding.
Qed.

(** C3, as stated, fails: the text "abc" parses under neither encoding
    ([_parse_ad_id] finds no campaign and no creative), and with a store
    that accepts the event [track_event] records it and returns true.
    So does "5_3_extra", which is of neither form either and is read as
    campaign 5, creative 3. *)
Lemma unparseable_ad_id_is_tracked :
  (Spec.new_encoding "abc" \/ Spec.legacy_encoding "abc" -> False)
  /\ _parse_ad_id "abc" = Ok (None, None)
  /\ (track_event Sample.env Sample.st "req-1" "abc" "v" None None).1 = true
  /\ length (events (track_event Sample.env Sample.st "req-1" "abc" "v" None None).2)
     = 1%nat
  /\ (Spec.new_encoding "5_3_extra" \/ Spec.legacy_encoding "5_3_extra" -> False)
  /\ _parse_ad_id "5_3_extra" = Ok (Some 5%Z, Some 3%Z)
  /\ (track_event Sample.env Sample.st "req-1" "5_3_extra" "v" None None).1 = true.
Proof.
  split; [|split; [|split; [|split; [|split; [|split]]]]];
    try (vm_compute; reflexivity).
  - intros [[Hlen _] | [Hlen _]]%encodings_split; discriminate Hlen.
  - intros [[Hlen _] | [_ Hfirst]]%encodings_split; discriminate.
Qed.

(** C3, amended.  No exception escapes [track_event], whatever the ad
    identifier: it returns a boolean.  An identifier that parses under
    neither encoding does not by itself make it return false: with a
    recognised event type, a timestamp in range and a store that accepts
    the event (the counter store being available) it returns true.  When
    [_parse_ad_id] finds no campaign and no creative, the outcome is
    false, state unchanged, for an unknown event type, a timestamp out
    of range or an event that the store refuses; otherwise true, and the
    only change is the new event, recorded without campaign and creative
    and with cost 0 (no spend, stat or frequency counter changes). *)
Theorem unparseable_ad_id_outcome (env : Env) (st : State)
    (request_id ad_id event_type : string) (user_id : option string)
    (timestamp : option Z) :
  (is_Some (_get_event_type event_type) ->
   (exists t, event_time_of env timestamp = Ok t) ->
   (forall e, db_accepts env e = true) ->
   (track_event env st request_id ad_id event_type user_id timestamp).1 = true)
  /\ (_parse_ad_id ad_id = Ok (None, None) ->
      track_event env st request_id ad_id event_type user_id timestamp =
        match _get_event_type event_type, event_time_of env timestamp with
        | Some ty, Ok t =>
            let e := {| request_id := request_id; ev_campaign_id := None;
                        ev_creative_id := None; event_type := ty;
                        event_time := t; user_id := user_id; cost := 0%Q |} in
            if db_accepts env e
            then (true, {| campaigns := campaigns st;
                           events := events st ++ [e];
                           redis := redis st |})
            else (false, st)
        | _, _ => (false, st)
        end).
Proof.
  destruct (track_event_unfold env st request_id ad_id event_type user_id timestamp)
    as (campaign & creative & Hparse' & ->).
  split.
  - intros [ty ->] [t ->] Haccepts. cbn zeta. by rewrite Haccepts.
  - intros Hparse.
    rewrite Hparse in Hparse'. injection Hparse' as <- <-.
    destruct (_get_event_type event_type) as [ty|]; [|done].
    destruct (event_time_of env timestamp) as [t|]; [|done].
    cbn [_calculate_cost fst snd _update_stats _update_frequency].
    destruct (db_accepts env _); [|done].
    by destruct (bool_decide (ty = IMPRESSION) && truthy_str user_id).
Qed.

Lemma unparseable_ad_id_outcome_witness :
  track_event Sample.env Sample.st "req-1" "abc" "v" None None =
    (true,
     {| campaigns := campaigns Sample.st;
        events := [ {| request_id := "req-1"; ev_campaign_id := None;
                       ev_creative_id := None; event_type := IMPRESSION;
                       event_time := 1700000000; user_id := None;
                       cost := 0%Q |} ];
        redis := redis Sample.st |}).
Proof.
  exact (proj2 (unparseable_ad_id_outcome Sample.env Sample.st
                  "req-1" "abc" "v" None None) eq_refl).
Defined.

(** ** Frequency counters *)

Lemma track_event_frequency env st request_id ad_id event_type user_id timestamp :
  _get_event_type event_type <> Some IMPRESSION \/ truthy_str user_id = false ->
  Spec.frequency_counters
    (track_event env st request_id ad_id event_type user_id timestamp).2
  = Spec.frequency_counters st.
Proof.
  intros Hcase.
  destruct (track_event_unfold env st request_id ad_id event_type user_id timestamp)
    as (campaign & creative & _ & ->).
  destruct (_get_event_type event_type) as [ty|]; [|done].
  destruct (event_time_of env timestamp) as [t|]; [|done].
  cbn zeta.
  destruct (db_accepts env _); [|done]. cbn [snd].
  assert (bool_decide (ty = IMPRESSION) && truthy_str user_id = false) as ->.
  { destruct Hcase as [Hty| ->]; [|apply andb_false_r].
    rewrite bool_decide_eq_false_2; [done|congruence]. }
  rewrite (proj2 (proj2 (update_stats_frame _ _ _ _))).
  unfold Spec.frequency_counters. cbn [redis].
  by rewrite (proj1 (proj2 (calculate_cost_effect st ty campaign))).
Qed.

(** C10.  The pixel endpoint [GET /] hands [track_event] the user
    [None]; [track_event] leaves the daily and hourly frequency counters
    (and their expiries) alone unless the event is an impression and a
    user id is present.  So no event tracked through the pixel endpoint,
    impression or not, changes a frequency counter, and for any caller a
    click or a conversion changes none. *)
Theorem pixel_tracking_leaves_frequency (env : Env) (st : State) :
  (forall t r i,
     success (track_event_get env st t r i).1
       = (track_event env st r i t None (Some (current_timestamp env))).1
     /\ (track_event_get env st t r i).2
        = (track_event env st r i t None (Some (current_timestamp env))).2
     /\ Spec.frequency_counters (track_event_get env st t r i).2
        = Spec.frequency_counters st)
  /\ (forall request_id ad_id event_type user_id timestamp,
        Spec.frequency_counters
          (track_event env st request_id ad_id event_type user_id timestamp).2
          <> Spec.frequency_counters st ->
        _get_event_type event_type = Some IMPRESSION /\ truthy_str user_id = true)
  /\ (forall request_id ad_id event_type user_id timestamp,
        _get_event_type event_type = Some CLICK
        \/ _get_event_type event_type = Some CONVERSION ->
        Spec.frequency_counters
          (track_event env st request_id ad_id event_type user_id timestamp).2
        = Spec.frequency_counters st).
Proof.
  split; [|split].
  - intros t r i.
    assert ((track_event_get env st t r i).2
            = (track_event env st r i t None (Some (current_timestamp env))).2) as E.
    { unfold track_event_get. by destruct (track_event _ _ _ _ _ _ _). }
    split; [|split; [exact E|]].
    + unfold track_event_get. by destruct (track_event _ _ _ _ _ _ _).
    + rewrite E. apply track_event_frequency. by right.
  - intros request_id ad_id event_type user_id timestamp Hne.
    destruct (decide (_get_event_type event_type = Some IMPRESSION)) as [Hty|Hty];
      [split; [done|]|].
    + destruct (truthy_str user_id) eqn:Hu; [done|].
      exfalso. apply Hne, track_event_frequency. by right.
    + exfalso. apply Hne, track_event_frequency. by left.
  - intros request_id ad_id event_type user_id timestamp Hty.
    apply track_event_frequency. left. destruct Hty as [-> | ->]; congruence.
Qed.

Lemma pixel_tracking_leaves_frequency_witness :
  Spec.frequency_counters (track_event_get Sample.env Sample.st "v" "req-1" "5_3").2
    = Spec.frequency_counters Sample.st
  /\ Spec.frequency_counters
       (track_event Sample.env Sample.st "req-2" "5_3" "click" (Some "u1") None).2
     = Spec.frequency_counters Sample.st.
Proof.
  split.
  - apply (pixel_tracking_leaves_frequency Sample.env Sample.st).
  - apply (pixel_tracking_leaves_frequency Sample.env Sample.st).
    left. reflexivity.
Defined.

(** An impression with a user id, tracked through [track_event] itself,
    does count: both counters of (user, campaign) go to 1, with expiries
    of 24 hours and 1 hour. *)
Example identified_impression_is_counted :
  let st' := (track_event Sample.env Sample.st "req-3" "5_3" "imp" (Some "u1") None).2 in
  freq_daily (redis st') !! ("u1", 5%Z, "2023-11-14") = Some 1%Z
  /\ freq_daily_ttl (redis st') !! ("u1", 5%Z, "2023-11-14") = Some 86400%Z
  /\ freq_hourly (redis st') !! ("u1", 5%Z, "2023-11-14-22") = Some 1%Z
  /\ freq_hourly_ttl (redis st') !! ("u1", 5%Z, "2023-11-14-22") = Some 3600%Z.
Proof. repeat split; vm_compute; reflexivity. Qed.

(* ===================================================================== *)
(** * Properties of the rule matcher and of domain targeting              *)
(* ===================================================================== *)

(** C9.  The rule matcher is fail-open: whatever the rule value and the
    user context, a rule whose type is none of
    age/gender/geo/device/os/interest/app_category matches, and an age
    rule matches a user whose age is unknown. *)
Theorem rule_matcher_fail_open (rule_type : string) (rule_value : pyval)
    (user_context : UserContext) :
  (rule_type ∉ Spec.rule_types ->
     _match_rule rule_type rule_value user_context = Ok true)
  /\ (age user_context = None ->
     _match_rule "age" rule_value user_context = Ok true).
Proof.
  split.
  - unfold Spec.rule_types. rewrite !not_elem_of_cons.
    intros (H1 & H2 & H3 & H4 & H5 & H6 & H7 & _).
    unfold _match_rule.
    repeat match goal with
      | |- context [String.eqb ?a ?b] =>
          destruct (String.eqb_spec a b); [congruence|]
      end.
    reflexivity.
  - intros Hage. unfold _match_rule. rewrite String.eqb_refl.
    by rewrite Hage.
Qed.

Lemma rule_matcher_fail_open_witness :
  _match_rule "weather" (PStr "sunny")
    {| age := Some 30%Z; gender := None; country := None; city := None;
       device_model := None; os := None; interests := [];
       app_categories := []; uc_page_url := None |} = Ok true
  /\ _match_rule "age" (PDict [("min", PNum 18); ("max", PStr "old")])
    {| age := None; gender := Some "f"; country := None; city := None;
       device_model := None; os := None; interests := [];
       app_categories := []; uc_page_url := None |} = Ok true.
Proof.
  split.
  - apply (proj1 (rule_matcher_fail_open "weather" _ _)).
    unfold Spec.rule_types. rewrite !not_elem_of_cons.
    repeat split; try discriminate. apply not_elem_of_nil.
  - apply (proj2 (rule_matcher_fail_open "age" _ _)). reflexivity.
Defined.

(** The same age rule does raise once the age is known: the rule value
    is only looked at then. *)
Example age_rule_reads_value_when_age_known :
  _match_rule "age" (PDict [("min", PNum 18); ("max", PStr "old")])
    {| age := Some 30%Z; gender := None; country := None; city := None;
       device_model := None; os := None; interests := [];
       app_categories := []; uc_page_url := None |} = Raise TypeError
  /\ _match_rule "age" (PDict [("min", PNum 18); ("max", PNum 65)])
    {| age := Some 30%Z; gender := None; country := None; city := None;
       device_model := None; os := None; interests := [];
       app_categories := []; uc_page_url := None |} = Ok true
  /\ _match_rule "age" (PDict [("min", PNum 18)])
    {| age := Some 12%Z; gender := None; country := None; city := None;
       device_model := None; os := None; interests := [];
       app_categories := []; uc_page_url := None |} = Ok false.
Proof. repeat split; reflexivity. Qed.

(** ** Domain targeting *)

Lemma split_nonempty sep s : split sep s <> [].
Proof.
  destruct s as [|c r]; cbn; [done|].
  destruct (Ascii.eqb c sep); [done|]. by destruct (split sep r).
Qed.

Lemma split_length_one sep s :
  (length (split sep s) < 2)%nat -> split sep s = [s].
Proof.
  induction s as [|c r IH]; cbn; [done|].
  pose proof (split_nonempty sep r) as Hne.
  destruct (Ascii.eqb c sep).
  - cbn. destruct (split sep r); [done|]. cbn. lia.
  - destruct (split sep r) as [|p ps] eqn:E; [done|].
    cbn. intros Hlen. cbn in IH. specialize (IH Hlen).
    by injection IH as -> ->.
Qed.

Lemma extract_domain_registrable env url netloc :
  url <> "" ->
  urlparse_netloc env url = Ok netloc ->
  _extract_domain env url = Some (Spec.registrable_domain netloc).
Proof.
  intros Hurl Hnet. unfold _extract_domain, Spec.registrable_domain.
  rewrite (proj2 (String.eqb_neq _ _) Hurl), Hnet.
  destruct (Nat.leb_spec 2 (length (split "." (strip_www (lower netloc)))))
    as [Hle|Hlt]; [done|].
  rewrite (split_length_one _ _ Hlt). reflexivity.
Qed.

Lemma domain_loop_strings page_domain entries :
  domain_loop page_domain (PStr <$> entries)
  = Ok (existsb (fun e => Spec.domain_matches page_domain (Spec.clean_entry e)) entries).
Proof.
  induction entries as [|e es IH]; [done|].
  cbn [fmap list_fmap domain_loop lower_of mbind result_bind existsb].
  unfold Spec.domain_matches at 1, Spec.clean_entry at 1 2.
  destruct (String.eqb page_domain _); [done|].
  destruct (endswith page_domain _); [done|].
  exact IH.
Qed.

(** C8, as stated, fails: a page URL without [//] has no host, the
    extracted domain is empty and matches no entry, and the campaign
    still passes. *)
Lemma hostless_url_passes_domain_targeting :
  _extract_domain Sample.env "example.org/landing" = Some ""
  /\ existsb (Spec.domain_matches "") ["example.com"] = false
  /\ _match_domain_targeting Sample.env (PList [PStr "example.com"])
       (Some "example.org/landing") = Ok true.
Proof. repeat split; reflexivity. Qed.

(** A port in the page URL stays in the extracted domain, which then
    matches no entry: the code reads the network location, not the
    host. *)
Example port_stays_in_extracted_domain :
  _extract_domain Sample.env "http://example.com:8080/" = Some "example.com:8080"
  /\ Spec.registrable_domain (Spec.host "example.com:8080") = "example.com"
  /\ _match_domain_targeting Sample.env (PList [PStr "example.com"])
       (Some "http://example.com:8080/") = Ok false.
Proof. repeat split; reflexivity. Qed.

(** C8, amended.  For a page URL whose network location is its host
    alone (no user information, no port, no brackets),
    [_extract_domain] gives the registrable domain of that host
    (lower-cased, a leading "www." removed, the last two labels kept).
    With a non-empty list of allowed domains and a page
    URL from which a non-empty domain is extracted, the campaign passes
    iff that domain equals, or ends with "." followed by, some entry
    (entries lower-cased, trimmed and without a leading "www.").  It
    always passes when the allowed set is absent or empty, when the page
    URL is absent or empty, and when no domain can be extracted from the
    URL.  In particular ["example.com"] with
    "https://blog.example.com/x" passes and with "https://notexample.com"
    does not. *)
Theorem domain_targeting_decision (env : Env) :
  (forall url netloc,
     url <> "" -> urlparse_netloc env url = Ok netloc ->
     Spec.host netloc = netloc ->
     _extract_domain env url = Some (Spec.registrable_domain (Spec.host netloc)))
  /\ (forall entries url domain,
        entries <> [] -> _extract_domain env url = Some domain -> domain <> "" ->
        _match_domain_targeting env (PList (PStr <$> entries)) (Some url)
        = Ok (existsb (fun e => Spec.domain_matches domain (Spec.clean_entry e))
                entries))
  /\ (forall page_url,
        _match_domain_targeting env PNone page_url = Ok true
        /\ _match_domain_targeting env (PList []) page_url = Ok true)
  /\ (forall targets,
        _match_domain_targeting env targets None = Ok true
        /\ _match_domain_targeting env targets (Some "") = Ok true)
  /\ (forall entries url,
        _extract_domain env url = None \/ _extract_domain env url = Some "" ->
        _match_domain_targeting env (PList (PStr <$> entries)) (Some url) = Ok true)
  /\ _match_domain_targeting env (PList [PStr "example.com"])
       (Some "https://blog.example.com/x") = Ok true
  /\ _match_domain_targeting env (PList [PStr "example.com"])
       (Some "https://notexample.com") = Ok false.
Proof.
  repeat apply conj.
  - intros url netloc Hurl Hnet Hhost. rewrite Hhost.
    by apply extract_domain_registrable.
  - intros entries url domain Hne Hdom Hnonempty.
    destruct entries as [|e es]; [done|].
    unfold _match_domain_targeting.
    assert (url <> "") as Hurl.
    { intros ->. unfold _extract_domain in Hdom. discriminate Hdom. }
    cbn [truthy fmap list_fmap negb truthy_str default from_option id].
    rewrite (proj2 (String.eqb_neq _ _) Hurl). cbn [negb].
    rewrite Hdom, (proj2 (String.eqb_neq _ _) Hnonempty).
    apply (domain_loop_strings domain (e :: es)).
  - intros page_url. split; reflexivity.
  - intros targets. split; unfold _match_domain_targeting;
      by destruct (truthy targets).
  - intros entries url Hdom.
    destruct entries as [|e es]; [done|].
    unfold _match_domain_targeting.
    cbn [truthy fmap list_fmap negb truthy_str default from_option id].
    destruct (String.eqb url ""); [done|]. cbn [negb].
    by destruct Hdom as [-> | ->].
  - reflexivity.
  - reflexivity.
Qed.

Lemma domain_targeting_decision_witness :
  Spec.host "WWW.Blog.Example.COM" = "WWW.Blog.Example.COM"
  /\ _extract_domain Sample.env "HTTPS://WWW.Blog.Example.COM/x?y" = Some "example.com"
  /\ _match_domain_targeting Sample.env
       (PList (PStr <$> ["other.org"; " WWW.Example.com "]))
       (Some "HTTPS://WWW.Blog.Example.COM/x?y")
     = Ok true
  /\ _match_domain_targeting Sample.env (PList (PStr <$> ["example.com"]))
       (Some "//[bad/x") = Ok true.
Proof.
  pose proof (domain_targeting_decision Sample.env)
    as (Hextract & Hdecide & _ & _ & Hnone & _).
  split; [|split; [|split]].
  - reflexivity.
  - apply (Hextract "HTTPS://WWW.Blog.Example.COM/x?y" "WWW.Blog.Example.COM");
      [discriminate | reflexivity | reflexivity].
  - apply (Hdecide ["other.org"; " WWW.Example.com "]
             "HTTPS://WWW.Blog.Example.COM/x?y" "example.com");
      [discriminate | reflexivity | discriminate].
  - apply (Hnone ["example.com"] "//[bad/x"). left. reflexivity.
Defined.

(* ===================================================================== *)
(** * Properties of the campaign cache                                    *)
(* ===================================================================== *)

Lemma rule_data_id (rules : list TargetingRule) : rule_data <$> rules = rules.
Proof.
  induction rules as [|r rs IH]; [done|].
  cbn. rewrite IH. by destruct r.
Qed.

(** What a snapshot entry carries. *)
Lemma build_campaign_data_carries id campaign d :
  build_campaign_data id campaign = Ok d ->
  cd_id d = id
  /\ cd_creatives d
     = creative_data <$>
         filter (fun creative => creative_status creative = ACTIVE) (creatives campaign)
  /\ cd_targeting_rules d = targeting_rules campaign.
Proof.
  unfold build_campaign_data.
  destruct (spent_today campaign); [|discriminate].
  destruct (spent_total campaign); [|discriminate].
  cbn. intros [= <-]. cbn. by rewrite rule_data_id.
Qed.



(** The rebuild loop keeps exactly the rows that are active and have an
    active creative. *)
Lemma snapshot_loop_elements env rows snapshot :
  snapshot_loop env rows = Ok snapshot ->
  forall d,
    d ∈ snapshot <->
    exists id campaign,
      (id, campaign) ∈ rows
      /\ campaign_is_active env campaign = true
      /\ build_campaign_data id campaign = Ok d
      /\ cd_creatives d <> [].
Proof.
  revert snapshot.
  induction rows as [|[id campaign] rows IH]; intros snapshot; cbn.
  - intros [= <-] d. split; [by intros ?%elem_of_nil|].
    by intros (? & ? & ?%elem_of_nil & _).
  - destruct (campaign_is_active env campaign) eqn:Hact; cbn.
    + destruct (build_campaign_data id campaign) as [cd|] eqn:Hbuild; [|discriminate].
      cbn. destruct (snapshot_loop env rows) as [tail|]; [|discriminate].
      cbn. specialize (IH tail eq_refl).
      intros [= <-] d. split.
      * intros Hin.
        assert (d = cd /\ cd_creatives cd <> [] \/ d ∈ tail) as [[-> Hne]|Ht].
        { destruct (cd_creatives cd); [by right|].
          apply elem_of_cons in Hin as [->|?]; [by left|by right]. }
        -- exists id, campaign. repeat split; try done. left.
        -- apply IH in Ht as (i & c & ? & ? & ? & ?).
           exists i, c. repeat split; try done. by right.
      * intros (i & c & Hin & Ha & Hb & Hne).
        apply elem_of_cons in Hin as [[= -> ->]|Hin].
        -- rewrite Hbuild in Hb. injection Hb as <-.
           destruct (cd_creatives cd); [done|left].
        -- assert (d ∈ tail) as Ht by (apply IH; eauto 10).
           destruct (cd_creatives cd); [done|by right].
    + intros Hloop d. rewrite (IH _ Hloop d). split.
      * intros (i & c & ? & ? & ? & ?). exists i, c.
        repeat split; try done. by right.
      * intros (i & c & Hin & Ha & Hb & Hne).
        apply elem_of_cons in Hin as [[= -> ->]|Hin]; [congruence|eauto 10].
Qed.


(** The query returns at most 1000 rows, all of them ACTIVE rows of the
    table, and every ACTIVE row when there are at most 1000 of them. *)
Lemma query_active_rows st :
  (length (query_active st) <= 1000)%nat
  /\ (forall id campaign,
        (id, campaign) ∈ query_active st ->
        campaigns st !! id = Some campaign /\ status campaign = ACTIVE)
  /\ ((length (filter (fun row => status row.2 = ACTIVE)
                 (map_to_list (campaigns st))) <= 1000)%nat ->
      forall id campaign,
        campaigns st !! id = Some campaign -> status campaign = ACTIVE ->
        (id, campaign) ∈ query_active st).
Proof.
  unfold query_active. split; [|split].
  - rewrite length_take. lia.
  - intros id campaign Hin. apply subseteq_take in Hin.
    apply list_elem_of_filter in Hin as [Hst Hin].
    by apply elem_of_map_to_list in Hin.
  - intros Hfew id campaign Hlook Hst. rewrite take_ge by done.
    apply list_elem_of_filter. split; [done|].
    by apply elem_of_map_to_list.
Qed.




(* ===================================================================== *)
(** * Properties of the candidate retriever                               *)
(* ===================================================================== *)

Section RetrievalFacts.

Local Open Scope list_scope.

Context (env : Env) (user_context : UserContext) (page_url : option string).
Context (slot_dimensions : option (Z * Z)) (limit : Z).
Hypothesis limit_nonneg : (0 <= limit)%Z.

Lemma extend_nil b : Spec.extend b [] = b.
Proof. destruct b. unfold Spec.extend. cbn. by rewrite !app_nil_r. Qed.

Lemma extend_app b seen1 seen2 :
  Spec.extend b (seen1 ++ seen2) = Spec.extend (Spec.extend b seen1) seen2.
Proof. unfold Spec.extend. cbn. by rewrite !filter_app, !app_assoc. Qed.

Lemma extend_one b campaign_data creative_data h :
  Spec.extend b [candidate campaign_data creative_data h]
  = if h then (b.1, b.2 ++ [candidate campaign_data creative_data h])
    else (b.1 ++ [candidate campaign_data creative_data h], b.2).
Proof.
  unfold Spec.extend. destruct h; cbn; by rewrite app_nil_r.
Qed.

(** The inner loop distributes a prefix of the campaign's candidates, and
    stops early only with both buckets full. *)
Lemma creatives_loop_prefix campaign_data h creatives b :
  exists seen rest,
    (fun creative_data => candidate campaign_data creative_data h)
      <$> filter (fun creative_data =>
                    _creative_matches_slot creative_data slot_dimensions = true)
            creatives
    = seen ++ rest
    /\ creatives_loop campaign_data h slot_dimensions limit creatives b
       = Spec.extend b seen
    /\ (rest = [] \/ both_full limit (Spec.extend b seen) = true).
Proof.
  revert b. induction creatives as [|cr crs IH]; intros b; cbn [creatives_loop].
  - exists [], []. rewrite extend_nil. auto.
  - destruct (_creative_matches_slot cr slot_dimensions) eqn:Hm; cbn [negb].
    + rewrite filter_cons_True by done. cbn [fmap list_fmap].
      rewrite <- extend_one.
      destruct (both_full limit (Spec.extend b [candidate campaign_data cr h])) eqn:Hfull.
      * eexists [_], _. split; [reflexivity|]. auto.
      * destruct (IH (Spec.extend b [candidate campaign_data cr h]))
          as (seen & rest & Hsplit & Hloop & Hstop).
        exists (candidate campaign_data cr h :: seen), rest.
        change (candidate campaign_data cr h :: seen)
          with ([candidate campaign_data cr h] ++ seen).
        rewrite extend_app. cbn [app]. rewrite Hsplit. auto.
    + rewrite filter_cons_False by (rewrite Hm; discriminate).
      apply IH.
Qed.

Lemma all_candidates_cons cd cds :
  Spec.all_candidates env user_context page_url slot_dimensions (cd :: cds)
  = (if Spec.passes env user_context page_url cd
     then Spec.candidates_of slot_dimensions cd else [])
    ++ Spec.all_candidates env user_context page_url slot_dimensions cds.
Proof.
  unfold Spec.all_candidates.
  destruct (Spec.passes env user_context page_url cd) eqn:Hp.
  - by rewrite filter_cons_True by done.
  - by rewrite filter_cons_False by (rewrite Hp; discriminate).
Qed.

(** The outer loop distributes a prefix of all candidates, and stops
    early only with both buckets full. *)
Lemma campaigns_loop_prefix campaigns b :
  (forall cd, cd ∈ campaigns ->
     exists ok, campaign_matches env user_context page_url cd = Ok ok) ->
  exists seen rest,
    Spec.all_candidates env user_context page_url slot_dimensions campaigns
    = seen ++ rest
    /\ campaigns_loop env user_context page_url slot_dimensions limit campaigns b
       = Ok (Spec.extend b seen)
    /\ (rest = [] \/ both_full limit (Spec.extend b seen) = true).
Proof.
  revert b. induction campaigns as [|cd cds IH]; intros b Hok.
  - exists [], []. cbn. rewrite extend_nil. auto.
  - destruct (Hok cd) as [ok Hcd]; [left|].
    assert (forall cd', cd' ∈ cds ->
              exists ok', campaign_matches env user_context page_url cd' = Ok ok')
      as Hrest by (intros cd' Hin; apply Hok; by right).
    rewrite all_candidates_cons. unfold Spec.passes.
    cbn [campaigns_loop]. rewrite Hcd. cbn [mbind result_bind].
    destruct ok; cbn [negb].
    + destruct (creatives_loop_prefix cd (default false (cd_is_house_ad cd))
                  (cd_creatives cd) b)
        as (seen1 & rest1 & Hsplit & -> & Hstop).
      fold (Spec.candidates_of slot_dimensions cd) in Hsplit. rewrite Hsplit.
      destruct (both_full limit (Spec.extend b seen1)) eqn:Hfull.
      * exists seen1, (rest1 ++ Spec.all_candidates env user_context page_url
                                   slot_dimensions cds).
        rewrite app_assoc. auto.
      * destruct Hstop as [-> | ?]; [|discriminate].
        destruct (IH (Spec.extend b seen1) Hrest)
          as (seen2 & rest2 & Hsplit2 & Hloop & Hstop2).
        exists (seen1 ++ seen2), rest2.
        rewrite extend_app, app_nil_r, Hsplit2, app_assoc. auto.
    + apply (IH b Hrest).
Qed.

Lemma both_full_length (b : buckets) :
  both_full limit b = true ->
  (Z.to_nat limit <= length b.1)%nat /\ (Z.to_nat limit <= length b.2)%nat.
Proof.
  intros [H1 H2]%andb_prop.
  apply Z.leb_le in H1, H2. lia.
Qed.

Lemma slice_to_take {A} (l : list A) :
  slice_to l limit = take (Z.to_nat limit) l.
Proof.
  unfold slice_to. by rewrite (proj2 (Z.leb_le 0 limit) limit_nonneg).
Qed.

(** The final choice between the buckets agrees with the specification's
    truncate-then-fall-back, whether the loops saw every candidate or
    stopped with both buckets full. *)
Lemma selection_agrees (seen rest : list AdCandidate) :
  rest = [] \/ both_full limit (Spec.extend ([], []) seen) = true ->
  (let '(paid_candidates, house_candidates) := Spec.extend ([], []) seen in
   match paid_candidates, house_candidates with
   | _ :: _, _ => slice_to paid_candidates limit
   | [], _ :: _ => slice_to house_candidates limit
   | [], [] => []
   end)
  = Spec.fallback (Spec.paid_bucket limit (seen ++ rest))
      (Spec.house_bucket limit (seen ++ rest)).
Proof.
  intros Hstop.
  unfold Spec.paid_bucket, Spec.house_bucket, Spec.extend in *.
  cbn [fst snd app] in *.
  rewrite !filter_app.
  assert (forall l : list AdCandidate, slice_to l limit = take (Z.to_nat limit) l)
    as Hslice by (intros l; apply slice_to_take).
  revert Hstop.
  generalize (filter (fun c => ac_is_house_ad c = false) seen).
  generalize (filter (fun c => ac_is_house_ad c = true) seen).
  intros house paid Hstop.
  destruct Hstop as [-> | Hfull].
  - rewrite !filter_nil, !app_nil_r.
    destruct paid as [|p ps]; [destruct house as [|h hs]|];
      rewrite ?Hslice, ?take_nil; try reflexivity.
    by destruct (Z.to_nat limit).
  - apply both_full_length in Hfull as [Hp Hh].
    cbn [fst snd] in Hp, Hh.
    rewrite !take_app_le by done.
    destruct paid as [|p ps]; [destruct house as [|h hs]|];
      rewrite ?Hslice, ?take_nil; try reflexivity.
    by destruct (Z.to_nat limit).
Qed.

End RetrievalFacts.

(** ** Slot dimensions always parse *)

Lemma uint_of_digits s :
  sall is_digit s = true -> exists d, NilEmpty.uint_of_string s = Some d.
Proof.
  induction s as [|c r IH]; cbn; [eauto|].
  intros [Hc Hr]%andb_prop. destruct (IH Hr) as [d ->].
  ascii_cases c; try discriminate Hc;
    cbn; eauto.
Qed.

Lemma int_of_digits s :
  sall is_digit s = true -> s <> "" -> exists z, int s = Ok z.
Proof.
  intros Hall Hne. unfold int.
  rewrite strip_id by (by apply digits_not_blank).
  destruct s as [|c r]; [done|].
  destruct (uint_of_digits _ Hall) as [d Hd].
  assert (NilZero.uint_of_string (String c r) = Some d) as Hparse by exact Hd.
  cbn in Hall. apply andb_prop in Hall as [Hc _].
  ascii_cases c; try discriminate Hc;
    rewrite Hparse; eauto.
Qed.

Lemma span_digits_fst s : sall is_digit (span_digits s).1 = true.
Proof.
  induction s as [|c r IH]; cbn; [done|].
  destruct (is_digit c) eqn:Hc; [|done].
  destruct (span_digits r) as [d rest]. cbn in *. by rewrite Hc, IH.
Qed.

Lemma dimension_search_groups s g1 g2 :
  dimension_search s = Some (g1, g2) ->
  (sall is_digit g1 = true /\ g1 <> "") /\ (sall is_digit g2 = true /\ g2 <> "").
Proof.
  induction s as [|c r IH]; [discriminate|].
  cbn [dimension_search].
  pose proof (span_digits_fst (String c r)) as H1.
  destruct (span_digits (String c r)) as [d1 rest].
  destruct d1 as [|c1 d1]; [exact IH|].
  destruct rest as [|x rest]; [exact IH|].
  pose proof (span_digits_fst rest) as H2.
  destruct (span_digits rest) as [d2 rest2].
  destruct d2 as [|c2 d2];
    ascii_cases x; try exact IH.
  intros [= <- <-]. done.
Qed.

Lemma parse_slot_dimensions_total slot_id :
  exists slot_dimensions, _parse_slot_dimensions slot_id = Ok slot_dimensions.
Proof.
  unfold _parse_slot_dimensions.
  destruct (dimension_search slot_id) as [[g1 g2]|] eqn:Hs; [|eauto].
  apply dimension_search_groups in Hs as [[Hd1 Hn1] [Hd2 Hn2]].
  destruct (int_of_digits g1 Hd1 Hn1) as [w ->].
  destruct (int_of_digits g2 Hd2 Hn2) as [h ->].
  cbn. eauto.
Qed.

(** C7, as stated, fails: with a negative limit the loops stop at the
    first candidate and the slice [[:limit]] drops it, so [retrieve]
    returns the empty list although there are paid candidates, and the
    empty list has more than [limit] elements. *)
Lemma negative_limit_returns_nothing :
  retrieve Sample.env (Fixture.cached_st [Fixture.paid_data]) Sample.anyone
    "sidebar-300x250" (-1) None
  = Ok ([], Fixture.cached_st [Fixture.paid_data])
  /\ length (filter (fun c => ac_is_house_ad c = false)
               (Spec.all_candidates Sample.env Sample.anyone None (Some (300, 250)%Z)
                  [Fixture.paid_data])) = 3%nat
  /\ (-1 < Z.of_nat (length (@nil AdCandidate)))%Z.
Proof. split; [|split]; [vm_compute; reflexivity | vm_compute; reflexivity | cbn; lia]. Qed.

(** C7, amended.  For every user context, every limit that is not
    negative and every slot id whose dimensions parse (a slot id of at
    most 4300 characters: [int] refuses longer runs of digits),
    whenever the cached campaigns can be read and none of their
    targeting data raises, [retrieve] returns the paid bucket when it is
    non-empty, otherwise the house-ad bucket when that is non-empty,
    otherwise the empty list, the buckets being the paid and the house
    candidates of all campaigns that pass targeting, each truncated at
    [limit]; and, the limit not being negative, whatever [retrieve]
    returns has at most [limit] elements. *)
Theorem retrieve_paid_then_house (env : Env) (st : State)
    (user_context : UserContext) (slot_id : string) (limit : Z)
    (kw_page_url : option string) :
  (0 <= limit)%Z ->
  (forall campaigns st' slot_dimensions,
     _get_active_campaigns env st = Ok (campaigns, st') ->
     (String.length slot_id <= 4300)%nat ->
     _parse_slot_dimensions slot_id = Ok slot_dimensions ->
     let page_url :=
       if truthy_str kw_page_url then kw_page_url else uc_page_url user_context in
     (forall cd, cd ∈ campaigns ->
        exists ok, campaign_matches env user_context page_url cd = Ok ok) ->
     let candidates :=
       Spec.all_candidates env user_context page_url slot_dimensions campaigns in
     let paid := Spec.paid_bucket limit candidates in
     let house := Spec.house_bucket limit candidates in
     retrieve env st user_context slot_id limit kw_page_url
     = Ok (Spec.fallback paid house, st'))
  /\ (forall returned st',
        retrieve env st user_context slot_id limit kw_page_url = Ok (returned, st') ->
        (Z.of_nat (length returned) <= limit)%Z).
Proof.
  intros Hlimit. split.
  - intros campaigns st' dims Hget _ Hdims page_url Hok. cbn zeta.
    unfold retrieve. rewrite Hget. cbn [mbind result_bind].
    destruct campaigns as [|cd cds].
    { unfold Spec.paid_bucket, Spec.house_bucket, Spec.all_candidates.
      cbn. by rewrite !take_nil. }
    rewrite Hdims. cbn [mbind result_bind].
    destruct (campaigns_loop_prefix env user_context page_url dims limit
                (cd :: cds) ([], []) Hok) as (seen & rest & Hsplit & Hloop & Hstop).
    fold page_url. rewrite Hloop. cbn [mbind result_bind].
    rewrite Hsplit, <- (selection_agrees limit Hlimit seen rest Hstop).
    destruct (Spec.extend ([], []) seen) as [[|p ps] [|h hs]]; reflexivity.
  - intros returned st'. unfold retrieve.
    assert (forall l : list AdCandidate,
              (Z.of_nat (length (slice_to l limit)) <= limit)%Z) as Hslice.
    { intros l. rewrite (slice_to_take limit Hlimit). rewrite length_take. lia. }
    destruct (_get_active_campaigns env st) as [[campaigns st1]|]; [|discriminate].
    cbn [mbind result_bind].
    destruct campaigns as [|cd cds]; [intros [= <- _]; cbn; lia|].
    destruct (_parse_slot_dimensions slot_id) as [dims|]; [|discriminate].
    cbn [mbind result_bind].
    destruct (campaigns_loop _ _ _ _ _ _ _) as [[paid house]|]; [|discriminate].
    cbn [mbind result_bind].
    destruct paid as [|p ps]; [destruct house as [|h hs]|];
      intros [= <- _]; solve [apply Hslice | cbn; lia].
Qed.

(** Two runs on cached snapshots.  With a house campaign listed before a
    paying one and limit 2, the first two of the three paid candidates
    are returned; with the house campaign alone and limit 1, the first
    of its two candidates. *)
Lemma retrieve_paid_then_house_witness :
  retrieve Sample.env (Fixture.cached_st [Fixture.house_data; Fixture.paid_data])
    Sample.anyone "sidebar-300x250" 2 None
  = Ok ([candidate Fixture.paid_data (Fixture.sized 3) false;
         candidate Fixture.paid_data (Fixture.sized 4) false],
        Fixture.cached_st [Fixture.house_data; Fixture.paid_data])
  /\ retrieve Sample.env (Fixture.cached_st [Fixture.house_data])
       Sample.anyone "sidebar-300x250" 1 None
     = Ok ([candidate Fixture.house_data (Fixture.sized 1) true],
           Fixture.cached_st [Fixture.house_data])
  /\ (forall returned st',
        retrieve Sample.env (Fixture.cached_st [Fixture.house_data; Fixture.paid_data])
          Sample.anyone "sidebar-300x250" 2 None = Ok (returned, st') ->
        (Z.of_nat (length returned) <= 2)%Z).
Proof.
  assert (forall cd, cd ∈ [Fixture.house_data; Fixture.paid_data] ->
            exists ok, campaign_matches Sample.env Sample.anyone None cd = Ok ok)
    as Hmatch.
  { intros cd Hin. apply elem_of_cons in Hin as [-> | Hin];
      [|apply list_elem_of_singleton in Hin as ->];
      eexists; vm_compute; reflexivity. }
  destruct (retrieve_paid_then_house Sample.env
              (Fixture.cached_st [Fixture.house_data; Fixture.paid_data])
              Sample.anyone "sidebar-300x250" 2 None) as [Hpaid Hbound]; [lia|].
  destruct (retrieve_paid_then_house Sample.env
              (Fixture.cached_st [Fixture.house_data])
              Sample.anyone "sidebar-300x250" 1 None) as [Hhouse _]; [lia|].
  split; [|split].
  - apply (Hpaid [Fixture.house_data; Fixture.paid_data]
             (Fixture.cached_st [Fixture.house_data; Fixture.paid_data])
             (Some (300, 250)%Z));
      [reflexivity | cbn; lia | reflexivity | exact Hmatch].
  - apply (Hhouse [Fixture.house_data] (Fixture.cached_st [Fixture.house_data])
             (Some (300, 250)%Z));
      [reflexivity | cbn; lia | reflexivity |].
    intros cd Hin. apply Hmatch. apply elem_of_cons. left.
    by apply list_elem_of_singleton in Hin.
  - exact Hbound.
Defined.

(** The end-to-end example: one active CPM campaign with one active
    300x250 creative and the slot "sidebar-300x250" give exactly one
    candidate, and the snapshot is cached for 300 seconds. *)
Example retrieve_end_to_end :
  exists returned st',
    retrieve Sample.env Sample.st Sample.anyone "sidebar-300x250" 100 None
      = Ok (returned, st')
    /\ (fun c => (campaign_id c, ac_creative_id c, ac_is_house_ad c)) <$> returned
       = [(5%Z, 3%Z, false)]
    /\ active_ads (redis st') = Some (CachedSnapshot Sample.snapshot, Some 300%Z).
Proof. eexists _, _. split; [vm_compute; reflexivity|]. split; reflexivity. Qed.

(* ===================================================================== *)
(** * Further properties of the event service                             *)
(* ===================================================================== *)

Import Observed.

(** ** Shape of a parsed ad identifier *)

Lemma split_length_separators sep s :
  length (split sep s) = 1%nat -> sall (fun c => negb (Ascii.eqb c sep)) s = true.
Proof.
  induction s as [|c r IH]; cbn; [done|].
  pose proof (split_nonempty sep r) as Hne.
  destruct (Ascii.eqb c sep); cbn.
  - destruct (split sep r); [done|]. cbn. lia.
  - destruct (split sep r) as [|p ps] eqn:E; [done|].
    cbn in *. exact IH.
Qed.

(** X1.  [_parse_ad_id] never raises, and its answer has one of three
    shapes: nothing at all, a campaign alone, or a campaign with a
    creative; it never gives a creative without a campaign.  A campaign
    alone is the answer exactly when the text has no underscore and [int]
    reads it as that campaign. *)
Theorem parse_ad_id_shape (ad_id : string) :
  exists campaign creative,
    _parse_ad_id ad_id = Ok (campaign, creative)
    /\ (is_Some creative -> is_Some campaign)
    /\ (forall z,
          campaign = Some z /\ creative = None <->
          sall (fun c => negb (Ascii.eqb c "_")) ad_id = true /\ int ad_id = Ok z).
Proof.
  unfold _parse_ad_id.
  destruct (Nat.leb_spec 2 (length (split "_" ad_id))) as [Hlen|Hlen].
  - assert (forall z, ~ (sall (fun c => negb (Ascii.eqb c "_")) ad_id = true
                         /\ int ad_id = Ok z)) as Hno.
    { intros z [Hsep _]. rewrite (split_single _ _ Hsep) in Hlen. cbn in Hlen. lia. }
    assert (forall r : result (option Z * option Z),
              (r = Ok (None, None) \/ exists a b, r = Ok (Some a, Some b)) ->
              exists campaign creative,
                r = Ok (campaign, creative)
                /\ (is_Some creative -> is_Some campaign)
                /\ (forall z,
                      campaign = Some z /\ creative = None <->
                      sall (fun c => negb (Ascii.eqb c "_")) ad_id = true
                      /\ int ad_id = Ok z)) as Hshape.
    { intros r [-> | (a & b & ->)].
      - exists None, None. split; [done|]. split; [by intros [? [=]]|].
        intros z. split; [by intros [[=] _]|]. intros H. by apply Hno in H.
      - exists (Some a), (Some b). split; [done|]. split; [eauto|].
        intros z. split; [by intros [_ [=]]|]. intros H. by apply Hno in H. }
    apply Hshape.
    destruct ((3 <=? length (split "_" ad_id))%nat
              && bool_decide (split "_" ad_id !! 0%nat = Some "ad"));
      repeat match goal with
        | |- context [index ?l ?i] =>
            let E := fresh in
            destruct (index l i) eqn:E; [|apply index_raises in E; subst]; cbn
        | |- context [int ?s] =>
            let E := fresh in
            destruct (int s) eqn:E; [|apply int_raises in E; subst]; cbn
        end; eauto.
  - assert (length (split "_" ad_id) = 1%nat) as Hone.
    { pose proof (split_nonempty "_" ad_id). destruct (split "_" ad_id); [done|].
      cbn in *. lia. }
    pose proof (split_length_separators _ _ Hone) as Hsep.
    replace ((3 <=? length (split "_" ad_id))%nat) with false
      by (symmetry; apply Nat.leb_gt; lia).
    cbn [andb].
    destruct (int ad_id) as [a|ea] eqn:Ea; [|apply int_raises in Ea; subst]; cbn.
    + exists (Some a), None. split; [done|]. split; [by intros [? [=]]|].
      intros z. split; [intros [[= ->] _]; done | intros [_ [= ->]]; done].
    + exists None, None. split; [done|]. split; [by intros [? [=]]|].
      intros z. split; [by intros [[=] _] | by intros [_ [=]]].
Qed.

(** ** What a tracked event does to the counters *)

Lemma calculate_cost_redis st ty campaign :
  redis (_calculate_cost st ty campaign).2 = redis st.
Proof. apply (calculate_cost_effect st ty campaign). Qed.

Lemma update_stats_count env st cid ty c h f :
  stat_count (_update_stats env st (Some cid) ty) c h f
  = (stat_count st c h f
     + if bool_decide (c = cid /\ h = current_hour env /\ f = stat_field ty)
       then 1 else 0)%Z.
Proof.
  unfold stat_count, _update_stats. cbn [redis with_redis stat_hourly].
  fold (stat_field ty).
  destruct (decide ((c, h) = (cid, current_hour env))) as [[= -> ->]|Hkey].
  - rewrite lookup_insert_eq. cbn.
    destruct (decide (f = stat_field ty)) as [->|Hf].
    + rewrite lookup_insert_eq, bool_decide_eq_true_2 by done.
      cbn. destruct (stat_hourly (redis st) !! (cid, current_hour env)); cbn;
        rewrite ?lookup_empty; cbn; lia.
    + rewrite lookup_insert_ne by done.
      rewrite bool_decide_eq_false_2 by (intros (_ & _ & ?); done).
      destruct (stat_hourly (redis st) !! (cid, current_hour env)); cbn;
        rewrite ?lookup_empty; cbn; lia.
  - rewrite lookup_insert_ne by done.
    rewrite bool_decide_eq_false_2 by (intros (-> & -> & _); done). lia.
Qed.

(** The state that a successful call leaves, step by step. *)
Lemma track_event_success env st st' request_id ad_id event_type user_id timestamp
    campaign creative ty :
  track_event env st request_id ad_id event_type user_id timestamp = (true, st') ->
  _parse_ad_id ad_id = Ok (campaign, creative) ->
  _get_event_type event_type = Some ty ->
  exists e st3,
    redis st3 = redis (_update_stats env st campaign ty)
    /\ campaigns st3 = campaigns (_calculate_cost st ty campaign).2
    /\ events st3 = (events st ++ [e])%list
    /\ st' = if bool_decide (ty = IMPRESSION) && truthy_str user_id
             then _update_frequency env st3 (default "" user_id) campaign
             else st3.
Proof.
  intros Htrack Hparse Hty.
  destruct (track_event_unfold env st request_id ad_id event_type user_id timestamp)
    as (campaign' & creative' & Hparse' & Heq).
  rewrite Hparse in Hparse'. injection Hparse' as <- <-.
  rewrite Heq, Hty in Htrack. clear Heq.
  destruct (event_time_of env timestamp) as [t|]; [|discriminate].
  cbn zeta in Htrack.
  destruct (db_accepts env _); [|discriminate].
  apply (f_equal snd) in Htrack. cbn [snd] in Htrack.
  pose proof (calculate_cost_effect st ty campaign) as (Hev & Hredis & _).
  cbn zeta in Hev, Hredis.
  eexists _, _. split; [|split; [|split; [|symmetry; exact Htrack]]].
  - unfold _update_stats. destruct campaign; cbn [redis with_redis]; by rewrite ?Hredis.
  - unfold _update_stats. by destruct campaign.
  - unfold _update_stats. destruct campaign; cbn [events with_redis]; by rewrite Hev.
Qed.

(** X2.  A tracked event (a call of [track_event] that returns true)
    whose ad identifier names a campaign adds one to exactly one field of
    that campaign's hourly stat hash -- impressions, clicks or conversions
    according to the event type, under the current hour -- leaves every
    other field of every hash as it was, and sets the hash to expire after
    48 hours.  A tracked event without campaign leaves the hourly stats
    and their expiry untouched. *)
Theorem tracked_event_counts_stat (env : Env) (st st' : State)
    (request_id ad_id event_type : string) (user_id : option string)
    (timestamp : option Z) (campaign : option Z) (creative : option Z)
    (ty : EventType) :
  track_event env st request_id ad_id event_type user_id timestamp = (true, st') ->
  _parse_ad_id ad_id = Ok (campaign, creative) ->
  _get_event_type event_type = Some ty ->
  match campaign with
  | Some cid =>
      (forall c h f,
         stat_count st' c h f
         = (stat_count st c h f
            + if bool_decide (c = cid /\ h = current_hour env /\ f = stat_field ty)
              then 1 else 0)%Z)
      /\ stat_hourly_ttl (redis st')
         = <[(cid, current_hour env) := 172800%Z]> (stat_hourly_ttl (redis st))
  | None =>
      stat_hourly (redis st') = stat_hourly (redis st)
      /\ stat_hourly_ttl (redis st') = stat_hourly_ttl (redis st)
  end.
Proof.
  intros Htrack Hparse Hty.
  destruct (track_event_success _ _ _ _ _ _ _ _ _ _ _ Htrack Hparse Hty)
    as (e & st3 & Hredis & _ & _ & ->).
  assert (forall c h f, stat_count st3 c h f
                        = stat_count (_update_stats env st campaign ty) c h f) as Hcount.
  { intros c h f. unfold stat_count. by rewrite Hredis. }
  assert (forall (st0 : State) b u,
            (forall c h f,
               stat_count (if b : bool then _update_frequency env st0 u campaign else st0) c h f
               = stat_count st0 c h f)
            /\ stat_hourly (redis (if b then _update_frequency env st0 u campaign else st0))
               = stat_hourly (redis st0)
            /\ stat_hourly_ttl (redis (if b then _update_frequency env st0 u campaign else st0))
               = stat_hourly_ttl (redis st0)) as Hfreq.
  { intros st0 [] u; [|done]. unfold stat_count, _update_frequency.
    by destruct campaign. }
  destruct campaign as [cid|].
  - split.
    + intros c h f. rewrite (proj1 (Hfreq _ _ _)), Hcount. apply update_stats_count.
    + rewrite (proj2 (proj2 (Hfreq _ _ _))), Hredis. reflexivity.
  - rewrite (proj1 (proj2 (Hfreq _ _ _))), (proj2 (proj2 (Hfreq _ _ _))), Hredis.
    done.
Qed.

Lemma tracked_event_counts_stat_witness :
  stat_count Sample.tracked 5 "2023-11-14-22" "impressions" = 1%Z
  /\ stat_count Sample.tracked 5 "2023-11-14-22" "clicks" = 0%Z
  /\ stat_hourly_ttl (redis Sample.tracked) !! (5%Z, "2023-11-14-22") = Some 172800%Z.
Proof.
  destruct (tracked_event_counts_stat Sample.env Sample.st Sample.tracked
              "req-1" "5_3" "v" None None (Some 5%Z) (Some 3%Z) IMPRESSION)
    as [Hcount Httl]; [by vm_compute | reflexivity | reflexivity |].
  split; [|split].
  - rewrite Hcount. reflexivity.
  - rewrite Hcount. reflexivity.
  - rewrite Httl. apply lookup_insert_eq.
Defined.

(** X3.  A tracked impression that carries a non-empty user id and names
    a campaign adds one to the user's daily and to the user's hourly
    frequency counter of that campaign (counting from 0 when the counter
    is absent), sets the daily counter to expire after 24 hours and the
    hourly one after one hour, and changes no other frequency counter. *)
Theorem identified_impression_counts_frequency (env : Env) (st st' : State)
    (request_id ad_id event_type user : string) (timestamp : option Z)
    (cid : Z) (creative : option Z) :
  track_event env st request_id ad_id event_type (Some user) timestamp = (true, st') ->
  _parse_ad_id ad_id = Ok (Some cid, creative) ->
  _get_event_type event_type = Some IMPRESSION ->
  user <> "" ->
  let daily_key := (user, cid, current_date env) in
  let hourly_key := (user, cid, current_hour env) in
  freq_daily (redis st')
    = <[daily_key := (default 0 (freq_daily (redis st) !! daily_key) + 1)%Z]>
        (freq_daily (redis st))
  /\ freq_daily_ttl (redis st') = <[daily_key := 86400%Z]> (freq_daily_ttl (redis st))
  /\ freq_hourly (redis st')
     = <[hourly_key := (default 0 (freq_hourly (redis st) !! hourly_key) + 1)%Z]>
         (freq_hourly (redis st))
  /\ freq_hourly_ttl (redis st') = <[hourly_key := 3600%Z]> (freq_hourly_ttl (redis st)).
Proof.
  intros Htrack Hparse Hty Huser.
  destruct (track_event_success _ _ _ _ _ _ _ _ _ _ _ Htrack Hparse Hty)
    as (e & st3 & Hredis & _ & _ & ->).
  rewrite bool_decide_eq_true_2 by done.
  unfold truthy_str. rewrite (proj2 (String.eqb_neq _ _) Huser).
  cbn [negb andb default from_option id].
  unfold _update_frequency.
  cbn [redis with_redis freq_daily freq_daily_ttl freq_hourly freq_hourly_ttl].
  rewrite Hredis. unfold _update_stats. cbn. done.
Qed.

Lemma identified_impression_counts_frequency_witness :
  let st' := (track_event Sample.env Sample.tracked "req-2" "5_3" "imp"
                (Some "u1") None).2 in
  freq_daily (redis st') !! ("u1", 5%Z, "2023-11-14") = Some 1%Z
  /\ freq_hourly_ttl (redis st') !! ("u1", 5%Z, "2023-11-14-22") = Some 3600%Z.
Proof.
  cbn zeta.
  destruct (identified_impression_counts_frequency Sample.env Sample.tracked
              (track_event Sample.env Sample.tracked "req-2" "5_3" "imp"
                 (Some "u1") None).2
              "req-2" "5_3" "imp" "u1" None 5 (Some 3%Z))
    as (Hd & _ & _ & Hh); [by vm_compute | reflexivity | reflexivity | discriminate |].
  split.
  - rewrite Hd. rewrite lookup_insert_eq. reflexivity.
  - rewrite Hh. apply lookup_insert_eq.
Defined.

(** ** What [track_event] never does *)

Lemma track_event_state env st request_id ad_id event_type user_id timestamp :
  let st' := (track_event env st request_id ad_id event_type user_id timestamp).2 in
  st' = st
  \/ exists ty campaign e,
       campaigns st' = campaigns (_calculate_cost st ty campaign).2
       /\ events st' = (events st ++ [e])%list
       /\ active_ads (redis st') = active_ads (redis st).
Proof.
  cbn zeta.
  destruct (track_event_unfold env st request_id ad_id event_type user_id timestamp)
    as (campaign & creative & _ & ->).
  destruct (_get_event_type event_type) as [ty|]; [|by left].
  destruct (event_time_of env timestamp) as [t|]; [|by left].
  cbn zeta. destruct (db_accepts env _); [|by left].
  right. exists ty, campaign. eexists.
  pose proof (calculate_cost_effect st ty campaign) as (Hev & Hredis & _).
  cbn zeta in Hev, Hredis. cbn [snd].
  destruct (bool_decide (ty = IMPRESSION) && truthy_str user_id);
    unfold _update_frequency, _update_stats; destruct campaign;
    cbn [campaigns events redis with_redis active_ads];
    rewrite ?Hev, ?Hredis; done.
Qed.

Lemma calculate_cost_lookup st ty campaign cid :
  match campaigns st !! cid with
  | None => campaigns (_calculate_cost st ty campaign).2 !! cid = None
  | Some c =>
      exists c',
        campaigns (_calculate_cost st ty campaign).2 !! cid = Some c'
        /\ clear_spend c' = clear_spend c
        /\ (Spec.amount (spent_today c) <= Spec.amount (spent_today c'))%Q
        /\ (Spec.amount (spent_total c) <= Spec.amount (spent_total c'))%Q
  end.
Proof.
  assert (match campaigns st !! cid with
          | None => campaigns st !! cid = None
          | Some c =>
              exists c',
                campaigns st !! cid = Some c'
                /\ clear_spend c' = clear_spend c
                /\ (Spec.amount (spent_today c) <= Spec.amount (spent_today c'))%Q
                /\ (Spec.amount (spent_total c) <= Spec.amount (spent_total c'))%Q
          end) as Hsame.
  { destruct (campaigns st !! cid) as [c|]; [|done].
    exists c. repeat split; try done; apply Qle_refl. }
  unfold _calculate_cost.
  destruct campaign as [k|]; [|exact Hsame].
  destruct (campaigns st !! k) as [c|] eqn:Hc; [|exact Hsame].
  destruct (house c); [exact Hsame|].
  match goal with
  | |- context [positive ?x] => generalize x; intros cost
  end.
  destruct (positive cost) eqn:Hpos; [|exact Hsame].
  apply positive_iff in Hpos. cbn [snd campaigns].
  destruct (decide (k = cid)) as [->|Hne].
  - rewrite Hc, lookup_insert_eq. eexists. split; [reflexivity|].
    split; [reflexivity|].
    cbn [spent_today spent_total]. unfold Spec.amount at 2 4.
    cbn [default from_option id].
    split; rewrite or_zero_amount;
      rewrite <- (Qplus_0_r (Spec.amount _)) at 1;
      apply Qplus_le_compat; try apply Qle_refl; by apply Qlt_le_weak.
  - rewrite lookup_insert_ne by done. exact Hsame.
Qed.

(** X4.  [track_event] never adds or removes a campaign and never changes
    a column of a campaign other than spent_today and spent_total, and
    these two (an empty column counting as 0) never decrease. *)
Theorem track_event_keeps_campaigns (env : Env) (st : State)
    (request_id ad_id event_type : string) (user_id : option string)
    (timestamp : option Z) (cid : Z) :
  let st' := (track_event env st request_id ad_id event_type user_id timestamp).2 in
  match campaigns st !! cid with
  | None => campaigns st' !! cid = None
  | Some campaign =>
      exists campaign',
        campaigns st' !! cid = Some campaign'
        /\ clear_spend campaign' = clear_spend campaign
        /\ (Spec.amount (spent_today campaign)
              <= Spec.amount (spent_today campaign'))%Q
        /\ (Spec.amount (spent_total campaign)
              <= Spec.amount (spent_total campaign'))%Q
  end.
Proof.
  cbn zeta.
  destruct (track_event_state env st request_id ad_id event_type user_id timestamp)
    as [-> | (ty & campaign & e & -> & _ & _)].
  - destruct (campaigns st !! cid) as [c|]; [|done].
    exists c. repeat split; try done; apply Qle_refl.
  - apply calculate_cost_lookup.
Qed.

(** X5.  [track_event] only ever appends to the event log, at most one
    event per call, and never touches the cache of active campaigns: a
    snapshot that was cached before the call is still what a lookup
    returns after it, at any later time, so the retrieval does not see
    the spend of a tracked event as long as the cache entry stands. *)
Theorem track_event_keeps_log_and_cache (env env' : Env) (st : State)
    (request_id ad_id event_type : string) (user_id : option string)
    (timestamp : option Z) :
  let st' := (track_event env st request_id ad_id event_type user_id timestamp).2 in
  events st `prefix_of` events st'
  /\ (length (events st') <= S (length (events st)))%nat
  /\ active_ads (redis st') = active_ads (redis st)
  /\ (forall cached ttl,
        active_ads (redis st) = Some (CachedSnapshot cached, ttl) ->
        _get_active_campaigns env' st' = Ok (cached, st')).
Proof.
  cbn zeta.
  destruct (track_event_state env st request_id ad_id event_type user_id timestamp)
    as [-> | (ty & campaign & e & _ & Hev & Hcache)].
  - repeat split; [done | lia | ].
    intros cached ttl Hhit. unfold _get_active_campaigns. by rewrite Hhit.
  - rewrite Hev, Hcache. repeat split.
    + by apply prefix_app_r.
    + rewrite length_app. cbn. lia.
    + intros cached ttl Hhit. unfold _get_active_campaigns.
      by rewrite Hcache, Hhit.
Qed.

(** ** Timestamps that are no dates *)

(** X6.  An event whose timestamp lies outside the years 1 to 9999 (before
    -62135596800 or after 253402300799 seconds; a timestamp given in
    milliseconds does) is dropped: [track_event] returns false and leaves
    the whole state as it was, whatever the ad identifier, the event type
    and the user. *)
Theorem out_of_range_timestamp_is_dropped (env : Env) (st : State)
    (request_id ad_id event_type : string) (user_id : option string) (timestamp : Z) :
  (timestamp < -62135596800 \/ 253402300799 < timestamp)%Z ->
  track_event env st request_id ad_id event_type user_id (Some timestamp) = (false, st).
Proof.
  intros Hrange.
  destruct (track_event_unfold env st request_id ad_id event_type user_id
              (Some timestamp)) as (campaign & creative & _ & ->).
  destruct (_get_event_type event_type) as [ty|]; [|reflexivity].
  unfold event_time_of, fromtimestamp.
  destruct (Z.eqb_spec timestamp 0) as [-> | _]; [lia|].
  destruct (Z.leb_spec (-62135596800) timestamp), (Z.leb_spec timestamp 253402300799);
    try reflexivity; lia.
Qed.

Lemma out_of_range_timestamp_is_dropped_witness :
  track_event Sample.env Sample.st "req-1" "5_3" "v" (Some "u1") (Some 1700000000000%Z)
  = (false, Sample.st).
Proof.
  apply (out_of_range_timestamp_is_dropped Sample.env Sample.st "req-1" "5_3" "v"
           (Some "u1") 1700000000000).
  right. lia.
Defined.

(** ** Replayed events *)

(** A successful call, with the event that it logs. *)
Lemma track_event_logged env st st' request_id ad_id event_type user_id timestamp :
  track_event env st request_id ad_id event_type user_id timestamp = (true, st') ->
  exists campaign creative ty t,
    _parse_ad_id ad_id = Ok (campaign, creative)
    /\ _get_event_type event_type = Some ty
    /\ events st'
       = (events st
          ++ [{| request_id := request_id; ev_campaign_id := campaign;
                 ev_creative_id := creative; event_type := ty; event_time := t;
                 user_id := user_id;
                 cost := (_calculate_cost st ty campaign).1 |}])%list
    /\ campaigns st' = campaigns (_calculate_cost st ty campaign).2.
Proof.
  intros Htrack.
  destruct (track_event_unfold env st request_id ad_id event_type user_id timestamp)
    as (campaign & creative & Hparse & Heq).
  rewrite Heq in Htrack. clear Heq.
  destruct (_get_event_type event_type) as [ty|]; [|discriminate].
  destruct (event_time_of env timestamp) as [t|]; [|discriminate].
  cbn zeta in Htrack.
  destruct (db_accepts env _); [|discriminate].
  apply (f_equal snd) in Htrack. cbn [snd] in Htrack. subst st'.
  exists campaign, creative, ty, t. split; [done|]. split; [done|].
  pose proof (calculate_cost_effect st ty campaign) as (Hev & _).
  cbn zeta in Hev.
  destruct (bool_decide (ty = IMPRESSION) && truthy_str user_id);
    rewrite ?(proj1 (update_frequency_frame _ _ _ _)),
            ?(proj2 (update_frequency_frame _ _ _ _)),
            ?(proj1 (update_stats_frame _ _ _ _)),
            ?(proj1 (proj2 (update_stats_frame _ _ _ _)));
    cbn [events campaigns]; by rewrite Hev.
Qed.

(** The cost of an event reads the campaign's bid type, bid amount and
    house flag only. *)
Lemma calculate_cost_reads st st' ty campaign :
  (forall cid, campaign = Some cid ->
     clear_spend <$> campaigns st !! cid = clear_spend <$> campaigns st' !! cid) ->
  (_calculate_cost st ty campaign).1 = (_calculate_cost st' ty campaign).1.
Proof.
  intros Hsame. unfold _calculate_cost.
  destruct campaign as [cid|]; [|done].
  specialize (Hsame cid eq_refl).
  destruct (campaigns st !! cid) as [c|], (campaigns st' !! cid) as [c'|];
    try discriminate Hsame; [|done].
  assert (clear_spend c = clear_spend c') as Hc.
  { cbn [fmap option_fmap option_map] in Hsame. congruence. }
  assert (bid_type c = bid_type c') as <- by exact (f_equal bid_type Hc).
  assert (bid_amount c = bid_amount c') as <- by exact (f_equal bid_amount Hc).
  assert (house c = house c') as <-.
  { unfold house. by rewrite (f_equal is_house_ad Hc : is_house_ad c = is_house_ad c'). }
  destruct (house c); [done|].
  match goal with
  | |- (if positive ?x then _ else _).1 = (if positive ?x then _ else _).1 =>
      by destruct (positive x)
  end.
Qed.

Lemma calculate_cost_spend st ty cid campaign :
  campaigns st !! cid = Some campaign ->
  (0 < (_calculate_cost st ty (Some cid)).1)%Q ->
  exists campaign',
    campaigns (_calculate_cost st ty (Some cid)).2 !! cid = Some campaign'
    /\ (Spec.amount (spent_today campaign')
          == Spec.amount (spent_today campaign) + (_calculate_cost st ty (Some cid)).1)%Q
    /\ (Spec.amount (spent_total campaign')
          == Spec.amount (spent_total campaign) + (_calculate_cost st ty (Some cid)).1)%Q.
Proof.
  intros Hc Hpos.
  pose proof (calculate_cost_effect st ty (Some cid)) as (_ & _ & Hcharge & _).
  cbn zeta in Hcharge.
  destruct (Hcharge Hpos) as (cid' & c & c' & [= <-] & Hc' & -> & Htoday & Htotal).
  rewrite Hc in Hc'. injection Hc' as <-.
  exists c'. by rewrite lookup_insert_eq.
Qed.

(** X7.  [track_event] does not recognise a repeated request.  When the
    same call is tracked twice, the event log grows by two events with
    the same request id, campaign, creative, event type and cost, and if
    that cost is greater than 0 the campaign's spent_today and
    spent_total each grow by twice the cost. *)
Theorem replayed_event_is_charged_again (env : Env) (st st1 st2 : State)
    (request_id ad_id event_type : string) (user_id : option string)
    (timestamp : option Z) :
  track_event env st request_id ad_id event_type user_id timestamp = (true, st1) ->
  track_event env st1 request_id ad_id event_type user_id timestamp = (true, st2) ->
  exists e1 e2,
    events st2 = (events st ++ [e1; e2])%list
    /\ Model.request_id e1 = request_id /\ Model.request_id e2 = request_id
    /\ ev_campaign_id e2 = ev_campaign_id e1
    /\ ev_creative_id e2 = ev_creative_id e1
    /\ Model.event_type e2 = Model.event_type e1
    /\ cost e2 = cost e1
    /\ forall cid campaign,
         ev_campaign_id e1 = Some cid ->
         campaigns st !! cid = Some campaign ->
         (0 < cost e1)%Q ->
         exists campaign2,
           campaigns st2 !! cid = Some campaign2
           /\ (Spec.amount (spent_today campaign2)
                 == Spec.amount (spent_today campaign) + cost e1 + cost e1)%Q
           /\ (Spec.amount (spent_total campaign2)
                 == Spec.amount (spent_total campaign) + cost e1 + cost e1)%Q.
Proof.
  intros H1 H2.
  apply track_event_logged in H1
    as (campaign & creative & ty & t1 & Hparse & Hty & Hev1 & Hc1).
  apply track_event_logged in H2
    as (campaign' & creative' & ty' & t2 & Hparse' & Hty' & Hev2 & Hc2).
  rewrite Hparse in Hparse'. injection Hparse' as <- <-.
  rewrite Hty in Hty'. injection Hty' as <-.
  assert ((_calculate_cost st1 ty campaign).1 = (_calculate_cost st ty campaign).1)
    as Hcost.
  { apply calculate_cost_reads. intros cid ->. rewrite Hc1.
    pose proof (calculate_cost_lookup st ty (Some cid) cid) as Hlook.
    destruct (campaigns st !! cid) as [c|].
    - destruct Hlook as (c' & -> & Hclear & _). cbn. by rewrite Hclear.
    - by rewrite Hlook. }
  eexists _, _. split.
  { rewrite Hev2, Hev1, <- app_assoc. reflexivity. }
  cbn [Model.request_id ev_campaign_id ev_creative_id Model.event_type cost].
  split_and!; try done.
  intros cid c -> Hc Hpos.
  destruct (calculate_cost_spend st ty cid c Hc Hpos) as (c1 & Hl1 & Ht1 & Hu1).
  rewrite <- Hc1 in Hl1.
  destruct (calculate_cost_spend st1 ty cid c1 Hl1) as (c2 & Hl2 & Ht2 & Hu2);
    [by rewrite Hcost|].
  rewrite <- Hc2 in Hl2. exists c2. split; [done|].
  rewrite Hcost in Ht2, Hu2. split.
  - by rewrite Ht2, Ht1.
  - by rewrite Hu2, Hu1.
Qed.

Lemma replayed_event_is_charged_again_witness :
  exists e1 e2,
    events (track_event Sample.env Sample.tracked "req-1" "5_3" "v" None None).2
    = [e1; e2]
    /\ cost e2 = cost e1.
Proof.
  destruct (replayed_event_is_charged_again Sample.env Sample.st Sample.tracked
              (track_event Sample.env Sample.tracked "req-1" "5_3" "v" None None).2
              "req-1" "5_3" "v" None None)
    as (e1 & e2 & Hev & _ & _ & _ & _ & _ & Hcost & _); [reflexivity | reflexivity |].
  exists e1, e2. split; [exact Hev | exact Hcost].
Defined.

(* ===================================================================== *)
(** * Further properties of the cache and of the retrieval                *)
(* ===================================================================== *)

(** ** The campaign cache: repeated lookups and [refresh] *)

(** X8.  Looking the active campaigns up a second time gives the first
    answer and changes nothing more: whatever snapshot and state a call
    of [_get_active_campaigns] returns, a call in that state (at the same
    time) returns the same snapshot and the same state. *)
Theorem lookup_twice_same (env : Env) (st st' : State) (snapshot : list CampaignData) :
  _get_active_campaigns env st = Ok (snapshot, st') ->
  _get_active_campaigns env st' = Ok (snapshot, st').
Proof.
  unfold _get_active_campaigns at 1.
  destruct (active_ads (redis st)) as [[[cached|] ttl]|] eqn:Hcache.
  - intros [= <- <-]. unfold _get_active_campaigns. by rewrite Hcache.
  - destruct (snapshot_loop env (query_active st)) as [built|] eqn:Hloop;
      [|discriminate]. cbn.
    destruct built as [|d ds].
    + intros [= <- <-]. unfold _get_active_campaigns. by rewrite Hcache, Hloop.
    + intros [= <- <-]. reflexivity.
  - destruct (snapshot_loop env (query_active st)) as [built|] eqn:Hloop;
      [|discriminate]. cbn.
    destruct built as [|d ds].
    + intros [= <- <-]. unfold _get_active_campaigns. by rewrite Hcache, Hloop.
    + intros [= <- <-]. reflexivity.
Qed.

Lemma lookup_twice_same_witness :
  _get_active_campaigns Sample.env
    (set_active_ads Sample.st Sample.snapshot _cache_ttl)
  = Ok (Sample.snapshot, set_active_ads Sample.st Sample.snapshot _cache_ttl).
Proof.
  apply (lookup_twice_same Sample.env Sample.st). vm_compute. reflexivity.
Defined.

(** X9.  [refresh] deletes the cache entry and nothing else (the campaign
    table, the event log, the hourly stats and the frequency counters
    stay), and the lookup that follows it builds its answer from the
    campaign table: each campaign of the returned snapshot is a row of
    status ACTIVE that [is_active] accepts, converted by the snapshot
    builder.  Before the refresh, a cached snapshot is returned as it
    stands. *)
Theorem refresh_forces_rebuild (env : Env) (st : State) :
  campaigns (refresh st) = campaigns st
  /\ events (refresh st) = events st
  /\ Spec.frequency_counters (refresh st) = Spec.frequency_counters st
  /\ stat_hourly (redis (refresh st)) = stat_hourly (redis st)
  /\ (forall cached ttl,
        active_ads (redis st) = Some (CachedSnapshot cached, ttl) ->
        _get_active_campaigns env st = Ok (cached, st))
  /\ (forall snapshot st',
        _get_active_campaigns env (refresh st) = Ok (snapshot, st') ->
        snapshot_loop env (query_active st) = Ok snapshot
        /\ forall d,
             d ∈ snapshot ->
             exists campaign,
               campaigns st !! cd_id d = Some campaign
               /\ status campaign = ACTIVE
               /\ campaign_is_active env campaign = true
               /\ build_campaign_data (cd_id d) campaign = Ok d).
Proof.
  repeat split.
  - intros cached ttl Hhit. unfold _get_active_campaigns. by rewrite Hhit.
  - revert H. unfold _get_active_campaigns. cbn [refresh redis with_redis active_ads].
    change (query_active (refresh st)) with (query_active st).
    destruct (snapshot_loop env (query_active st)) as [built|]; [|discriminate].
    cbn. destruct built; by intros [= <- _].
  - revert H. unfold _get_active_campaigns. cbn [refresh redis with_redis active_ads].
    change (query_active (refresh st)) with (query_active st).
    destruct (snapshot_loop env (query_active st)) as [built|] eqn:Hloop;
      [|discriminate].
    cbn. intros Hout.
    assert (snapshot = built) as -> by (destruct built; congruence).
    intros d (id & campaign & Hin & Hact & Hbuild & _)%(snapshot_loop_elements env _ _ Hloop).
    pose proof (build_campaign_data_carries _ _ _ Hbuild) as (<- & _).
    exists campaign.
    destruct (query_active_rows st) as (_ & Hrows & _).
    destruct (Hrows _ _ Hin). done.
Qed.

Lemma refresh_forces_rebuild_witness :
  let stale := set_active_ads Sample.empty_st Sample.snapshot _cache_ttl in
  _get_active_campaigns Sample.env stale = Ok (Sample.snapshot, stale)
  /\ _get_active_campaigns Sample.env (refresh stale) = Ok ([], refresh stale).
Proof.
  cbn zeta.
  pose proof (refresh_forces_rebuild Sample.env
                (set_active_ads Sample.empty_st Sample.snapshot _cache_ttl))
    as (_ & _ & _ & _ & Hhit & Hrebuild).
  split.
  - apply (Hhit Sample.snapshot (Some _cache_ttl)). reflexivity.
  - destruct (Hrebuild [] (refresh (set_active_ads Sample.empty_st Sample.snapshot
                                      _cache_ttl))) as [_ _]; reflexivity.
Defined.

(** ** Retrieval *)
(** X10.  [retrieve] never writes the campaign table, the event log, the
    hourly stats or the frequency counters.  The one thing it may change
    is the cache entry of the active campaigns: it leaves the state as it
    was, or it stores the snapshot just built from the campaign table,
    with an expiry of 300 seconds. *)
Theorem retrieve_only_writes_cache (env : Env) (st st' : State)
    (user_context : UserContext) (slot_id : string) (limit : Z)
    (kw_page_url : option string) (returned : list AdCandidate) :
  retrieve env st user_context slot_id limit kw_page_url = Ok (returned, st') ->
  campaigns st' = campaigns st
  /\ events st' = events st
  /\ Spec.frequency_counters st' = Spec.frequency_counters st
  /\ stat_hourly (redis st') = stat_hourly (redis st)
  /\ stat_hourly_ttl (redis st') = stat_hourly_ttl (redis st)
  /\ (st' = st
      \/ exists snapshot,
           snapshot_loop env (query_active st) = Ok snapshot
           /\ st' = set_active_ads st snapshot _cache_ttl).
Proof.
  unfold retrieve.
  destruct (_get_active_campaigns env st) as [[cached st1]|] eqn:Hget;
    [|discriminate].
  cbn [mbind result_bind].
  assert (campaigns st1 = campaigns st
          /\ events st1 = events st
          /\ Spec.frequency_counters st1 = Spec.frequency_counters st
          /\ stat_hourly (redis st1) = stat_hourly (redis st)
          /\ stat_hourly_ttl (redis st1) = stat_hourly_ttl (redis st)
          /\ (st1 = st
              \/ exists snapshot,
                   snapshot_loop env (query_active st) = Ok snapshot
                   /\ st1 = set_active_ads st snapshot _cache_ttl))
    as Hframe.
  { revert Hget. unfold _get_active_campaigns.
    destruct (active_ads (redis st)) as [[[hit|] ttl]|];
      try (intros [= <- <-]; by repeat split; try left);
      (destruct (snapshot_loop env (query_active st)) as [built|]; [|discriminate]);
      cbn; (destruct built; intros [= <- <-]; repeat split; try done;
            [by left | right; eexists; split; reflexivity]). }
  assert (forall r : result (list AdCandidate * State),
            (exists l, r = Ok (l, st1)) \/ (exists e, r = Raise e) ->
            r = Ok (returned, st') -> st' = st1) as Hst.
  { intros r [[l ->] | [e ->]]; [by intros [= _ <-] | discriminate]. }
  intros Hret. apply Hst in Hret as ->; [exact Hframe|].
  destruct cached; [left; eauto|].
  destruct (_parse_slot_dimensions slot_id); [|right; eauto].
  cbn [mbind result_bind].
  destruct (campaigns_loop _ _ _ _ _ _ _) as [[[|p ps] [|h hs]]|];
    cbn [mbind result_bind]; eauto.
Qed.

Lemma retrieve_only_writes_cache_witness :
  campaigns (set_active_ads Sample.st Sample.snapshot _cache_ttl) = campaigns Sample.st
  /\ events (set_active_ads Sample.st Sample.snapshot _cache_ttl) = [].
Proof.
  pose proof (retrieve_only_writes_cache Sample.env Sample.st
                (set_active_ads Sample.st Sample.snapshot _cache_ttl)
                Sample.anyone "sidebar-300x250" 100 None
                (Sample.snapshot ≫= Spec.candidates_of (Some (300, 250)%Z)))
    as Hframe.
  destruct Hframe as (Hcampaigns & Hevents & _); [vm_compute; reflexivity|].
  split; [exact Hcampaigns | exact Hevents].
Defined.


Lemma slice_to_subseteq {A} (l : list A) (n : Z) : slice_to l n ⊆ l.
Proof. unfold slice_to. destruct (0 <=? n)%Z; apply subseteq_take. Qed.

Lemma creatives_loop_buckets campaign_data h slot_dimensions limit creatives b c :
  let b' := creatives_loop campaign_data h slot_dimensions limit creatives b in
  c ∈ (b'.1 ++ b'.2)%list ->
  (c ∈ b'.1 -> h = true -> c ∈ b.1)
  /\ (c ∈ b'.2 -> h = false -> c ∈ b.2)
  /\ (c ∈ (b.1 ++ b.2)%list
      \/ exists creative_data,
           creative_data ∈ creatives
           /\ _creative_matches_slot creative_data slot_dimensions = true
           /\ c = candidate campaign_data creative_data h).
Proof.
  cbn zeta.
  destruct (creatives_loop_prefix slot_dimensions limit campaign_data h creatives b)
    as (seen & rest & Hsplit & -> & _).
  assert (forall x, x ∈ seen ->
            exists creative_data,
              creative_data ∈ creatives
              /\ _creative_matches_slot creative_data slot_dimensions = true
              /\ x = candidate campaign_data creative_data h) as Hseen.
  { intros x Hx.
    assert (x ∈ (seen ++ rest)%list) as Hin by (apply elem_of_app; by left).
    rewrite <- Hsplit in Hin.
    apply list_elem_of_fmap in Hin as (cr & -> & Hcr).
    apply list_elem_of_filter in Hcr as [Hm Hcr]. eauto. }
  unfold Spec.extend. cbn [fst snd].
  intros Hc. repeat split.
  - intros [H1 | H1]%elem_of_app Hh; [done|].
    apply list_elem_of_filter in H1 as [Hpaid (cr & _ & _ & ->)%Hseen].
    cbn in Hpaid. congruence.
  - intros [H2 | H2]%elem_of_app Hh; [done|].
    apply list_elem_of_filter in H2 as [Hhouse (cr & _ & _ & ->)%Hseen].
    cbn in Hhouse. congruence.
  - rewrite !elem_of_app in Hc. rewrite elem_of_app.
    destruct Hc as [[?|H1] | [?|H2]]; auto.
    + apply list_elem_of_filter in H1 as [_ ?%Hseen]. auto.
    + apply list_elem_of_filter in H2 as [_ ?%Hseen]. auto.
Qed.

Lemma creatives_loop_house campaign_data h slot_dimensions limit creatives b :
  let b' := creatives_loop campaign_data h slot_dimensions limit creatives b in
  (forall c, c ∈ b.1 -> ac_is_house_ad c = false) ->
  (forall c, c ∈ b.2 -> ac_is_house_ad c = true) ->
  (forall c, c ∈ b'.1 -> ac_is_house_ad c = false)
  /\ (forall c, c ∈ b'.2 -> ac_is_house_ad c = true).
Proof.
  cbn zeta.
  destruct (creatives_loop_prefix slot_dimensions limit campaign_data h creatives b)
    as (seen & rest & _ & -> & _).
  unfold Spec.extend. cbn [fst snd]. intros H1 H2.
  split; intros c [?|[? _]%list_elem_of_filter]%elem_of_app; auto.
Qed.

Lemma campaigns_loop_buckets env user_context page_url slot_dimensions limit
    campaigns b b' :
  campaigns_loop env user_context page_url slot_dimensions limit campaigns b = Ok b' ->
  (forall c, c ∈ b.1 -> ac_is_house_ad c = false) ->
  (forall c, c ∈ b.2 -> ac_is_house_ad c = true) ->
  (forall c, c ∈ b'.1 -> ac_is_house_ad c = false)
  /\ (forall c, c ∈ b'.2 -> ac_is_house_ad c = true)
  /\ (forall c, c ∈ (b'.1 ++ b'.2)%list ->
        c ∈ (b.1 ++ b.2)%list
        \/ eligible env user_context page_url slot_dimensions campaigns c).
Proof.
  revert b. induction campaigns as [|cd cds IH]; intros b.
  - intros [= <-]. auto.
  - cbn [campaigns_loop].
    destruct (campaign_matches env user_context page_url cd) as [ok|] eqn:Hcd;
      [|discriminate].
    cbn [mbind result_bind].
    assert (forall c, eligible env user_context page_url slot_dimensions cds c ->
                      eligible env user_context page_url slot_dimensions (cd :: cds) c)
      as Hweaken.
    { intros c (cd' & cr & Hin & Hrest). exists cd', cr. split; [by right | done]. }
    destruct ok; cbn [negb].
    + set (b1 := creatives_loop cd (default false (cd_is_house_ad cd)) slot_dimensions
                   limit (cd_creatives cd) b).
      intros Hloop H1 H2.
      destruct (creatives_loop_house cd (default false (cd_is_house_ad cd))
                  slot_dimensions limit (cd_creatives cd) b H1 H2) as [H1' H2'].
      fold b1 in H1', H2'.
      assert (forall c, c ∈ (b1.1 ++ b1.2)%list ->
                c ∈ (b.1 ++ b.2)%list
                \/ eligible env user_context page_url slot_dimensions (cd :: cds) c)
        as Hfirst.
      { intros c Hc.
        destruct (creatives_loop_buckets cd (default false (cd_is_house_ad cd))
                    slot_dimensions limit (cd_creatives cd) b c Hc)
          as (_ & _ & [? | (cr & Hcr & Hm & ->)]); [by left|].
        right. exists cd, cr. split; [by left | done]. }
      destruct (both_full limit b1).
      * injection Hloop as <-. auto.
      * destruct (IH b1 Hloop H1' H2') as (? & ? & Hrest).
        repeat split; [done | done |].
        intros c [? | ?]%Hrest; auto.
    + intros Hloop H1 H2.
      destruct (IH b Hloop H1 H2) as (? & ? & Hrest).
      repeat split; [done | done |].
      intros c [? | ?]%Hrest; auto.
Qed.

(** X11.  Whatever [retrieve] returns, and wherever its loops stopped:
    each returned candidate is a creative of a campaign of the looked-up
    snapshot, that campaign passed rule, page and domain targeting for
    this request, and the creative passes the slot check -- so when the
    slot id carries dimensions and the creative has a width and a height,
    they are the slot's.  The returned list is never mixed: its candidates
    are all paid ads or all house ads. *)
Theorem retrieve_returns_eligible (env : Env) (st st' : State)
    (user_context : UserContext) (slot_id : string) (limit : Z)
    (kw_page_url : option string) (returned : list AdCandidate) :
  retrieve env st user_context slot_id limit kw_page_url = Ok (returned, st') ->
  exists cached slot_dimensions,
    _get_active_campaigns env st = Ok (cached, st')
    /\ _parse_slot_dimensions slot_id = Ok slot_dimensions
    /\ (forall c, c ∈ returned ->
          eligible env user_context
            (if truthy_str kw_page_url then kw_page_url else uc_page_url user_context)
            slot_dimensions cached c)
    /\ (forall c slot_width slot_height creative_width creative_height,
          c ∈ returned ->
          slot_dimensions = Some (slot_width, slot_height) ->
          ac_width c = Some creative_width ->
          ac_height c = Some creative_height ->
          creative_width = slot_width /\ creative_height = slot_height)
    /\ ((forall c, c ∈ returned -> ac_is_house_ad c = false)
        \/ (forall c, c ∈ returned -> ac_is_house_ad c = true)).
Proof.
  unfold retrieve.
  destruct (_get_active_campaigns env st) as [[cached st1]|] eqn:Hget;
    [|discriminate].
  cbn [mbind result_bind].
  destruct (parse_slot_dimensions_total slot_id) as [slot_dimensions Hparse].
  set (page_url := if truthy_str kw_page_url then kw_page_url
                   else uc_page_url user_context).
  assert (forall picked : list AdCandidate,
            (forall c, c ∈ picked ->
               eligible env user_context page_url slot_dimensions cached c) ->
            forall c slot_width slot_height creative_width creative_height,
              c ∈ picked ->
              slot_dimensions = Some (slot_width, slot_height) ->
              ac_width c = Some creative_width ->
              ac_height c = Some creative_height ->
              creative_width = slot_width /\ creative_height = slot_height) as Hfit.
  { intros picked Hel c sw sh cw ch (cd & cr & _ & _ & _ & Hm & ->)%Hel -> Hw Hh.
    cbn in Hw, Hh. unfold _creative_matches_slot in Hm. rewrite Hw, Hh in Hm.
    apply andb_prop in Hm as [?%Z.eqb_eq ?%Z.eqb_eq]. done. }
  destruct cached as [|cd cds].
  { intros [= <- <-]. exists [], slot_dimensions.
    split_and!; try done.
    - intros c Hin. by apply elem_of_nil in Hin.
    - intros c ? ? ? ? Hin. by apply elem_of_nil in Hin.
    - left. intros c Hin. by apply elem_of_nil in Hin. }
  rewrite Hparse. cbn [mbind result_bind]. fold page_url.
  destruct (campaigns_loop env user_context page_url slot_dimensions limit (cd :: cds)
              ([], [])) as [[paid house]|] eqn:Hloop; [|discriminate].
  cbn [mbind result_bind].
  destruct (campaigns_loop_buckets _ _ _ _ _ _ _ _ Hloop) as (Hpaid & Hhouse & Hel);
    [cbn; intros c Hin; by apply elem_of_nil in Hin
    |cbn; intros c Hin; by apply elem_of_nil in Hin|].
  cbn [fst snd] in Hpaid, Hhouse, Hel.
  assert (forall c, c ∈ (paid ++ house)%list ->
            eligible env user_context page_url slot_dimensions (cd :: cds) c) as Hall.
  { intros c [?%elem_of_nil | ?]%Hel; done. }
  intros Hout.
  assert (exists picked, returned = slice_to picked limit /\ st' = st1
                         /\ (picked = paid \/ picked = house)) as (picked & -> & -> & Hpick).
  { destruct paid as [|p ps]; [destruct house as [|h hs]|]; injection Hout as <- <-.
    - exists []. repeat split; auto. unfold slice_to. destruct (0 <=? limit)%Z; by rewrite take_nil.
    - eauto.
    - eauto. }
  assert (forall c, c ∈ slice_to picked limit ->
            eligible env user_context page_url slot_dimensions (cd :: cds) c) as Hsound.
  { intros c Hc%slice_to_subseteq. apply Hall, elem_of_app.
    destruct Hpick as [-> | ->]; auto. }
  exists (cd :: cds), slot_dimensions. split_and!; try done.
  - intros. eapply (Hfit _ Hsound c); eauto.
  - destruct Hpick as [-> | ->]; [left | right]; intros c Hc%slice_to_subseteq; auto.
Qed.

Lemma retrieve_returns_eligible_witness :
  exists cached,
    _get_active_campaigns Sample.env Sample.st
    = Ok (cached, set_active_ads Sample.st Sample.snapshot _cache_ttl).
Proof.
  destruct (retrieve_returns_eligible Sample.env Sample.st
              (set_active_ads Sample.st Sample.snapshot _cache_ttl)
              Sample.anyone "sidebar-300x250" 100 None
              (Sample.snapshot ≫= Spec.candidates_of (Some (300, 250)%Z)))
    as (cached & _ & Hget & _); [vm_compute; reflexivity|].
  exists cached. exact Hget.
Defined.

(** ** The limit *)

Lemma both_full_nonpositive limit b : (limit <= 0)%Z -> both_full limit b = true.
Proof.
  intros Hlimit. unfold both_full.
  apply andb_true_intro. split; apply Z.leb_le; lia.
Qed.

Lemma creatives_loop_nonpositive campaign_data h slot_dimensions limit creatives b :
  (limit <= 0)%Z ->
  let b' := creatives_loop campaign_data h slot_dimensions limit creatives b in
  (length b'.1 + length b'.2 <= S (length b.1 + length b.2))%nat.
Proof.
  intros Hlimit. cbn zeta.
  induction creatives as [|cr rest IH]; cbn [creatives_loop]; [lia|].
  destruct (_creative_matches_slot cr slot_dimensions); cbn [negb]; [|exact IH].
  rewrite both_full_nonpositive by done.
  destruct h; cbn [fst snd]; rewrite length_app; cbn; lia.
Qed.

Lemma campaigns_loop_nonpositive env user_context page_url slot_dimensions limit
    campaigns b b' :
  (limit <= 0)%Z ->
  campaigns_loop env user_context page_url slot_dimensions limit campaigns b = Ok b' ->
  (length b'.1 + length b'.2 <= S (length b.1 + length b.2))%nat.
Proof.
  intros Hlimit.
  induction campaigns as [|cd cds IH]; cbn [campaigns_loop].
  - intros [= <-]. lia.
  - destruct (campaign_matches env user_context page_url cd) as [[|]|];
      cbn [mbind result_bind negb]; [|exact IH|discriminate].
    rewrite both_full_nonpositive by done. intros [= <-].
    by apply creatives_loop_nonpositive.
Qed.

Lemma slice_to_length {A} (l : list A) (limit : Z) :
  (Z.of_nat (length (slice_to l limit)) <= Z.max 0 limit)%Z
  \/ ((limit < 0)%Z /\ (2 <= length l)%nat).
Proof.
  unfold slice_to. destruct (Z.leb_spec 0 limit) as [Hpos | Hneg].
  - left. rewrite length_take. lia.
  - destruct (Nat.leb_spec 2 (length l)); [by right | left].
    rewrite length_take. lia.
Qed.

(** X12.  [retrieve] never returns more candidates than the limit, and
    with a limit of 0 or less it returns none: the loops then stop at the
    first campaign that passes targeting, with at most one candidate
    collected, which the final slice drops. *)
Theorem retrieve_respects_limit (env : Env) (st st' : State)
    (user_context : UserContext) (slot_id : string) (limit : Z)
    (kw_page_url : option string) (returned : list AdCandidate) :
  retrieve env st user_context slot_id limit kw_page_url = Ok (returned, st') ->
  (Z.of_nat (length returned) <= Z.max 0 limit)%Z.
Proof.
  unfold retrieve.
  destruct (_get_active_campaigns env st) as [[cached st1]|]; [|discriminate].
  cbn [mbind result_bind].
  destruct cached as [|cd cds]; [intros [= <- _]; cbn; lia|].
  destruct (_parse_slot_dimensions slot_id) as [slot_dimensions|]; [|discriminate].
  cbn [mbind result_bind].
  destruct (campaigns_loop _ _ _ _ _ _ _) as [[paid house]|] eqn:Hloop; [|discriminate].
  cbn [mbind result_bind].
  assert ((limit <= 0)%Z -> (length paid + length house <= 1)%nat) as Hone.
  { intros Hlimit.
    apply (campaigns_loop_nonpositive _ _ _ _ _ _ _ _ Hlimit) in Hloop.
    cbn in Hloop. lia. }
  assert (forall picked : list AdCandidate,
            (length picked <= length paid + length house)%nat ->
            (Z.of_nat (length (slice_to picked limit)) <= Z.max 0 limit)%Z) as Hslice.
  { intros picked Hlen.
    destruct (slice_to_length picked limit) as [? | [Hneg Htwo]]; [done|].
    specialize (Hone ltac:(lia)). lia. }
  destruct paid as [|p ps]; [destruct house as [|h hs]|]; intros [= <- _].
  - cbn. lia.
  - apply Hslice. cbn. lia.
  - apply Hslice. cbn. lia.
Qed.

Lemma retrieve_respects_limit_witness :
  (Z.of_nat (length (Sample.snapshot ≫= Spec.candidates_of (Some (300, 250)%Z)))
   <= Z.max 0 100)%Z.
Proof.
  apply (retrieve_respects_limit Sample.env Sample.st
           (set_active_ads Sample.st Sample.snapshot _cache_ttl)
           Sample.anyone "sidebar-300x250" 100 None).
  vm_compute. reflexivity.
Defined.

(** ** A cached snapshot hides the campaign table *)

(** X13.  While a snapshot is cached, [retrieve] reads nothing but the
    snapshot: two states that hold the same cached snapshot give the same
    candidates (or raise the same exception), whatever their campaign
    tables, event logs and counters, and the state is left as it was.  A
    campaign that is paused, changed or added in the table is served, or
    not served, as the snapshot has it. *)
Theorem cached_snapshot_hides_table (env : Env) (st1 st2 : State)
    (cached : list CampaignData) (ttl1 ttl2 : option Z)
    (user_context : UserContext) (slot_id : string) (limit : Z)
    (kw_page_url : option string) :
  active_ads (redis st1) = Some (CachedSnapshot cached, ttl1) ->
  active_ads (redis st2) = Some (CachedSnapshot cached, ttl2) ->
  (forall returned st1',
     retrieve env st1 user_context slot_id limit kw_page_url = Ok (returned, st1') ->
     st1' = st1
     /\ retrieve env st2 user_context slot_id limit kw_page_url = Ok (returned, st2))
  /\ (forall e,
        retrieve env st1 user_context slot_id limit kw_page_url = Raise e ->
        retrieve env st2 user_context slot_id limit kw_page_url = Raise e).
Proof.
  intros Hc1 Hc2. unfold retrieve, _get_active_campaigns. rewrite Hc1, Hc2.
  cbn [mbind result_bind].
  destruct cached as [|cd cds].
  { split; [by intros returned st1' [= <- <-] | discriminate]. }
  destruct (_parse_slot_dimensions slot_id) as [slot_dimensions|e0];
    cbn [mbind result_bind]; [|split; [discriminate | done]].
  destruct (campaigns_loop _ _ _ _ _ _ _) as [[[|p ps] [|h hs]]|e1];
    cbn [mbind result_bind];
    (split; [by intros returned st1' [= <- <-] | done]).
Qed.

Lemma cached_snapshot_hides_table_witness :
  retrieve Sample.env
    (set_active_ads Sample.empty_st Sample.snapshot _cache_ttl)
    Sample.anyone "sidebar-300x250" 100 None
  = Ok (Sample.snapshot ≫= Spec.candidates_of (Some (300, 250)%Z),
        set_active_ads Sample.empty_st Sample.snapshot _cache_ttl).
Proof.
  apply (proj1 (cached_snapshot_hides_table Sample.env
                  (set_active_ads Sample.st Sample.snapshot _cache_ttl)
                  (set_active_ads Sample.empty_st Sample.snapshot _cache_ttl)
                  Sample.snapshot (Some _cache_ttl) (Some _cache_ttl)
                  Sample.anyone "sidebar-300x250" 100 None eq_refl eq_refl)
           _ (set_active_ads Sample.st Sample.snapshot _cache_ttl)).
  vm_compute. reflexivity.
Defined.

(** ** A campaign without spend *)

Lemma snapshot_loop_raises env rows e : snapshot_loop env rows = Raise e -> e = TypeError.
Proof.
  induction rows as [|[id campaign] rows IH]; cbn [snapshot_loop]; [discriminate|].
  destruct (campaign_is_active env campaign); cbn [negb]; [|exact IH].
  unfold build_campaign_data.
  destruct (spent_today campaign); cbn; [|by intros [= <-]].
  destruct (spent_total campaign); cbn; [|by intros [= <-]].
  destruct (snapshot_loop env rows); cbn; [discriminate|].
  intros [= <-]. by apply IH.
Qed.

Lemma snapshot_loop_null_spend env rows id campaign :
  (id, campaign) ∈ rows ->
  campaign_is_active env campaign = true ->
  spent_today campaign = None \/ spent_total campaign = None ->
  snapshot_loop env rows = Raise TypeError.
Proof.
  intros Hin Hact Hnull.
  destruct (snapshot_loop env rows) as [snapshot|e] eqn:Hloop;
    [|by apply snapshot_loop_raises in Hloop as ->].
  exfalso. revert snapshot Hloop.
  induction rows as [|[id' campaign'] rows IH]; intros snapshot;
    [by apply elem_of_nil in Hin|].
  cbn [snapshot_loop].
  apply elem_of_cons in Hin as [[= <- <-] | Hin].
  - rewrite Hact. cbn [negb]. unfold build_campaign_data.
    destruct Hnull as [-> | ->]; [done|].
    by destruct (spent_today campaign).
  - destruct (campaign_is_active env campaign'); cbn [negb]; [|by apply IH].
    destruct (build_campaign_data id' campaign'); [|done]. cbn.
    destruct (snapshot_loop env rows) as [tail|]; [|done].
    intros _. by apply (IH Hin tail).
Qed.

(** X14.  One campaign without spend stops the retrieval.  When the cache
    holds no snapshot and one of the queried ACTIVE rows that [is_active]
    accepts has a null spent_today or spent_total, the lookup of the
    active campaigns raises a [TypeError], and so does [retrieve] for
    every user, slot and limit: no other campaign is served either. *)
Theorem null_spend_fails_retrieval (env : Env) (st : State) (id : Z)
    (campaign : Campaign) :
  (id, campaign) ∈ query_active st ->
  campaign_is_active env campaign = true ->
  spent_today campaign = None \/ spent_total campaign = None ->
  (forall cached ttl, active_ads (redis st) <> Some (CachedSnapshot cached, ttl)) ->
  _get_active_campaigns env st = Raise TypeError
  /\ forall user_context slot_id limit kw_page_url,
       retrieve env st user_context slot_id limit kw_page_url = Raise TypeError.
Proof.
  intros Hin Hact Hnull Hmiss.
  assert (_get_active_campaigns env st = Raise TypeError) as Hget.
  { unfold _get_active_campaigns.
    rewrite (snapshot_loop_null_spend env _ id campaign Hin Hact Hnull).
    destruct (active_ads (redis st)) as [[[cached|] ttl]|] eqn:Hcache; try done.
    by destruct (Hmiss cached ttl). }
  split; [exact Hget|].
  intros user_context slot_id limit kw_page_url. unfold retrieve. by rewrite Hget.
Qed.

Lemma null_spend_fails_retrieval_witness :
  retrieve Sample.env Fixture.unbilled_st Sample.anyone "sidebar-300x250" 100 None
  = Raise TypeError.
Proof.
  assert (query_active Fixture.unbilled_st = [(9%Z, Fixture.unbilled)]) as Hrows
    by (vm_compute; reflexivity).
  apply (proj2 (null_spend_fails_retrieval Sample.env Fixture.unbilled_st 9
                  Fixture.unbilled
                  ltac:(rewrite Hrows; apply list_elem_of_here)
                  eq_refl (or_introl eq_refl)
                  ltac:(discriminate))).
Defined.

(* ===================================================================== *)
(** * Further properties of the targeting checks                          *)
(* ===================================================================== *)

Lemma append_nil (s : string) : "" ++ s = s.
Proof. reflexivity. Qed.

Lemma append_cons (c : ascii) (a b : string) : String c a ++ b = String c (a ++ b).
Proof. reflexivity. Qed.

(** ** Rules are combined by conjunction *)

Lemma rules_loop_true rules user_context :
  rules_loop rules user_context = Ok true
  <-> forall rule, rule ∈ rules ->
        _match_rule (rule_type rule) (rule_value rule) user_context
        = Ok (is_include rule).
Proof.
  induction rules as [|rule rest IH]; cbn [rules_loop].
  - split; [|done]. intros _ rule Hin. by apply elem_of_nil in Hin.
  - destruct (_match_rule (rule_type rule) (rule_value rule) user_context)
      as [matched|e] eqn:Hrule; cbn [mbind result_bind].
    + destruct (is_include rule) eqn:Hinc, matched; cbn [andb negb].
      * rewrite IH. split.
        -- intros Hrest r [-> | Hin]%elem_of_cons; [by rewrite Hrule, Hinc | auto].
        -- intros Hall r Hin. apply Hall. by right.
      * split; [discriminate|]. intros Hall.
        specialize (Hall rule (list_elem_of_here _ _)). congruence.
      * split; [discriminate|]. intros Hall.
        specialize (Hall rule (list_elem_of_here _ _)). congruence.
      * rewrite IH. split.
        -- intros Hrest r [-> | Hin]%elem_of_cons; [by rewrite Hrule, Hinc | auto].
        -- intros Hall r Hin. apply Hall. by right.
    + split; [discriminate|]. intros Hall.
      specialize (Hall rule (list_elem_of_here _ _)). congruence.
Qed.

Lemma rules_loop_false rules user_context :
  rules_loop rules user_context = Ok false
  <-> exists before rule after,
        rules = (before ++ rule :: after)%list
        /\ (forall r, r ∈ before ->
              _match_rule (rule_type r) (rule_value r) user_context
              = Ok (is_include r))
        /\ _match_rule (rule_type rule) (rule_value rule) user_context
           = Ok (negb (is_include rule)).
Proof.
  induction rules as [|rule rest IH]; cbn [rules_loop].
  - split; [discriminate|]. intros (before & r & after & Heq & _).
    by destruct before.
  - destruct (_match_rule (rule_type rule) (rule_value rule) user_context)
      as [matched|e] eqn:Hrule; cbn [mbind result_bind].
    + assert (matched = is_include rule ->
              (rules_loop rest user_context = Ok false
               <-> exists before r after,
                     rule :: rest = (before ++ r :: after)%list
                     /\ (forall r0, r0 ∈ before ->
                           _match_rule (rule_type r0) (rule_value r0) user_context
                           = Ok (is_include r0))
                     /\ _match_rule (rule_type r) (rule_value r) user_context
                        = Ok (negb (is_include r)))) as Hstep.
      { intros Hm. rewrite IH. split.
        - intros (before & r & after & -> & Hb & Hr).
          exists (rule :: before), r, after. split_and!; [done| |done].
          intros r0 [-> | ?]%elem_of_cons; [congruence | auto].
        - intros (before & r & after & Heq & Hb & Hr).
          destruct before as [|b0 before]; cbn in Heq.
          + injection Heq as <- <-. rewrite Hrule in Hr.
            injection Hr as Hr. rewrite Hr in Hm. by destruct (is_include rule).
          + injection Heq as <- ->. exists before, r, after. split_and!; [done| |done].
            intros r0 Hin. apply Hb. by right. }
      assert (matched = negb (is_include rule) ->
              exists before r after,
                rule :: rest = (before ++ r :: after)%list
                /\ (forall r0, r0 ∈ before ->
                      _match_rule (rule_type r0) (rule_value r0) user_context
                      = Ok (is_include r0))
                /\ _match_rule (rule_type r) (rule_value r) user_context
                   = Ok (negb (is_include r))) as Hnow.
      { intros ->. exists [], rule, rest. split_and!; [done| |done].
        intros r0 Hin. by apply elem_of_nil in Hin. }
      destruct (is_include rule) eqn:Hinc, matched; cbn [andb negb] in *; auto.
      * split; [auto|done].
      * split; [auto|done].
    + split; [discriminate|].
      intros (before & r & after & Heq & Hb & Hr).
      destruct before as [|b0 before]; cbn in Heq.
      * injection Heq as <- <-. congruence.
      * injection Heq as <- ->.
        specialize (Hb rule (list_elem_of_here _ _)). congruence.
Qed.

(** X15.  [_match_targeting] is the conjunction of the campaign's rules.
    It returns true exactly when the matcher of every rule returns the
    rule's own [is_include] flag (include rules match, exclude rules do
    not).  It returns false exactly when the matcher of some rule returns
    the opposite of its flag and those of all rules before it returned
    theirs. *)
Theorem match_targeting_is_conjunction (campaign_data : CampaignData)
    (user_context : UserContext) :
  (_match_targeting campaign_data user_context = Ok true
   <-> forall rule, rule ∈ cd_targeting_rules campaign_data ->
         _match_rule (rule_type rule) (rule_value rule) user_context
         = Ok (is_include rule))
  /\ (_match_targeting campaign_data user_context = Ok false
      <-> exists before rule after,
            cd_targeting_rules campaign_data = (before ++ rule :: after)%list
            /\ (forall r, r ∈ before ->
                  _match_rule (rule_type r) (rule_value r) user_context
                  = Ok (is_include r))
            /\ _match_rule (rule_type rule) (rule_value rule) user_context
               = Ok (negb (is_include rule))).
Proof.
  unfold _match_targeting. split; [apply rules_loop_true | apply rules_loop_false].
Qed.

(** ** Requests without user attributes *)

Lemma match_rule_anonymous rule_type d user_context :
  anonymous user_context ->
  _match_rule rule_type (PDict d) user_context = Ok true.
Proof.
  intros (Hage & Hgender & Hcountry & Hcity & Hdevice & Hos & Hint & Happ).
  unfold _match_rule.
  rewrite Hage, Hgender, Hcountry, Hcity, Hdevice, Hos, Hint, Happ.
  cbn [get mbind result_bind].
  rewrite !andb_false_r. cbn [negb bool_decide].
  repeat (destruct (String.eqb rule_type _); [reflexivity|]).
  reflexivity.
Qed.

(** X16.  For a request without user attributes (no age, gender, country,
    city, device model, operating system, interest or app category) and a
    campaign whose rule values are all dicts, the matcher of every rule
    returns true.  So [_match_targeting] passes the campaign exactly when
    it has no exclude rule: include rules never hold such a request back,
    and any exclude rule does. *)
Theorem anonymous_request_meets_exclude_rules (campaign_data : CampaignData)
    (user_context : UserContext) :
  anonymous user_context ->
  (forall rule, rule ∈ cd_targeting_rules campaign_data ->
     exists d, rule_value rule = PDict d) ->
  _match_targeting campaign_data user_context
  = Ok (forallb is_include (cd_targeting_rules campaign_data)).
Proof.
  intros Hanon. unfold _match_targeting.
  induction (cd_targeting_rules campaign_data) as [|rule rest IH]; intros Hdict.
  - reflexivity.
  - cbn [rules_loop forallb].
    destruct (Hdict rule (list_elem_of_here _ _)) as [d ->].
    rewrite (match_rule_anonymous _ _ _ Hanon). cbn [mbind result_bind negb].
    rewrite andb_false_r, andb_true_r.
    destruct (is_include rule); cbn [negb andb]; [|reflexivity].
    apply IH. intros r Hin. apply Hdict. by right.
Qed.

Lemma anonymous_request_meets_exclude_rules_witness :
  _match_targeting Fixture.targeted Sample.anyone = Ok false.
Proof.
  apply (anonymous_request_meets_exclude_rules Fixture.targeted Sample.anyone).
  - repeat split.
  - intros rule Hin. cbn in Hin.
    apply elem_of_cons in Hin as [-> | Hin]; [cbn; eauto|].
    apply list_elem_of_singleton in Hin as ->. cbn; eauto.
Defined.

(** ** Page targeting *)

Lemma any_fnmatch_strings env url patterns :
  any_fnmatch env url (PStr <$> patterns) = Ok (existsb (fnmatch env url) patterns).
Proof.
  induction patterns as [|p ps IH]; [done|].
  cbn [fmap list_fmap any_fnmatch existsb].
  destruct (fnmatch env url p); [done|]. exact IH.
Qed.

(** X17.  With a non-empty page URL and a non-empty page-targeting dict
    whose include and exclude entries are lists of pattern texts (an
    absent entry counting as the empty list), [_match_page_targeting]
    passes the page exactly when no exclude pattern matches it and the
    include list is empty or one of its patterns matches it: exclusion
    wins over inclusion. *)
Theorem page_targeting_exclude_wins (env : Env) (campaign_data : CampaignData)
    (url : string) (items : list (string * pyval)) (included excluded : list string) :
  cd_page_targeting campaign_data = PDict items ->
  items <> [] ->
  url <> "" ->
  default (PList []) (assoc "include" items) = PList (PStr <$> included) ->
  default (PList []) (assoc "exclude" items) = PList (PStr <$> excluded) ->
  _match_page_targeting env campaign_data (Some url)
  = Ok (negb (existsb (fnmatch env url) excluded)
        && (bool_decide (included = []) || existsb (fnmatch env url) included)).
Proof.
  intros Hpt Hitems Hurl Hinc Hexc. unfold _match_page_targeting.
  rewrite Hpt. destruct items as [|kv kvs]; [done|].
  cbn [truthy negb truthy_str].
  rewrite (proj2 (String.eqb_neq url "") Hurl). cbn [negb default from_option id].
  cbn [get mbind result_bind]. rewrite Hinc, Hexc.
  cbn [iter mbind result_bind]. rewrite !any_fnmatch_strings.
  cbn [mbind result_bind].
  destruct (existsb (fnmatch env url) excluded); [reflexivity|].
  cbn [negb andb].
  destruct included as [|p ps]; [reflexivity|].
  cbn [fmap list_fmap truthy]. by rewrite bool_decide_eq_false_2.
Qed.

(** Under patterns that match: an archived article is refused although
    the include pattern matches it too, an article outside the archive
    passes, and a page that no include pattern matches is refused. *)
Lemma page_targeting_exclude_wins_witness :
  _match_page_targeting Fixture.matching_env Fixture.targeted
    (Some "https://news.example.co.uk/articles/archive/1")
  = Ok false
  /\ _match_page_targeting Fixture.matching_env Fixture.targeted
       (Some "https://news.example.co.uk/articles/1")
     = Ok true
  /\ _match_page_targeting Fixture.matching_env Fixture.targeted
       (Some "https://news.example.co.uk/about")
     = Ok false.
Proof.
  split; [|split].
  - apply (page_targeting_exclude_wins Fixture.matching_env Fixture.targeted
             "https://news.example.co.uk/articles/archive/1"
             [("include", PList [PStr "*/articles/*"]);
              ("exclude", PList [PStr "*/archive/*"])]
             ["*/articles/*"] ["*/archive/*"]);
      [reflexivity | discriminate | discriminate | reflexivity | reflexivity].
  - apply (page_targeting_exclude_wins Fixture.matching_env Fixture.targeted
             "https://news.example.co.uk/articles/1"
             [("include", PList [PStr "*/articles/*"]);
              ("exclude", PList [PStr "*/archive/*"])]
             ["*/articles/*"] ["*/archive/*"]);
      [reflexivity | discriminate | discriminate | reflexivity | reflexivity].
  - apply (page_targeting_exclude_wins Fixture.matching_env Fixture.targeted
             "https://news.example.co.uk/about"
             [("include", PList [PStr "*/articles/*"]);
              ("exclude", PList [PStr "*/archive/*"])]
             ["*/articles/*"] ["*/archive/*"]);
      [reflexivity | discriminate | discriminate | reflexivity | reflexivity].
Defined.

(** ** Slot dimensions *)

Lemma span_digits_app d r :
  sall is_digit d = true ->
  match r with String c _ => is_digit c = false | EmptyString => True end ->
  span_digits (d ++ r) = (d, r).
Proof.
  intros Hd Hr. induction d as [|c d IH];
    rewrite ?append_nil, ?append_cons; cbn [span_digits].
  - destruct r as [|c r]; [done|]. cbn [span_digits].
    change (is_digit c = false) in Hr. by rewrite Hr.
  - cbn [sall] in Hd. apply andb_prop in Hd as [Hc Hd]. by rewrite Hc, (IH Hd).
Qed.

Lemma dimension_search_skip prefix s :
  sall (fun c => negb (is_digit c)) prefix = true ->
  s <> "" ->
  dimension_search (prefix ++ s) = dimension_search s.
Proof.
  intros Hp Hs. induction prefix as [|c p IH]; [done|].
  cbn [sall] in Hp. apply andb_prop in Hp as [Hc Hp]. apply negb_true_iff in Hc.
  rewrite append_cons. cbn [dimension_search span_digits]. rewrite Hc. by apply IH.
Qed.

Lemma str_digits z : (0 <= z)%Z -> sall is_digit (str z) = true /\ str z <> "".
Proof.
  intros Hz. destruct z as [|p|p]; [done| |lia].
  unfold str. simpl.
  assert (Pos.to_uint p <> Decimal.Nil) as Hn by apply Unsigned.to_uint_nonnil.
  replace (NilZero.string_of_uint (Pos.to_uint p))
    with (NilEmpty.string_of_uint (Pos.to_uint p))
    by (by destruct (Pos.to_uint p)).
  split; [apply string_of_uint_digits|].
  by apply string_of_uint_nonempty.
Qed.

(** X18.  A slot id made of a name of ASCII characters without digits, a
    width, the letter x, a height, and a rest that is empty or starts
    with an ASCII character other than a digit, parses back to that width
    and height: for all non-negative [w] and [h] of at most 4300 digits
    (the longest numbers that [str] and [int] convert),
    [_parse_slot_dimensions] of [name ++ str w ++ "x" ++ str h ++ rest] is
    [(w, h)]. *)
Theorem slot_dimensions_round_trip (name rest : string) (w h : Z) :
  (0 <= w < 10 ^ 4300)%Z -> (0 <= h < 10 ^ 4300)%Z ->
  sall is_plain name = true ->
  match rest with String c _ => is_plain c = true | EmptyString => True end ->
  _parse_slot_dimensions (name ++ str w ++ "x" ++ str h ++ rest) = Ok (Some (w, h)).
Proof.
  intros [Hw _] [Hh _] Hname Hrest.
  assert (sall (fun c => negb (is_digit c)) name = true) as Hname'.
  { revert Hname. apply sall_impl. by intros c [_ ?]%andb_prop. }
  assert (match rest with
          | String c _ => is_digit c = false
          | EmptyString => True
          end) as Hrest'.
  { destruct rest as [|c rest]; [done|].
    apply andb_prop in Hrest as [_ Hc]. by apply negb_true_iff in Hc. }
  destruct (str_digits w Hw) as [Hdw Hnw], (str_digits h Hh) as [Hdh Hnh].
  unfold _parse_slot_dimensions.
  rewrite dimension_search_skip by (done || by destruct (str w)).
  destruct (str w) as [|c1 d1] eqn:Ew; [done|].
  rewrite append_cons. cbn [dimension_search]. rewrite <- append_cons.
  change ("x" ++ str h ++ rest) with (String "x" (str h ++ rest)).
  rewrite span_digits_app by done.
  rewrite span_digits_app by done.
  destruct (str h) as [|c2 d2] eqn:Eh; [done|].
  rewrite <- Ew, <- Eh, !int_str. reflexivity.
Qed.

Lemma slot_dimensions_round_trip_witness :
  _parse_slot_dimensions ("leaderboard-" ++ str 728 ++ "x" ++ str 90 ++ "-top")
  = Ok (Some (728, 90)%Z).
Proof.
  apply (slot_dimensions_round_trip "leaderboard-" "-top" 728 90);
    [split; [lia | by vm_compute] | split; [lia | by vm_compute]
    | reflexivity | reflexivity].
Defined.

(** ** The domain of a page *)

Lemma split_length_app sep a b :
  length (split sep (a ++ String sep b))
  = (length (split sep a) + length (split sep b))%nat.
Proof.
  induction a as [|c r IH]; rewrite ?append_nil, ?append_cons; cbn [split].
  - by rewrite Ascii.eqb_refl.
  - destruct (Ascii.eqb c sep); cbn [length]; [by rewrite IH|].
    pose proof (split_nonempty sep r) as Hr.
    pose proof (split_nonempty sep (r ++ String sep b)) as Hrb.
    destruct (split sep r) as [|p ps]; [done|].
    destruct (split sep (r ++ String sep b)) as [|q qs]; [done|].
    exact IH.
Qed.

Lemma split_parts sep s p :
  p ∈ split sep s -> sall (fun c => negb (Ascii.eqb c sep)) p = true.
Proof.
  revert p. induction s as [|c r IH]; cbn [split]; intros p.
  - by intros ->%list_elem_of_singleton.
  - pose proof (split_nonempty sep r) as Hr.
    destruct (Ascii.eqb c sep) eqn:Hc.
    + intros [-> | Hp]%elem_of_cons; [done | by apply IH].
    + destruct (split sep r) as [|q qs]; [done|].
      intros [-> | Hp]%elem_of_cons.
      * cbn [sall]. rewrite Hc. cbn [negb andb]. apply IH. by left.
      * apply IH. by right.
Qed.

Lemma drop_chars_suffix n s : exists before, s = before ++ drop_chars n s.
Proof.
  revert s. induction n as [|n IH]; intros s; [by exists ""|].
  destruct s as [|c r]; [by exists ""|].
  destruct (IH r) as [before Hr]. exists (String c before).
  rewrite append_cons. cbn [drop_chars]. by rewrite <- Hr.
Qed.

Lemma endswith_suffix s p : endswith s p = true -> exists before, s = before ++ p.
Proof.
  unfold endswith. intros [_ Heq%String.eqb_eq]%andb_prop.
  destruct (drop_chars_suffix (String.length s - String.length p) s) as [before Hs].
  exists before. by rewrite <- Heq.
Qed.

Lemma labels_subdomain before host :
  labels (before ++ "." ++ host) = (labels before + labels host)%nat.
Proof. apply split_length_app. Qed.

Lemma labels_positive host : (1 <= labels host)%nat.
Proof.
  unfold labels. pose proof (split_nonempty "." host).
  destruct (split "." host); [done | cbn; lia].
Qed.

Lemma last_two {A} (l : list A) :
  (2 <= length l)%nat ->
  exists p q, last_n 2 l = [p; q] /\ p ∈ l /\ q ∈ l.
Proof.
  intros Hlen. unfold last_n.
  assert (drop (length l - 2) l ⊆ l) as Hsub by apply subseteq_drop.
  assert (length (drop (length l - 2) l) = 2%nat) as Hl by (rewrite length_drop; lia).
  destruct (drop (length l - 2) l) as [|p [|q [|x xs]]]; try discriminate Hl.
  exists p, q. split; [done|]. split; apply Hsub; [by left | by right; left].
Qed.

Lemma lower_char_idem c : lower_char (lower_char c) = lower_char c.
Proof. ascii_cases c; reflexivity. Qed.

Lemma lower_sall s : sall (fun c => Ascii.eqb (lower_char c) c) (lower s) = true.
Proof.
  induction s as [|c r IH]; [done|].
  cbn [lower smap sall]. fold (lower r).
  by rewrite lower_char_idem, Ascii.eqb_refl, IH.
Qed.

Lemma sall_lower s : sall (fun c => Ascii.eqb (lower_char c) c) s = true -> lower s = s.
Proof.
  induction s as [|c r IH]; [done|].
  cbn [sall lower smap]. fold (lower r).
  intros [Hc%Ascii.eqb_eq Hr]%andb_prop. by rewrite Hc, (IH Hr).
Qed.

Lemma sall_drop_chars p n s : sall p s = true -> sall p (drop_chars n s) = true.
Proof.
  revert s. induction n as [|n IH]; intros s; [done|].
  destruct s as [|c r]; [done|]. cbn [sall drop_chars].
  intros [_ Hr]%andb_prop. by apply IH.
Qed.

Lemma sall_app p a b : sall p (a ++ b) = sall p a && sall p b.
Proof.
  induction a as [|c r IH]; rewrite ?append_nil, ?append_cons; [done|].
  cbn [sall]. by rewrite IH, andb_assoc.
Qed.

Lemma sall_split p sep s part :
  sall p s = true -> part ∈ split sep s -> sall p part = true.
Proof.
  revert part. induction s as [|c r IH]; cbn [split sall]; intros part.
  - by intros _ ->%list_elem_of_singleton.
  - intros [Hc Hr]%andb_prop.
    pose proof (split_nonempty sep r) as Hne.
    destruct (Ascii.eqb c sep).
    + intros [-> | Hp]%elem_of_cons; [done | by apply IH].
    + destruct (split sep r) as [|q qs]; [done|].
      intros [-> | Hp]%elem_of_cons.
      * cbn [sall]. rewrite Hc. apply IH; [done | by left].
      * apply IH; [done | by right].
Qed.

(** The host that [_extract_domain] cuts its answer from. *)
Lemma extract_domain_host env url domain :
  _extract_domain env url = Some domain ->
  exists netloc,
    let host := strip_www (lower netloc) in
    (exists p q, p ∈ split "." host /\ q ∈ split "." host /\ domain = p ++ "." ++ q)
    \/ ((length (split "." host) < 2)%nat /\ domain = host).
Proof.
  unfold _extract_domain.
  destruct (String.eqb url ""); [discriminate|].
  destruct (urlparse_netloc env url) as [netloc|]; [|discriminate].
  intros Hdom. exists netloc. cbn zeta.
  destruct (Nat.leb_spec 2 (length (split "." (strip_www (lower netloc)))))
    as [Hle | Hlt]; injection Hdom as <-; [left | right; done].
  destruct (last_two _ Hle) as (p & q & Hlast & Hp & Hq). exists p, q.
  by rewrite Hlast.
Qed.

Lemma extract_domain_labels env url domain :
  _extract_domain env url = Some domain -> (labels domain <= 2)%nat.
Proof.
  intros (netloc & [(p & q & Hp & Hq & ->) | [Hlt ->]])%extract_domain_host.
  - rewrite labels_subdomain. unfold labels.
    rewrite (split_single "." p (split_parts _ _ _ Hp)).
    rewrite (split_single "." q (split_parts _ _ _ Hq)). done.
  - unfold labels. lia.
Qed.

(** X19.  Every domain that [_extract_domain] returns has at most two
    dot-separated labels and no upper-case letter. *)
Theorem extract_domain_shape (env : Env) (url domain : string) :
  _extract_domain env url = Some domain ->
  (labels domain <= 2)%nat /\ lower domain = domain.
Proof.
  intros Hdom. split; [by apply (extract_domain_labels env url)|].
  apply extract_domain_host in Hdom as (netloc & Hshape). cbn zeta in Hshape.
  assert (sall (fun c => Ascii.eqb (lower_char c) c) (strip_www (lower netloc)) = true)
    as Hlow.
  { unfold strip_www. destruct (startswith _ _).
    - apply sall_drop_chars, lower_sall.
    - apply lower_sall. }
  apply sall_lower.
  destruct Hshape as [(p & q & Hp & Hq & ->) | [_ ->]]; [|done].
  rewrite !sall_app.
  rewrite (sall_split _ _ _ _ Hlow Hp), (sall_split _ _ _ _ Hlow Hq). done.
Qed.

Lemma extract_domain_shape_witness :
  (labels "example.com" <= 2)%nat /\ lower "example.com" = "example.com".
Proof.
  apply (extract_domain_shape Sample.env "https://www.Blog.Example.com/post").
  vm_compute. reflexivity.
Defined.

(** ** Allowed domains are compared with the domain of the page *)

Lemma match_domain_targeting_loop env entries url domain :
  entries <> [] -> _extract_domain env url = Some domain -> domain <> "" ->
  _match_domain_targeting env (PList (PStr <$> entries)) (Some url)
  = domain_loop domain (PStr <$> entries).
Proof.
  intros Hne Hdom Hnonempty.
  destruct entries as [|e es]; [done|].
  unfold _match_domain_targeting.
  assert (url <> "") as Hurl.
  { intros ->. unfold _extract_domain in Hdom. discriminate Hdom. }
  cbn [truthy fmap list_fmap negb truthy_str default from_option id].
  rewrite (proj2 (String.eqb_neq url "") Hurl). cbn [negb].
  rewrite Hdom. by rewrite (proj2 (String.eqb_neq domain "") Hnonempty).
Qed.

(** X20.  Since the domain of a page has at most two labels, an allowed
    domain of two or more labels is matched by equality only: with a
    non-empty allowed list whose cleaned entries (lower-cased, trimmed,
    without a leading "www.") all have at least two labels, and a page
    URL that gives a non-empty domain, [_match_domain_targeting] passes
    the page exactly when some cleaned entry has two labels and is the
    page's domain.  An allowed entry of three or more labels -- a
    subdomain, or a name under a two-part suffix -- matches no page. *)
Theorem domain_targeting_compares_whole_domains (env : Env)
    (entries : list string) (url domain : string) :
  entries <> [] ->
  _extract_domain env url = Some domain ->
  domain <> "" ->
  (forall entry, entry ∈ entries ->
     (2 <= labels (strip_www (strip (lower entry))))%nat) ->
  _match_domain_targeting env (PList (PStr <$> entries)) (Some url)
  = Ok (existsb (fun entry =>
                   String.eqb domain (strip_www (strip (lower entry)))
                   && (labels (strip_www (strip (lower entry))) =? 2)%nat)
          entries).
Proof.
  intros Hne Hdom Hnonempty Hdeep.
  rewrite (match_domain_targeting_loop _ _ _ _ Hne Hdom Hnonempty).
  rewrite domain_loop_strings. f_equal.
  pose proof (extract_domain_labels env url domain Hdom) as Hshape.
  clear Hne. induction entries as [|e es IH]; [done|].
  cbn [existsb]. rewrite IH by (intros x Hx; apply Hdeep; by right).
  f_equal. specialize (Hdeep e (list_elem_of_here _ _)).
  unfold Spec.domain_matches, Spec.clean_entry.
  set (target := strip_www (strip (lower e))) in *.
  destruct (String.eqb_spec domain target) as [-> | Hneq].
  - cbn [orb andb]. symmetry. apply Nat.eqb_eq. lia.
  - cbn [orb andb].
    destruct (endswith domain ("." ++ target)) eqn:Hend; [|done].
    apply endswith_suffix in Hend as [before ->].
    rewrite labels_subdomain in Hshape.
    pose proof (labels_positive before). lia.
Qed.

Lemma domain_targeting_compares_whole_domains_witness :
  _match_domain_targeting Sample.env (cd_target_domains Fixture.targeted)
    (Some "https://news.example.co.uk/articles/1")
  = Ok false.
Proof.
  apply (domain_targeting_compares_whole_domains Sample.env
           ["news.example.co.uk"; "www.blog.example.com"]
           "https://news.example.co.uk/articles/1" "co.uk").
  - discriminate.
  - vm_compute. reflexivity.
  - discriminate.
  - intros entry [-> | ->%list_elem_of_singleton]%elem_of_cons; vm_compute; lia.
Defined.

(* ===================================================================== *)
(** * The media proxy's encoding of URLs                                  *)
(* ===================================================================== *)

Import Media.

Ltac sextet_cases s := destruct s as [[|] [|] [|] [|] [|] [|]].

Lemma append_nil_r (s : string) : s ++ "" = s.
Proof. induction s as [|c r IH]; [done|]. by rewrite append_cons, IH. Qed.

Lemma append_assoc (a b c : string) : (a ++ b) ++ c = a ++ b ++ c.
Proof. induction a as [|x r IH]; [done|]. by rewrite !append_cons, IH. Qed.

(** Strings by groups of three characters. *)
Lemma string_ind3 (P : string -> Prop) :
  P "" ->
  (forall a, P (String a "")) ->
  (forall a b, P (String a (String b ""))) ->
  (forall a b c rest, P rest -> P (String a (String b (String c rest)))) ->
  forall s, P s.
Proof.
  intros H0 H1 H2 H3 s.
  enough (P s /\ (forall a, P (String a s)) /\ (forall a b, P (String a (String b s))))
    as [? _] by done.
  induction s as [|c r (IH0 & IH1 & IH2)]; [auto|].
  split_and!; [apply IH1 | intros a; apply IH2 | intros a b; by apply H3].
Qed.

(** The written character of a sextet, and the character that the decoder
    looks up. *)
Lemma a2b_written s :
  a2b (urlsafe_decode_translation (urlsafe_encode_translation (b2a s))) = Some s.
Proof. sextet_cases s; reflexivity. Qed.

Lemma written_not_pad s :
  Ascii.eqb (urlsafe_decode_translation (urlsafe_encode_translation (b2a s))) "="
  = false.
Proof. sextet_cases s; reflexivity. Qed.

Lemma written_urlsafe s :
  is_urlsafe (urlsafe_encode_translation (b2a s)) = true
  /\ Ascii.eqb (urlsafe_encode_translation (b2a s)) "=" = false
  /\ is_continuation (urlsafe_encode_translation (b2a s)) = false.
Proof. sextet_cases s; repeat split; reflexivity. Qed.

(** One character of the alphabet through the decoder's loop. *)
Lemma a2b_loop_step s rest quad_pos leftchar pads bin_data :
  a2b_loop
    (String (urlsafe_decode_translation (urlsafe_encode_translation (b2a s))) rest)
    quad_pos leftchar pads bin_data
  = let 'Sextet t5 t4 t3 t2 t1 t0 := s in
    let 'Sextet l5 l4 l3 l2 l1 l0 := leftchar in
    match quad_pos with
    | 0%nat => a2b_loop rest 1 s 0 bin_data
    | 1%nat =>
        a2b_loop rest 2 s 0 (bin_data ++ String (Ascii t4 t5 l0 l1 l2 l3 l4 l5) "")
    | 2%nat =>
        a2b_loop rest 3 s 0 (bin_data ++ String (Ascii t2 t3 t4 t5 l0 l1 l2 l3) "")
    | _ =>
        a2b_loop rest 0 (Sextet false false false false false false) 0
          (bin_data ++ String (Ascii t0 t1 t2 t3 t4 t5 l0 l1) "")
    end.
Proof.
  cbn [a2b_loop]. rewrite written_not_pad, a2b_written. by destruct s.
Qed.

Lemma a2b_loop_encoded data leftchar bin_data :
  a2b_loop (smap urlsafe_decode_translation (urlsafe_b64encode data)) 0 leftchar 0
    bin_data
  = Ok (bin_data ++ data).
Proof.
  unfold urlsafe_b64encode. revert leftchar bin_data.
  induction data as [|a|a b|a b c rest IH] using string_ind3; intros leftchar bin_data.
  - cbn. by rewrite append_nil_r.
  - destruct a as [a0 a1 a2 a3 a4 a5 a6 a7].
    cbn [b2a_base64 smap]. rewrite !a2b_loop_step.
    destruct leftchar. reflexivity.
  - destruct a as [a0 a1 a2 a3 a4 a5 a6 a7], b as [b0 b1 b2 b3 b4 b5 b6 b7].
    cbn [b2a_base64 smap]. rewrite !a2b_loop_step.
    destruct leftchar. cbn. by rewrite append_assoc.
  - destruct a as [a0 a1 a2 a3 a4 a5 a6 a7], b as [b0 b1 b2 b3 b4 b5 b6 b7],
      c as [c0 c1 c2 c3 c4 c5 c6 c7].
    cbn [b2a_base64 smap]. rewrite !a2b_loop_step.
    destruct leftchar. cbn iota beta. rewrite IH. by rewrite !append_assoc.
Qed.

Lemma rstrip_char_keep c c' r :
  Ascii.eqb c' c = false -> rstrip_char c (String c' r) = String c' (rstrip_char c r).
Proof. intros Hc. cbn [rstrip_char]. rewrite Hc. by destruct (rstrip_char c r). Qed.

(** The four equations of [encode_url]. *)
Lemma encode_url_group a0 a1 a2 a3 a4 a5 a6 a7 b0 b1 b2 b3 b4 b5 b6 b7
    c0 c1 c2 c3 c4 c5 c6 c7 rest :
  encode_url (String (Ascii a0 a1 a2 a3 a4 a5 a6 a7)
                (String (Ascii b0 b1 b2 b3 b4 b5 b6 b7)
                   (String (Ascii c0 c1 c2 c3 c4 c5 c6 c7) rest)))
  = String (urlsafe_encode_translation (b2a (Sextet a7 a6 a5 a4 a3 a2)))
      (String (urlsafe_encode_translation (b2a (Sextet a1 a0 b7 b6 b5 b4)))
         (String (urlsafe_encode_translation (b2a (Sextet b3 b2 b1 b0 c7 c6)))
            (String (urlsafe_encode_translation (b2a (Sextet c5 c4 c3 c2 c1 c0)))
               (encode_url rest)))).
Proof.
  unfold encode_url, urlsafe_b64encode. cbn [b2a_base64 smap].
  by rewrite !rstrip_char_keep by apply written_urlsafe.
Qed.

Lemma encode_url_two a0 a1 a2 a3 a4 a5 a6 a7 b0 b1 b2 b3 b4 b5 b6 b7 :
  encode_url (String (Ascii a0 a1 a2 a3 a4 a5 a6 a7)
                (String (Ascii b0 b1 b2 b3 b4 b5 b6 b7) ""))
  = String (urlsafe_encode_translation (b2a (Sextet a7 a6 a5 a4 a3 a2)))
      (String (urlsafe_encode_translation (b2a (Sextet a1 a0 b7 b6 b5 b4)))
         (String (urlsafe_encode_translation (b2a (Sextet b3 b2 b1 b0 false false)))
            "")).
Proof.
  unfold encode_url, urlsafe_b64encode. cbn [b2a_base64 smap].
  by rewrite !rstrip_char_keep by apply written_urlsafe.
Qed.

Lemma encode_url_one a0 a1 a2 a3 a4 a5 a6 a7 :
  encode_url (String (Ascii a0 a1 a2 a3 a4 a5 a6 a7) "")
  = String (urlsafe_encode_translation (b2a (Sextet a7 a6 a5 a4 a3 a2)))
      (String (urlsafe_encode_translation
                 (b2a (Sextet a1 a0 false false false false))) "").
Proof.
  unfold encode_url, urlsafe_b64encode. cbn [b2a_base64 smap].
  by rewrite !rstrip_char_keep by apply written_urlsafe.
Qed.

Lemma len_written s r : len (String (urlsafe_encode_translation (b2a s)) r) = S (len r).
Proof.
  cbn [len]. by destruct (written_urlsafe s) as (_ & _ & ->).
Qed.

(** Putting the padding back gives what the encoder wrote before
    [rstrip]. *)
Lemma padding_restored data :
  (let encoded := encode_url data in
   let padding := (4 - Z.of_nat (len encoded) mod 4)%Z in
   if bool_decide (padding <> 4%Z) then encoded ++ times "=" padding else encoded)
  = urlsafe_b64encode data.
Proof.
  cbn zeta.
  induction data as [|a|a b|a b c rest IH] using string_ind3.
  - reflexivity.
  - destruct a. rewrite encode_url_one, !len_written. reflexivity.
  - destruct a, b. rewrite encode_url_two, !len_written. reflexivity.
  - destruct a, b, c. rewrite encode_url_group, !len_written.
    replace (Z.of_nat (S (S (S (S (len (encode_url rest))))))  mod 4)%Z
      with (Z.of_nat (len (encode_url rest)) mod 4)%Z.
    + unfold urlsafe_b64encode at 1. cbn [b2a_base64 smap].
      fold (urlsafe_b64encode rest). rewrite <- IH.
      by destruct (bool_decide _).
    + rewrite !Nat2Z.inj_succ.
      replace (Z.succ (Z.succ (Z.succ (Z.succ (Z.of_nat (len (encode_url rest)))))))
        with (Z.of_nat (len (encode_url rest)) + 1 * 4)%Z by lia.
      by rewrite Z.mod_add.
Qed.

Lemma encode_url_urlsafe url : sall is_urlsafe (encode_url url) = true.
Proof.
  induction url as [|a|a b|a b c rest IH] using string_ind3.
  - reflexivity.
  - destruct a. rewrite encode_url_one. cbn [sall].
    by rewrite !(proj1 (written_urlsafe _)).
  - destruct a, b. rewrite encode_url_two. cbn [sall].
    by rewrite !(proj1 (written_urlsafe _)).
  - destruct a, b, c. rewrite encode_url_group. cbn [sall].
    by rewrite !(proj1 (written_urlsafe _)), IH.
Qed.

(** X21.  [decode_url] inverts [encode_url]: for every URL (a well-formed
    UTF-8 text) decoding its encoding gives the URL back, and the encoding
    consists of letters, digits, [-] and [_] only, without padding. *)
Theorem decode_url_inverts_encode_url (url : string) :
  utf8_valid url = true ->
  decode_url (encode_url url) = Return url
  /\ sall is_urlsafe (encode_url url) = true.
Proof.
  intros Hvalid. split; [|apply encode_url_urlsafe].
  unfold decode_url. rewrite padding_restored.
  unfold urlsafe_b64decode, a2b_base64. rewrite a2b_loop_encoded.
  cbn [mbind result_bind]. rewrite append_nil. unfold decode. by rewrite Hvalid.
Qed.

Lemma decode_url_inverts_encode_url_witness :
  decode_url (encode_url "https://cdn.example.com/b.png")
  = Return "https://cdn.example.com/b.png"
  /\ sall is_urlsafe (encode_url "https://cdn.example.com/b.png") = true.
Proof.
  apply (decode_url_inverts_encode_url "https://cdn.example.com/b.png").
  reflexivity.
Defined.

Example encode_url_demo :
  encode_url "https://cdn.example.com/b.png"
  = "aHR0cHM6Ly9jZG4uZXhhbXBsZS5jb20vYi5wbmc"
  /\ encode_url "a?>" = "YT8-"
  /\ decode_url "YT8-" = Return "a?>"
  /\ decode_url "YQ" = Return "a"
  /\ decode_url "Y" = HTTPException 400 "Invalid encoded URL"
  /\ decode_url "_w" = HTTPException 400 "Invalid encoded URL".
Proof. repeat split; reflexivity. Qed.

(* ===================================================================== *)
(** * The ad endpoints                                                    *)
(* ===================================================================== *)

Import AdRouter.

(** ** The proxied image never has a standard size *)

(** X22.  For a non-empty image URL [_get_proxied_image_url] returns the
    base URL, "/res/", the encoded image URL and a query.  The query is
    "?v=2" when the width or the height is missing or zero or the size is
    not a standard ad size; otherwise it asks for one pixel less in each
    direction, and the size it asks for is never itself a standard ad
    size and lies between 1 and 2000, the bounds that the media proxy
    accepts for [w] and [h]. *)
Theorem proxied_image_avoids_standard_sizes (base_url image_url : string)
    (width height : option Z) :
  image_url <> "" ->
  exists query,
    _get_proxied_image_url base_url (Some image_url) width height
    = Some (base_url ++ "/res/" ++ encode_url image_url ++ query)
    /\ ((query = "?v=2"
         /\ truthy_int width && truthy_int height
            && is_standard (default 0%Z width) (default 0%Z height) = false)
        \/ exists new_width new_height,
             query = "?w=" ++ str new_width ++ "&h=" ++ str new_height ++ "&v=2"
             /\ width = Some (new_width + 1)%Z
             /\ height = Some (new_height + 1)%Z
             /\ is_standard (new_width + 1) (new_height + 1) = true
             /\ is_standard new_width new_height = false
             /\ (1 <= new_width <= 2000)%Z
             /\ (1 <= new_height <= 2000)%Z).
Proof.
  intros Himage. unfold _get_proxied_image_url.
  cbn [truthy_str]. rewrite (proj2 (String.eqb_neq image_url "") Himage).
  cbn [negb default from_option id].
  destruct (truthy_int width && truthy_int height
            && is_standard (default 0%Z width) (default 0%Z height)) eqn:Hstd.
  - eexists. split; [reflexivity|]. right.
    apply andb_prop in Hstd as [[Hw Hh]%andb_prop Hstd].
    destruct width as [w|]; [|discriminate]. destruct height as [h|]; [|discriminate].
    cbn [default from_option id] in *.
    exists (w - 1)%Z, (h - 1)%Z.
    replace (w - 1 + 1)%Z with w by lia. replace (h - 1 + 1)%Z with h by lia.
    split_and!; try done;
      unfold is_standard in Hstd; apply bool_decide_eq_true in Hstd;
      unfold STANDARD_AD_SIZES in Hstd;
      repeat (apply elem_of_cons in Hstd as [[= -> ->] | Hstd];
              [first [reflexivity | lia]|]);
      by apply elem_of_nil in Hstd.
  - eexists. split; [reflexivity|]. left. done.
Qed.

Lemma proxied_image_avoids_standard_sizes_witness :
  exists query,
    _get_proxied_image_url "https://ads.example.org"
      (Some "https://cdn.example.com/b.png") (Some 300%Z) (Some 250%Z)
    = Some ("https://ads.example.org" ++ "/res/"
            ++ encode_url "https://cdn.example.com/b.png" ++ query).
Proof.
  destruct (proxied_image_avoids_standard_sizes "https://ads.example.org"
              "https://cdn.example.com/b.png" (Some 300%Z) (Some 250%Z))
    as (query & Hurl & _); [discriminate|].
  exists query. exact Hurl.
Defined.

Example proxied_image_demo :
  _get_proxied_image_url "https://ads.example.org"
    (Some "https://cdn.example.com/b.png") (Some 300%Z) (Some 250%Z)
  = Some ("https://ads.example.org/res/aHR0cHM6Ly9jZG4uZXhhbXBsZS5jb20vYi5wbmc"
          ++ "?w=299&h=249&v=2")
  /\ _get_proxied_image_url "https://ads.example.org"
       (Some "https://cdn.example.com/b.png") (Some 300%Z) None
     = Some "https://ads.example.org/res/aHR0cHM6Ly9jZG4uZXhhbXBsZS5jb20vYi5wbmc?v=2"
  /\ _get_proxied_image_url "https://ads.example.org" (Some "") (Some 300%Z) None
     = None.
Proof. repeat split; reflexivity. Qed.

(** ** The click-through endpoint and the two encodings of an ad id *)

Lemma parse_legacy_id campaign creative :
  _parse_ad_id ("ad_" ++ str campaign ++ "_" ++ str creative)
  = Ok (Some campaign, Some creative).
Proof.
  unfold _parse_ad_id. rewrite split_legacy_encoding.
  cbn -[int str]. by rewrite !int_str.
Qed.

(** X23.  The click-through endpoint and the event service disagree on
    legacy ad identifiers.  For an identifier "ad_{campaign}_{creative}"
    whose click is tracked -- appended to the event log with that campaign
    and that creative -- and committed, [click_through] redirects to "/"
    with status 302, whatever landing page the creative has: its own
    split of the identifier wants exactly two pieces. *)
Theorem click_through_loses_legacy_ids (db_commits : State -> bool) (env : Env)
    (st st' : State) (r : string) (campaign creative : Z) :
  track_event env st r ("ad_" ++ str campaign ++ "_" ++ str creative) "click"
    None None = (true, st') ->
  db_commits st' = true ->
  click_through db_commits env st r ("ad_" ++ str campaign ++ "_" ++ str creative)
  = Ok ({| url := "/"; status_code := 302 |}, st')
  /\ exists e,
       events st' = (events st ++ [e])%list
       /\ ev_campaign_id e = Some campaign
       /\ ev_creative_id e = Some creative
       /\ event_type e = CLICK.
Proof.
  intros Htrack Hcommit. split.
  - unfold click_through. rewrite Htrack, Hcommit. cbn [negb].
    unfold landing_of. by rewrite split_legacy_encoding.
  - destruct (track_event_unfold env st r
                ("ad_" ++ str campaign ++ "_" ++ str creative) "click" None None)
      as (campaign' & creative' & Hparse & Heq).
    rewrite parse_legacy_id in Hparse. injection Hparse as <- <-.
    rewrite Heq in Htrack. clear Heq.
    change (_get_event_type "click") with (Some CLICK) in Htrack.
    cbn [event_time_of] in Htrack. cbn zeta in Htrack.
    destruct (db_accepts env _); [|discriminate].
    apply (f_equal snd) in Htrack. cbn [snd truthy_str] in Htrack.
    rewrite andb_false_r in Htrack.
    pose proof (calculate_cost_effect st CLICK (Some campaign)) as (Hev & _).
    cbn zeta in Hev.
    eexists. split.
    { rewrite <- Htrack.
      rewrite (proj1 (proj2 (update_stats_frame env _ _ _))). cbn [events].
      by rewrite Hev. }
    done.
Qed.

Lemma click_through_loses_legacy_ids_witness :
  click_through (fun _ => true) Sample.env Sample.st "req-1"
    ("ad_" ++ str 5 ++ "_" ++ str 3)
  = Ok ({| url := "/"; status_code := 302 |},
        (track_event Sample.env Sample.st "req-1" "ad_5_3" "click" None None).2).
Proof.
  apply (click_through_loses_legacy_ids (fun _ => true) Sample.env Sample.st
           (track_event Sample.env Sample.st "req-1" "ad_5_3" "click" None None).2
           "req-1" 5 3);
    reflexivity.
Defined.

Example click_through_demo :
  click_through (fun _ => true) Sample.env Sample.st "req-1" "5_3"
  = Ok ({| url := "https://shop.example.com/"; status_code := 302 |},
        (track_event Sample.env Sample.st "req-1" "5_3" "click" None None).2)
  /\ click_through (fun _ => false) Sample.env Sample.st "req-1" "5_3"
     = Raise StoreError.
Proof. split; reflexivity. Qed.

(** ** The click-through endpoint follows the creative *)

(** X24.  For an identifier "{campaign}_{creative}", once the commit has
    succeeded, [click_through] redirects with status 302 to the landing
    URL of the one creative row that has the creative id, when that URL
    is not empty -- whether or not the click was tracked, and whatever
    the campaign part of the identifier says. *)
Theorem click_through_follows_creative (db_commits : State -> bool) (env : Env)
    (st st' : State) (r : string) (campaign creative : Z) (tracked : bool)
    (row : Creative) (landing : string) :
  track_event env st r (str campaign ++ "_" ++ str creative) "click" None None
  = (tracked, st') ->
  db_commits st' = true ->
  creative_rows st' creative = [row] ->
  landing_url row = Some landing ->
  landing <> "" ->
  click_through db_commits env st r (str campaign ++ "_" ++ str creative)
  = Ok ({| url := landing; status_code := 302 |}, st').
Proof.
  intros Htrack Hcommit Hrows Hlanding Hne.
  unfold click_through. rewrite Htrack, Hcommit. cbn [negb].
  unfold landing_of. rewrite split_new_encoding, int_str.
  cbn [mbind result_bind]. rewrite Hrows. cbn [scalar_one_or_none mbind result_bind].
  rewrite Hlanding. cbn [truthy_str].
  by rewrite (proj2 (String.eqb_neq landing "") Hne).
Qed.

Lemma click_through_follows_creative_witness :
  click_through (fun _ => true) Sample.env Sample.st "req-1" (str 999 ++ "_" ++ str 3)
  = Ok ({| url := "https://shop.example.com/"; status_code := 302 |},
        (track_event Sample.env Sample.st "req-1" "999_3" "click" None None).2).
Proof.
  apply (click_through_follows_creative (fun _ => true) Sample.env Sample.st
           (track_event Sample.env Sample.st "req-1" "999_3" "click" None None).2
           "req-1" 999 3 true Sample.banner "https://shop.example.com/");
    [reflexivity | reflexivity | by vm_compute | reflexivity | discriminate].
Defined.

(** ** The Referer header as the page of a request *)

Lemma join_two_nonempty p q : p ++ "." ++ q <> "".
Proof. by destruct p. Qed.

Lemma prefix_drop_chars p s :
  String.prefix p s = true -> s = p ++ drop_chars (String.length p) s.
Proof.
  revert s. induction p as [|c p IH]; intros s; [done|].
  destruct s as [|c' s]; [discriminate|]. cbn [String.prefix].
  destruct (ascii_dec c c') as [<- | ?]; [|discriminate].
  intros Hp. cbn [String.length drop_chars].
  change (String c p ++ drop_chars (String.length p) s)
    with (String c (p ++ drop_chars (String.length p) s)).
  by rewrite <- (IH s Hp).
Qed.

Lemma strip_www_empty host : host <> "" -> strip_www host = "" -> host = "www.".
Proof.
  unfold strip_www, startswith. intros Hne.
  destruct (String.prefix "www." host) eqn:Hp; [|done].
  apply prefix_drop_chars in Hp. cbn [String.length] in Hp.
  intros Hrest. by rewrite Hrest in Hp.
Qed.

(** X25.  [_get_page_url_from_referer] returns a page URL only when the
    setting allows it, and then it returns the Referer header (or, when
    that one is absent or empty, the Referrer header) unchanged; the
    returned URL has the scheme http or https and a non-empty network
    location, and [_extract_domain] finds a domain in it, which is empty
    only when the network location is "www." in some letter case. *)
Theorem accepted_referer_has_a_domain (env : Env) (use_referer_for_targeting : bool)
    (referer_header referrer_header : option string) (url : string) :
  _get_page_url_from_referer env use_referer_for_targeting referer_header
    referrer_header = Some url ->
  use_referer_for_targeting = true
  /\ (referer_header = Some url
      \/ (truthy_str referer_header = false /\ referrer_header = Some url))
  /\ (urlparse_scheme url = "http" \/ urlparse_scheme url = "https")
  /\ exists netloc domain,
       urlparse_netloc env url = Ok netloc
       /\ netloc <> ""
       /\ _extract_domain env url = Some domain
       /\ (domain = "" <-> lower netloc = "www.").
Proof.
  unfold _get_page_url_from_referer.
  destruct use_referer_for_targeting; [|discriminate]. cbn [negb].
  set (referer := if truthy_str referer_header then referer_header else referrer_header).
  destruct (truthy_str referer) eqn:Htruthy; [|discriminate]. cbn [negb].
  destruct referer as [r|] eqn:Hreferer; [|discriminate].
  cbn [default from_option id].
  destruct (urlparse_netloc env r) as [netloc|] eqn:Hnetloc; [|discriminate].
  destruct (String.eqb (urlparse_scheme r) "http" || String.eqb (urlparse_scheme r) "https")
    eqn:Hscheme; [|discriminate].
  destruct (String.eqb_spec netloc "") as [-> | Hhost]; [discriminate|].
  cbn [negb andb]. intros [= ->].
  assert (url <> "") as Hurl.
  { intros ->. discriminate Htruthy. }
  split; [done|]. split.
  { subst referer. destruct (truthy_str referer_header) eqn:Hr; auto. }
  split.
  { apply orb_prop in Hscheme as [?%String.eqb_eq | ?%String.eqb_eq]; auto. }
  exists netloc. 
  assert (lower netloc <> "") as Hlower by (by destruct netloc).
  unfold _extract_domain.
  rewrite (proj2 (String.eqb_neq url "") Hurl), Hnetloc.
  destruct (Nat.leb_spec 2 (length (split "." (strip_www (lower netloc)))))
    as [Hle | Hlt].
  - unfold last_n.
    assert (length (drop (length (split "." (strip_www (lower netloc))) - 2)
                      (split "." (strip_www (lower netloc)))) = 2%nat) as Hl
      by (rewrite length_drop; lia).
    destruct (drop _ _) as [|p [|q [|x xs]]]; try discriminate Hl.
    eexists. split_and!; [done | done | reflexivity |].
    cbn [join]. split; [by intros ?%join_two_nonempty|].
    intros Hw. rewrite Hw in Hle. cbn in Hle. lia.
  - eexists. split_and!; [done | done | reflexivity |].
    split; [by apply strip_www_empty | by intros ->].
Qed.

Lemma accepted_referer_has_a_domain_witness :
  exists netloc domain,
    urlparse_netloc Sample.env "https://news.example.co.uk/articles/1" = Ok netloc
    /\ netloc <> ""
    /\ _extract_domain Sample.env "https://news.example.co.uk/articles/1" = Some domain
    /\ (domain = "" <-> lower netloc = "www.").
Proof.
  destruct (accepted_referer_has_a_domain Sample.env true
              (Some "https://news.example.co.uk/articles/1") None
              "https://news.example.co.uk/articles/1")
    as (_ & _ & _ & Hdomain); [reflexivity | exact Hdomain].
Defined.

Example referer_demo :
  _get_page_url_from_referer Sample.env true (Some "HTTPS://www./x") None
  = Some "HTTPS://www./x"
  /\ _extract_domain Sample.env "HTTPS://www./x" = Some ""
  /\ _get_page_url_from_referer Sample.env true (Some "/local/page") None = None
  /\ _get_page_url_from_referer Sample.env true None (Some "http://a.example.org") 
     = Some "http://a.example.org"
  /\ _get_page_url_from_referer Sample.env false (Some "http://a.example.org") None
     = None
  /\ _get_page_url_from_referer Sample.env true (Some "ftp://a.example.org") None
     = None.
Proof. repeat split; reflexivity. Qed.

(* ===================================================================== *)
(** * Configuration                                                       *)
(* ===================================================================== *)

Import Config.

Lemma merged_value_dict base override :
  merged_value (Some (PDict base)) (PDict override)
  = PDict (merge_configs base override).
Proof. reflexivity. Qed.

Lemma merged_value_cases current value :
  merged_value current value
  = match current, value with
    | Some (PDict base), PDict override => PDict (merge_configs base override)
    | _, _ => value
    end.
Proof. destruct current as [[]|], value; reflexivity. Qed.

Lemma assoc_setitem k k' v d :
  assoc k' (setitem k v d) = if String.eqb k k' then Some v else assoc k' d.
Proof.
  induction d as [|[k0 v0] rest IH]; cbn [setitem assoc].
  - done.
  - destruct (String.eqb_spec k0 k) as [-> | Hne]; cbn [assoc].
    + by destruct (String.eqb k k').
    + destruct (String.eqb_spec k0 k') as [-> | Hne'].
      * by rewrite (proj2 (String.eqb_neq k k')).
      * exact IH.
Qed.

Lemma assoc_None k d : k ∉ d.*1 -> assoc k d = None.
Proof.
  induction d as [|[k0 v0] rest IH]; [done|].
  cbn [fmap list_fmap fst assoc]. intros [Hne Hrest]%not_elem_of_cons.
  rewrite (proj2 (String.eqb_neq k0 k)) by done. by apply IH.
Qed.

Lemma setitem_keys k v d :
  (setitem k v d).*1 = if bool_decide (k ∈ d.*1) then d.*1 else (d.*1 ++ [k])%list.
Proof.
  induction d as [|[k0 v0] rest IH]; [done|].
  cbn [setitem fmap list_fmap fst].
  destruct (String.eqb_spec k0 k) as [-> | Hne].
  - by rewrite bool_decide_eq_true_2 by left.
  - cbn [fmap list_fmap fst]. change (list_fmap _ _ fst ?l) with (l.*1). rewrite IH.
    destruct (decide (k ∈ rest.*1)) as [Hin | Hnin].
    + rewrite !bool_decide_eq_true_2; [done | by right | done].
    + rewrite !bool_decide_eq_false_2; [done | | done].
      intros [? | ?]%elem_of_cons; congruence.
Qed.

Lemma merge_configs_cons base k v rest :
  merge_configs base ((k, v) :: rest)
  = merge_configs (setitem k (merged_value (assoc k base) v) base) rest.
Proof. reflexivity. Qed.

Lemma merge_configs_keys base override :
  base.*1 `prefix_of` (merge_configs base override).*1
  /\ (NoDup base.*1 -> NoDup (merge_configs base override).*1).
Proof.
  revert base. induction override as [|[k v] rest IH]; intros base; [done|].
  rewrite merge_configs_cons.
  destruct (IH (setitem k (merged_value (assoc k base) v) base)) as [Hpre Hnd].
  rewrite setitem_keys in Hpre, Hnd.
  destruct (decide (k ∈ base.*1)) as [Hin | Hnin].
  - rewrite bool_decide_eq_true_2 in Hpre, Hnd by done. done.
  - rewrite bool_decide_eq_false_2 in Hpre, Hnd by done. split.
    + etrans; [|exact Hpre]. by apply prefix_app_r.
    + intros Hbase. apply Hnd. apply NoDup_app. split_and!; [done| |apply NoDup_singleton].
      intros x Hx ->%list_elem_of_singleton. done.
Qed.

(** X26.  [merge_configs] is a deep merge in which the override wins.  For
    an override with distinct keys: a key absent from the override keeps
    its base value; a key of the override gets the merge of the two
    values when the base and the override both hold a dict under it, and
    the override's value otherwise.  The keys of the base keep their
    order at the front of the result, and a base with distinct keys gives
    a result with distinct keys. *)
Theorem merge_configs_lookup (base override : list (string * pyval)) :
  NoDup override.*1 ->
  (forall key,
     assoc key (merge_configs base override)
     = match assoc key override with
       | None => assoc key base
       | Some value =>
           Some match assoc key base, value with
                | Some (PDict b), PDict o => PDict (merge_configs b o)
                | _, _ => value
                end
       end)
  /\ base.*1 `prefix_of` (merge_configs base override).*1
  /\ (NoDup base.*1 -> NoDup (merge_configs base override).*1).
Proof.
  intros Hnodup. split; [|apply merge_configs_keys].
  revert base. induction override as [|[k v] rest IH]; intros base key; [done|].
  cbn [fmap list_fmap fst] in Hnodup. apply NoDup_cons in Hnodup as [Hk Hrest].
  rewrite merge_configs_cons, (IH Hrest). cbn [assoc].
  rewrite assoc_setitem.
  destruct (String.eqb_spec k key) as [<- | Hne].
  - rewrite (assoc_None k rest Hk). by rewrite merged_value_cases.
  - done.
Qed.

Lemma merge_configs_lookup_witness :
  assoc "redis"
    (merge_configs
       [("debug", PBool false);
        ("redis", PDict [("host", PStr "localhost"); ("port", PNum 6379)])]
       [("redis", PDict [("host", PStr "cache")]); ("env", PStr "prod")])
  = Some (PDict (merge_configs [("host", PStr "localhost"); ("port", PNum 6379)]
                   [("host", PStr "cache")])).
Proof.
  assert (NoDup ["redis"; "env"]) as Hkeys.
  { apply NoDup_cons. split; [|apply NoDup_singleton].
    intros Hin. apply list_elem_of_singleton in Hin. discriminate Hin. }
  exact (proj1 (merge_configs_lookup
                  [("debug", PBool false);
                   ("redis", PDict [("host", PStr "localhost"); ("port", PNum 6379)])]
                  [("redis", PDict [("host", PStr "cache")]); ("env", PStr "prod")]
                  Hkeys) "redis").
Defined.

Example merge_configs_demo :
  merge_configs
    [("debug", PBool false);
     ("redis", PDict [("host", PStr "localhost"); ("port", PNum 6379)])]
    [("redis", PDict [("host", PStr "cache")]); ("env", PStr "prod")]
  = [("debug", PBool false);
     ("redis", PDict [("host", PStr "cache"); ("port", PNum 6379)]);
     ("env", PStr "prod")].
Proof. reflexivity. Qed.
